(** * Pitch-Perfect front end: motion-gated frame buffering, single-flight
    inference, voice feedback and pose-detector start-up.

    The development embeds four TypeScript modules of the front end:
    - [frontend/src/utils/frameBuffer.ts]   (module [FrameBuffer]),
    - the application page with [handleFrameCapture] (module [ApplicationPage]),
    - the text-to-speech service (module [TtsService]),
    - [frontend/src/services/poseDetection.ts] (module [PoseDetection]).

    JavaScript numbers that hold counts, sizes and millisecond clocks are
    integers ([nat], [Z]); numbers that come out of a division are IEEE-754
    binary64 values, modelled by Rocq's primitive floats, which compute with
    the same rounding as the JavaScript engine. *)

From Stdlib Require Import String ZArith List Bool Lia Floats Uint63.
From Stdlib.Strings Require Import Byte.
Import ListNotations.
Open Scope Z_scope.

(** ** JavaScript numbers *)

Module JsNum.

(** An integer below 2^53 is a JavaScript number exactly. *)
Definition js_of_Z (z : Z) : float := PrimFloat.of_uint63 (Uint63.of_Z z).

Definition js_of_nat (n : nat) : float := js_of_Z (Z.of_nat n).

(** An element of a [Uint8ClampedArray]. *)
Definition js_of_byte (b : byte) : float := js_of_Z (Z.of_N (Byte.to_N b)).

(** [x > y] on numbers; false as soon as one side is NaN. *)
Definition js_gt (x y : float) : bool := PrimFloat.ltb y x.

(** [all_below k base p]: [p] holds on the [2^k] integers from [base] on.
    Used to check finitely many floating-point facts by evaluation. *)
Fixpoint all_below (k : nat) (base : Z) (p : Z -> bool) : bool :=
  match k with
  | O => p base
  | S k' => all_below k' base p && all_below k' (base + 2 ^ Z.of_nat k') p
  end.

Lemma all_below_sound (k : nat) : forall (base : Z) (p : Z -> bool),
  all_below k base p = true ->
  forall z, base <= z < base + 2 ^ Z.of_nat k -> p z = true.
Proof.
  induction k as [|k IH]; intros base p H z Hz.
  - simpl in Hz. replace z with base by lia. exact H.
  - cbn [all_below] in H. apply andb_true_iff in H as [Hlo Hhi].
    rewrite Nat2Z.inj_succ, Z.pow_succ_r in Hz by lia.
    destruct (Z_lt_ge_dec z (base + 2 ^ Z.of_nat k)) as [Hlt|Hge].
    + apply (IH base p Hlo). lia.
    + apply (IH _ p Hhi). lia.
Qed.

(** [all_prefixed k b p]: [p] holds on the [2^k] machine integers whose
    binary writing is that of [b] followed by [k] more bits. *)
Fixpoint all_prefixed (k : nat) (b : int) (p : int -> bool) : bool :=
  match k with
  | O => p b
  | S k' => all_prefixed k' (2 * b)%uint63 p && all_prefixed k' (2 * b + 1)%uint63 p
  end.

Lemma all_prefixed_sound (k : nat) : forall (b : int) (p : int -> bool),
  all_prefixed k b p = true ->
  (Uint63.to_Z b + 1) * 2 ^ Z.of_nat k < wB ->
  forall n : int,
    Uint63.to_Z b * 2 ^ Z.of_nat k <= Uint63.to_Z n < (Uint63.to_Z b + 1) * 2 ^ Z.of_nat k ->
    p n = true.
Proof.
  induction k as [|k IH]; intros b p H Hb n Hn.
  - change (2 ^ Z.of_nat 0) with 1 in Hn. replace n with b; [exact H|].
    apply Uint63.to_Z_inj. lia.
  - cbn [all_prefixed] in H. apply andb_true_iff in H as [H0 H1].
    rewrite Nat2Z.inj_succ, Z.pow_succ_r in Hb, Hn by lia.
    pose proof (Uint63.to_Z_bounded b) as Bb.
    assert (Hpos : 0 < 2 ^ Z.of_nat k) by (apply Z.pow_pos_nonneg; lia).
    assert (E0 : Uint63.to_Z (2 * b)%uint63 = 2 * Uint63.to_Z b).
    { rewrite Uint63.mul_spec. change (Uint63.to_Z 2) with 2. apply Z.mod_small. nia. }
    assert (E1 : Uint63.to_Z (2 * b + 1)%uint63 = 2 * Uint63.to_Z b + 1).
    { rewrite Uint63.add_spec, E0. change (Uint63.to_Z 1) with 1. apply Z.mod_small. nia. }
    destruct (Z_lt_ge_dec (Uint63.to_Z n) ((2 * Uint63.to_Z b + 1) * 2 ^ Z.of_nat k))
      as [Hlt|Hge].
    + apply (IH _ p H0); rewrite E0; nia.
    + apply (IH _ p H1); rewrite E1; nia.
Qed.

(** Dividing a multiple of four by four is exact (no rounding), checked for
    every pixel count below 2^25 = 33554432 (a 7680x4320 frame has 33177600). *)
Definition max_pixels : Z := 33554432.

Lemma div4_exact_check :
  all_prefixed 25 0%uint63
    (fun n => PrimFloat.Leibniz.eqb (PrimFloat.of_uint63 (4 * n)%uint63 / 4)%float
                (PrimFloat.of_uint63 n)) = true.
Proof. vm_cast_no_check (eq_refl true). Qed.

Lemma div4_exact (n : nat) :
  Z.of_nat n < max_pixels -> (js_of_nat (4 * n) / 4)%float = js_of_nat n.
Proof.
  intros Hn. unfold js_of_nat, js_of_Z, max_pixels in *.
  assert (HwB : wB = 9223372036854775808) by reflexivity.
  assert (Ei : Uint63.to_Z (Uint63.of_Z (Z.of_nat n)) = Z.of_nat n)
    by (rewrite Uint63.of_Z_spec; apply Z.mod_small; lia).
  replace (Uint63.of_Z (Z.of_nat (4 * n))) with (4 * Uint63.of_Z (Z.of_nat n))%uint63.
  - apply FloatAxioms.Leibniz.eqb_spec.
    apply (all_prefixed_sound 25 0%uint63 _ div4_exact_check).
    + change (Uint63.to_Z 0) with 0. change (2 ^ Z.of_nat 25) with 33554432. lia.
    + rewrite Ei. change (Uint63.to_Z 0) with 0. change (2 ^ Z.of_nat 25) with 33554432. lia.
  - apply Uint63.to_Z_inj.
    rewrite Uint63.mul_spec, Ei, Uint63.of_Z_spec, Nat2Z.inj_mul.
    change (Uint63.to_Z 4) with 4. change (Z.of_nat 4) with 4. reflexivity.
Qed.

(** A quotient whose numerator is zero is [0], [-0] or NaN, hence never above
    a threshold that is not negative. *)
Lemma zero_div_not_gt (t p : float) :
  PrimFloat.leb 0 t = true -> js_gt (js_of_nat 0 / p)%float t = false.
Proof.
  unfold js_gt. change (js_of_nat 0) with 0%float.
  rewrite FloatAxioms.leb_spec, FloatAxioms.ltb_spec, FloatAxioms.div_spec.
  change (Prim2SF 0) with (S754_zero false).
  destruct (Prim2SF p) as [s| s | | s m e]; destruct (Prim2SF t) as [s'| s' | | s' m' e'];
    try destruct s; try destruct s'; cbn; congruence.
Qed.

(** A number never differs from itself by more than 30: [g - g] is [0] or NaN. *)
Lemma self_difference_small (g : float) :
  js_gt (PrimFloat.abs (g - g)) 30%float = false.
Proof.
  unfold js_gt. rewrite FloatAxioms.ltb_spec, FloatAxioms.abs_spec, FloatAxioms.sub_spec.
  destruct (Prim2SF g) as [s|s| |s m e].
  - destruct s; vm_compute; reflexivity.
  - destruct s; vm_compute; reflexivity.
  - vm_compute; reflexivity.
  - unfold SF64sub, SFsub. rewrite Z.min_id. unfold shl_align.
    change (IntDef.Z.sub e e) with (e - e). rewrite Z.sub_diag. cbn [fst].
    vm_compute. reflexivity.
Qed.

End JsNum.

(** ** Results of calls that may throw *)

Inductive result (A : Type) : Type :=
| Return (a : A)
| Throw (msg : string).
Arguments Return {A} a.
Arguments Throw {A} msg.

(** ** frameBuffer.ts *)

Module FrameBuffer.
Import JsNum.

(** The browser's [ImageData]: [data] is the RGBA byte array, four bytes per
    pixel, row by row. *)
Record ImageData : Type := {
  width : nat;
  height : nat;
  data : list byte
}.

(** What the browser guarantees of an [ImageData]. *)
Definition well_formed (f : ImageData) : Prop :=
  length (data f) = (4 * (width f * height f))%nat.

Record FrameData : Type := {
  base64 : string;
  imageData : ImageData;
  timestamp : Z
}.

Record t : Type := {
  buffer : list FrameData;
  maxFrames : nat;
  frameInterval : Z;
  motionThreshold : float;
  lastCaptureTime : Z;
  hasSignificantMotion : bool
}.

(** [new FrameBuffer(maxFrames, frameInterval, motionThreshold)]. *)
Definition constructor (maxFrames : nat) (frameInterval : Z) (motionThreshold : float) : t :=
  {| buffer := [];
     maxFrames := maxFrames;
     frameInterval := frameInterval;
     motionThreshold := motionThreshold;
     lastCaptureTime := 0;
     hasSignificantMotion := false |}.

(** The default arguments: 8 frames, 200 ms, 0.15 (the binary64 nearest 0.15). *)
Definition default_motionThreshold : float := 0x1.3333333333333p-3%float.

Definition default : t := constructor 8 200 default_motionThreshold.

(** [d[i]] as an operand of [+]: a byte, or [undefined] (hence NaN) out of range. *)
Definition channel (d : list byte) (i : nat) : float :=
  match nth_error d i with
  | Some b => js_of_byte b
  | None => PrimFloat.nan
  end.

(** [(d[i] + d[i + 1] + d[i + 2]) / 3]. *)
Definition gray (d : list byte) (i : nat) : float :=
  ((channel d i + channel d (i + 1) + channel d (i + 2)) / 3)%float.

(** [const threshold = 30]. *)
Definition threshold : float := 30%float.

(** The [for (let i = 0; i < frame1.data.length; i += 4)] loop; [fuel] bounds
    the number of iterations and [length d1] of it is always enough. *)
Fixpoint countChanged (fuel : nat) (d1 d2 : list byte) (i changedPixels : nat) : nat :=
  match fuel with
  | O => changedPixels
  | S fuel' =>
      if (i <? length d1)%nat then
        let gray1 := gray d1 i in
        let gray2 := gray d2 i in
        countChanged fuel' d1 d2 (i + 4)
          (if js_gt (PrimFloat.abs (gray1 - gray2)) threshold
           then S changedPixels else changedPixels)
      else changedPixels
  end.

Definition calculateMotion (frame1 frame2 : ImageData) : float :=
  if negb (width frame1 =? width frame2)%nat || negb (height frame1 =? height frame2)%nat
  then 1%float
  else
    let pixels := (js_of_nat (length (data frame1)) / 4)%float in
    let changedPixels :=
      countChanged (length (data frame1)) (data frame1) (data frame2) 0 0 in
    (js_of_nat changedPixels / pixels)%float.

(** What the canvas hands back for the current video frame: the JPEG as
    base64 and the raster.  [addFrame] receives [None] when
    [canvas.getContext('2d')] is [null]. *)
Record Snapshot : Type := {
  snap_base64 : string;
  snap_image : ImageData
}.

Definition last_frame (b : list FrameData) : option FrameData :=
  nth_error b (length b - 1).

(** The motion check of [addFrame] against the last buffered frame. *)
Definition motionCheck (fb : t) (img : ImageData) : bool :=
  match last_frame (buffer fb) with
  | Some lastFrame =>
      if js_gt (calculateMotion (imageData lastFrame) img) (motionThreshold fb)
      then true else hasSignificantMotion fb
  | None => hasSignificantMotion fb
  end.

(** [Array.prototype.shift] when the buffer outgrew [maxFrames]. *)
Definition keepLast (maxFrames : nat) (b : list FrameData) : list FrameData :=
  if (maxFrames <? length b)%nat then tl b else b.

(** [addFrame(video)], with [now = Date.now()] and the canvas snapshot of
    [video] as inputs. *)
Definition addFrame (now : Z) (ctx : option Snapshot) (fb : t) : t * result bool :=
  if now - lastCaptureTime fb <? frameInterval fb then (fb, Return false)
  else
    let fb1 := {| buffer := buffer fb; maxFrames := maxFrames fb;
                  frameInterval := frameInterval fb;
                  motionThreshold := motionThreshold fb;
                  lastCaptureTime := now;
                  hasSignificantMotion := hasSignificantMotion fb |} in
    match ctx with
    | None => (fb1, Throw "Could not get canvas context"%string)
    | Some snap =>
        let motionSeen := motionCheck fb1 (snap_image snap) in
        let pushed := buffer fb1 ++
          [{| base64 := snap_base64 snap; imageData := snap_image snap; timestamp := now |}] in
        let kept := keepLast (maxFrames fb1) pushed in
        let fb2 := {| buffer := kept; maxFrames := maxFrames fb;
                      frameInterval := frameInterval fb;
                      motionThreshold := motionThreshold fb;
                      lastCaptureTime := now;
                      hasSignificantMotion := motionSeen |} in
        (fb2, Return ((maxFrames fb <=? length kept)%nat && motionSeen))
    end.

(** [getFrames()]: pads the stored array itself, then maps it to base64.  The
    pushed elements are the very record [lastFrame]; records are never
    written to after creation, so equal values stand for shared references. *)
Definition getFrames (fb : t) : t * list string :=
  let padded :=
    if (length (buffer fb) <? maxFrames fb)%nat && (0 <? length (buffer fb))%nat then
      match last_frame (buffer fb) with
      | Some lastFrame => buffer fb ++ repeat lastFrame (maxFrames fb - length (buffer fb))
      | None => buffer fb
      end
    else buffer fb in
  ({| buffer := padded; maxFrames := maxFrames fb;
      frameInterval := frameInterval fb;
      motionThreshold := motionThreshold fb;
      lastCaptureTime := lastCaptureTime fb;
      hasSignificantMotion := hasSignificantMotion fb |},
   map base64 padded).

(** The motions of consecutive stored frames, oldest pair first. *)
Fixpoint consecutiveMotions (b : list FrameData) : list float :=
  match b with
  | f1 :: ((f2 :: _) as rest) =>
      calculateMotion (imageData f1) (imageData f2) :: consecutiveMotions rest
  | _ => []
  end.

Definition getMotionLevel (fb : t) : float :=
  if (length (buffer fb) <? 2)%nat then 0%float
  else
    let ms := consecutiveMotions (buffer fb) in
    let totalMotion := fold_left PrimFloat.add ms 0%float in
    let comparisons := length ms in
    if (0 <? comparisons)%nat then (totalMotion / js_of_nat comparisons)%float else 0%float.

Definition clear (fb : t) : t :=
  {| buffer := []; maxFrames := maxFrames fb;
     frameInterval := frameInterval fb;
     motionThreshold := motionThreshold fb;
     lastCaptureTime := 0;
     hasSignificantMotion := false |}.

Definition isReady (fb : t) : bool :=
  (maxFrames fb <=? length (buffer fb))%nat && hasSignificantMotion fb.

Definition resetMotionFlag (fb : t) : t :=
  {| buffer := buffer fb; maxFrames := maxFrames fb;
     frameInterval := frameInterval fb;
     motionThreshold := motionThreshold fb;
     lastCaptureTime := lastCaptureTime fb;
     hasSignificantMotion := false |}.

(** *** Sequences of method calls *)

Inductive call : Type :=
| AddFrame (now : Z) (ctx : option Snapshot)
| GetFrames
| GetMotionLevel
| Clear
| IsReady
| ResetMotionFlag.

Inductive reply : Type :=
| RBool (r : result bool)
| RFrames (frames : list string)
| RNumber (x : float)
| RVoid.

Definition exec (c : call) (fb : t) : t * reply :=
  match c with
  | AddFrame now ctx => let (fb', r) := addFrame now ctx fb in (fb', RBool r)
  | GetFrames => let (fb', fr) := getFrames fb in (fb', RFrames fr)
  | GetMotionLevel => (fb, RNumber (getMotionLevel fb))
  | Clear => (clear fb, RVoid)
  | IsReady => (fb, RBool (Return (isReady fb)))
  | ResetMotionFlag => (resetMotionFlag fb, RVoid)
  end.

Fixpoint run (cs : list call) (fb : t) : t * list reply :=
  match cs with
  | [] => (fb, [])
  | c :: cs' =>
      let (fb1, r) := exec c fb in
      let (fb2, rs) := run cs' fb1 in
      (fb2, r :: rs)
  end.

(** An accepted push: the throttle lets it through and the canvas delivers. *)
Definition accepted (now : Z) (ctx : option Snapshot) (fb : t) : bool :=
  negb (now - lastCaptureTime fb <? frameInterval fb)
  && match ctx with Some _ => true | None => false end.

(** The call is an accepted push whose motion score against the last stored
    frame exceeds the threshold. *)
Definition exceedsThreshold (c : call) (fb : t) : bool :=
  match c with
  | AddFrame now (Some snap) =>
      accepted now (Some snap) fb &&
      match last_frame (buffer fb) with
      | Some lastFrame =>
          js_gt (calculateMotion (imageData lastFrame) (snap_image snap)) (motionThreshold fb)
      | None => false
      end
  | _ => false
  end.

(** A static scene: no accepted push of the run exceeds the threshold. *)
Fixpoint staticScene (cs : list call) (fb : t) : bool :=
  match cs with
  | [] => true
  | c :: cs' => negb (exceedsThreshold c fb) && staticScene cs' (fst (exec c fb))
  end.

End FrameBuffer.

(** ** The motion score *)

From Stdlib Require QArith Qabs.

Module MotionScore.
Import JsNum FrameBuffer.

(** *** The loop of [calculateMotion], pixel by pixel *)

(** The test the loop makes at offset [4 * p], as the source writes it. *)
Definition loopTest (f1 f2 : ImageData) (p : nat) : bool :=
  js_gt (PrimFloat.abs (gray (data f1) (4 * p) - gray (data f2) (4 * p))) threshold.

Definition totalPixelCount (f : ImageData) : nat := (width f * height f)%nat.

Definition sameDimensions (f1 f2 : ImageData) : Prop :=
  width f1 = width f2 /\ height f1 = height f2.

(** The loop visits the pixels [k, k+1, ..., n-1] and adds one for each
    pixel that passes its test. *)
Lemma countChanged_from (f1 f2 : ImageData) (n : nat) :
  length (data f1) = (4 * n)%nat ->
  forall fuel k c,
    (k <= n)%nat -> (n - k <= fuel)%nat ->
    countChanged fuel (data f1) (data f2) (4 * k) c =
    (c + length (filter (loopTest f1 f2) (seq k (n - k))))%nat.
Proof.
  intros Hlen fuel. induction fuel as [|fuel IH]; intros k c Hk Hfuel.
  - replace (n - k)%nat with 0%nat by lia. simpl. lia.
  - cbn [countChanged]. rewrite Hlen.
    destruct (Nat.ltb_spec (4 * k) (4 * n)) as [Hlt|Hge].
    + replace (4 * k + 4)%nat with (4 * S k)%nat by lia.
      rewrite IH by lia.
      replace (n - k)%nat with (S (n - S k)) by lia.
      cbn [seq filter].
      change (js_gt (PrimFloat.abs (gray (data f1) (4 * k) - gray (data f2) (4 * k))) threshold)
        with (loopTest f1 f2 k).
      destruct (loopTest f1 f2 k); cbn [length]; lia.
    + replace (n - k)%nat with 0%nat by lia. simpl. lia.
Qed.

Lemma countChanged_total (f1 f2 : ImageData) :
  well_formed f1 ->
  countChanged (length (data f1)) (data f1) (data f2) 0 0 =
  length (filter (loopTest f1 f2) (seq 0 (totalPixelCount f1))).
Proof.
  intros Hwf.
  pose proof (countChanged_from f1 f2 (totalPixelCount f1) Hwf (length (data f1)) 0 0) as H.
  change (4 * 0)%nat with 0%nat in H. rewrite Nat.sub_0_r in H.
  rewrite H; [reflexivity | lia | rewrite Hwf; unfold totalPixelCount; lia].
Qed.

Lemma dimensions_differ (f1 f2 : ImageData) :
  ~ sameDimensions f1 f2 <->
  negb (width f1 =? width f2)%nat || negb (height f1 =? height f2)%nat = true.
Proof.
  unfold sameDimensions.
  destruct (Nat.eqb_spec (width f1) (width f2)), (Nat.eqb_spec (height f1) (height f2));
    cbn; intuition congruence.
Qed.

(** Two identical rasters have no changed pixel and a score that exceeds no
    threshold from 0 upwards. *)
Lemma countChanged_same (d : list byte) : forall fuel i c,
  countChanged fuel d d i c = c.
Proof.
  induction fuel as [|fuel IH]; intros i c; [reflexivity|].
  cbn [countChanged]. destruct (i <? length d)%nat; [|reflexivity].
  unfold threshold. rewrite self_difference_small. apply IH.
Qed.

Lemma calculateMotion_same (f : ImageData) (thr : float) :
  PrimFloat.leb 0 thr = true -> js_gt (calculateMotion f f) thr = false.
Proof.
  intros Hthr. unfold calculateMotion. rewrite !Nat.eqb_refl. cbn [negb orb].
  rewrite countChanged_same. apply zero_div_not_gt, Hthr.
Qed.

Definition frameA : ImageData :=
  {| width := 2; height := 1; data := [x07; x00; x00; xff; x10; x20; x30; xff] |}.
Definition frameB : ImageData :=
  {| width := 2; height := 1; data := [x61; x00; x00; xff; x10; x20; x30; xff] |}.
Definition frameC : ImageData :=
  {| width := 1; height := 1; data := [x07; x00; x00; xff] |}.
Definition frameD : ImageData :=
  {| width := 2; height := 1; data := [x62; x00; x00; xff; x10; x20; x30; xff] |}.

(** *** The claim's terms: luminance as an exact average

    The definitions of this part are written from the claim and read the
    raster themselves: the luminance of a pixel is the average of its three
    colour intensities, a rational number, and a pixel is changed when the
    two luminances differ by strictly more than 30. *)

(** The sum of the red, green and blue bytes of pixel [p]. *)
Definition rgbSum (f : ImageData) (p : nat) : option Z :=
  match nth_error (data f) (4 * p), nth_error (data f) (4 * p + 1),
        nth_error (data f) (4 * p + 2) with
  | Some r, Some g, Some b =>
      Some (Z.of_N (Byte.to_N r) + Z.of_N (Byte.to_N g) + Z.of_N (Byte.to_N b))
  | _, _, _ => None
  end.

Definition luminance (f : ImageData) (p : nat) : option QArith_base.Q :=
  match rgbSum f p with
  | Some s => Some (QArith_base.Qmake s 3)
  | None => None
  end.

(** The absolute difference of the luminances of pixel [p]. *)
Definition luminanceDelta (f1 f2 : ImageData) (p : nat) : option QArith_base.Q :=
  match luminance f1 p, luminance f2 p with
  | Some a, Some b => Some (Qabs.Qabs (QArith_base.Qminus a b))
  | _, _ => None
  end.

(** The delta strictly exceeds 30. *)
Definition pixelChanged (f1 f2 : ImageData) (p : nat) : bool :=
  match luminanceDelta f1 f2 p with
  | Some d => negb (QArith_base.Qle_bool d (QArith_base.Qmake 30 1))
  | None => false
  end.

(** The delta is exactly 30. *)
Definition atThreshold (f1 f2 : ImageData) (p : nat) : bool :=
  match luminanceDelta f1 f2 p with
  | Some d => QArith_base.Qeq_bool d (QArith_base.Qmake 30 1)
  | None => false
  end.

Definition changedPixelCount (f1 f2 : ImageData) : nat :=
  length (filter (pixelChanged f1 f2) (seq 0 (totalPixelCount f1))).

Definition atThresholdCount (f1 f2 : ImageData) : nat :=
  length (filter (atThreshold f1 f2) (seq 0 (totalPixelCount f1))).

(** *** What the binary64 test does with the two sums

    The three intensities add up without rounding, so the source's
    luminance is the rounded third of an integer [s] between 0 and 765.
    Away from a difference of exactly 90 between the two sums the rounded
    test agrees with the exact one; at a difference of exactly 90 (a delta
    of exactly 30) the rounding of the two thirds decides. *)

Definition thirdsDiffer (s1 s2 : Z) : bool :=
  js_gt (PrimFloat.abs (js_of_Z s1 / 3 - js_of_Z s2 / 3)) 30%float.

(** At a delta of exactly 30: whether the rounded thirds are more than 30
    apart. *)
Definition roundsApart (f1 f2 : ImageData) (p : nat) : bool :=
  match rgbSum f1 p, rgbSum f2 p with
  | Some s1, Some s2 => thirdsDiffer s1 s2
  | _, _ => false
  end.

(** The pixels the source counts: those that changed, and of those at the
    threshold the ones whose rounded luminances are more than 30 apart. *)
Definition counted (f1 f2 : ImageData) (p : nat) : bool :=
  pixelChanged f1 f2 p || (atThreshold f1 f2 p && roundsApart f1 f2 p).

Definition countedPixelCount (f1 f2 : ImageData) : nat :=
  length (filter (counted f1 f2) (seq 0 (totalPixelCount f1))).

Lemma add_exact_check :
  all_below 10 0 (fun s => all_below 8 0 (fun b =>
    PrimFloat.Leibniz.eqb (js_of_Z s + js_of_Z b)%float (js_of_Z (s + b)))) = true.
Proof. vm_cast_no_check (eq_refl true). Qed.

Lemma add_exact (s b : Z) :
  0 <= s < 1024 -> 0 <= b < 256 -> (js_of_Z s + js_of_Z b)%float = js_of_Z (s + b).
Proof.
  intros Hs Hb. apply FloatAxioms.Leibniz.eqb_spec.
  pose proof (all_below_sound 10 0 _ add_exact_check s) as H1.
  cbv beta in H1.
  apply (all_below_sound 8 0 _ (H1 ltac:(change (2 ^ Z.of_nat 10) with 1024; lia)) b).
  change (2 ^ Z.of_nat 8) with 256. lia.
Qed.

Lemma thirds_check :
  all_below 10 0 (fun s1 => all_below 10 0 (fun s2 =>
    (Z.abs (s1 - s2) =? 90) || Bool.eqb (thirdsDiffer s1 s2) (90 <? Z.abs (s1 - s2)))) = true.
Proof. vm_cast_no_check (eq_refl true). Qed.

Lemma thirdsDiffer_exact (s1 s2 : Z) :
  0 <= s1 < 1024 -> 0 <= s2 < 1024 -> Z.abs (s1 - s2) <> 90 ->
  thirdsDiffer s1 s2 = (90 <? Z.abs (s1 - s2)).
Proof.
  intros H1 H2 Hne.
  pose proof (all_below_sound 10 0 _ thirds_check s1) as Ha. cbv beta in Ha.
  pose proof (all_below_sound 10 0 _
                (Ha ltac:(change (2 ^ Z.of_nat 10) with 1024; lia)) s2) as Hb.
  cbv beta in Hb.
  specialize (Hb ltac:(change (2 ^ Z.of_nat 10) with 1024; lia)).
  apply orb_true_iff in Hb as [Hb|Hb].
  - apply Z.eqb_eq in Hb. contradiction.
  - apply Bool.eqb_prop in Hb. exact Hb.
Qed.

Lemma byte_range (b : byte) : 0 <= Z.of_N (Byte.to_N b) < 256.
Proof. pose proof (Byte.to_N_bounded b). lia. Qed.

(** The source's luminance is the rounded third of the sum. *)
Lemma gray_rgbSum (f : ImageData) (p : nat) (s : Z) :
  rgbSum f p = Some s -> 0 <= s < 1024 /\ gray (data f) (4 * p) = (js_of_Z s / 3)%float.
Proof.
  unfold rgbSum, gray, channel, js_of_byte.
  destruct (nth_error (data f) (4 * p)) as [r|]; [|discriminate].
  destruct (nth_error (data f) (4 * p + 1)) as [g|]; [|discriminate].
  destruct (nth_error (data f) (4 * p + 2)) as [b|]; [|discriminate].
  intros [= <-].
  pose proof (byte_range r). pose proof (byte_range g). pose proof (byte_range b).
  split; [lia|].
  rewrite add_exact by lia. rewrite add_exact by lia. reflexivity.
Qed.

(** The exact tests in terms of the sums: the delta exceeds 30 when the sums
    differ by more than 90, and is 30 when they differ by 90. *)
Lemma exact_tests (f1 f2 : ImageData) (p : nat) (s1 s2 : Z) :
  rgbSum f1 p = Some s1 -> rgbSum f2 p = Some s2 ->
  pixelChanged f1 f2 p = (90 <? Z.abs (s1 - s2)) /\
  atThreshold f1 f2 p = (Z.abs (s1 - s2) =? 90).
Proof.
  intros E1 E2. unfold pixelChanged, atThreshold, luminanceDelta, luminance.
  rewrite E1, E2.
  unfold QArith_base.Qle_bool, QArith_base.Qeq_bool, QArith_base.Qminus,
    QArith_base.Qplus, QArith_base.Qopp, Qabs.Qabs.
  cbn [QArith_base.Qnum QArith_base.Qden]. split.
  - destruct (Z.leb_spec (Z.abs (s1 * Z.pos 3 + - s2 * Z.pos 3) * 1) (30 * Z.pos (3 * 3))),
      (Z.ltb_spec 90 (Z.abs (s1 - s2))); cbn; try reflexivity; lia.
  - destruct (Z.eqb_spec (Z.abs (s1 * Z.pos 3 + - s2 * Z.pos 3) * 1) (30 * Z.pos (3 * 3))),
      (Z.eqb_spec (Z.abs (s1 - s2)) 90); try reflexivity; lia.
Qed.

(** On every pixel of two rasters that hold it, the test of the loop is
    [counted]. *)
Lemma loopTest_counted (f1 f2 : ImageData) (p : nat) (s1 s2 : Z) :
  rgbSum f1 p = Some s1 -> rgbSum f2 p = Some s2 ->
  loopTest f1 f2 p = counted f1 f2 p.
Proof.
  intros E1 E2. destruct (exact_tests f1 f2 p s1 s2 E1 E2) as [Hc Ht].
  unfold counted, roundsApart. rewrite Hc, Ht, E1, E2.
  apply gray_rgbSum in E1 as [R1 L1]. apply gray_rgbSum in E2 as [R2 L2].
  unfold loopTest, threshold. rewrite L1, L2. fold (thirdsDiffer s1 s2).
  destruct (Z.eqb_spec (Z.abs (s1 - s2)) 90) as [He|Hne].
  - rewrite He. cbn. reflexivity.
  - rewrite (thirdsDiffer_exact s1 s2 R1 R2 Hne), andb_false_l, orb_false_r. reflexivity.
Qed.

(** A raster that lacks one of the three bytes gives [undefined] there: the
    sum is NaN and the test fails, whatever the other raster holds. *)
Definition isNaN (x : float) : Prop := Prim2SF x = S754_nan.

Lemma add_NaN_l (x y : float) : isNaN x -> isNaN (x + y).
Proof.
  unfold isNaN. intros H. rewrite FloatAxioms.add_spec, H. reflexivity.
Qed.

Lemma add_NaN_r (x y : float) : isNaN y -> isNaN (x + y).
Proof.
  unfold isNaN. intros H. rewrite FloatAxioms.add_spec, H.
  destruct (Prim2SF x); reflexivity.
Qed.

Lemma div_NaN_l (x y : float) : isNaN x -> isNaN (x / y).
Proof.
  unfold isNaN. intros H. rewrite FloatAxioms.div_spec, H. reflexivity.
Qed.

Lemma sub_NaN_l (x y : float) : isNaN x -> isNaN (x - y).
Proof.
  unfold isNaN. intros H. rewrite FloatAxioms.sub_spec, H. reflexivity.
Qed.

Lemma sub_NaN_r (x y : float) : isNaN y -> isNaN (x - y).
Proof.
  unfold isNaN. intros H. rewrite FloatAxioms.sub_spec, H.
  destruct (Prim2SF x); reflexivity.
Qed.

Lemma NaN_exceeds_nothing (x t : float) : isNaN x -> js_gt (PrimFloat.abs x) t = false.
Proof.
  unfold isNaN, js_gt. intros H.
  rewrite FloatAxioms.ltb_spec, FloatAxioms.abs_spec, H. unfold SFltb.
  destruct (Prim2SF t); reflexivity.
Qed.

Lemma gray_undefined (f : ImageData) (p : nat) :
  rgbSum f p = None -> isNaN (gray (data f) (4 * p)).
Proof.
  unfold rgbSum, gray, channel.
  destruct (nth_error (data f) (4 * p)) as [r|];
    [|intros _; apply div_NaN_l, add_NaN_l, add_NaN_l; reflexivity].
  destruct (nth_error (data f) (4 * p + 1)) as [g|];
    [|intros _; apply div_NaN_l, add_NaN_l, add_NaN_r; reflexivity].
  destruct (nth_error (data f) (4 * p + 2)) as [b|]; [discriminate|].
  intros _. apply div_NaN_l, add_NaN_r. reflexivity.
Qed.

Lemma loopTest_is_counted (f1 f2 : ImageData) (p : nat) :
  loopTest f1 f2 p = counted f1 f2 p.
Proof.
  destruct (rgbSum f1 p) as [s1|] eqn:E1; [destruct (rgbSum f2 p) as [s2|] eqn:E2|].
  - exact (loopTest_counted f1 f2 p s1 s2 E1 E2).
  - unfold loopTest. rewrite (NaN_exceeds_nothing _ _ (sub_NaN_r _ _ (gray_undefined f2 p E2))).
    unfold counted, pixelChanged, atThreshold, luminanceDelta, luminance.
    rewrite E1, E2. reflexivity.
  - unfold loopTest. rewrite (NaN_exceeds_nothing _ _ (sub_NaN_l _ _ (gray_undefined f1 p E1))).
    unfold counted, pixelChanged, atThreshold, luminanceDelta, luminance.
    rewrite E1. reflexivity.
Qed.

Lemma loop_counts (f1 f2 : ImageData) :
  well_formed f1 ->
  countChanged (length (data f1)) (data f1) (data f2) 0 0 = countedPixelCount f1 f2.
Proof.
  intros W1. rewrite (countChanged_total f1 f2 W1). unfold countedPixelCount.
  f_equal. apply filter_ext. intros p. apply loopTest_is_counted.
Qed.

Lemma counted_between (a b c : nat -> bool) (l : list nat) :
  (length (filter a l) <= length (filter (fun p => a p || (b p && c p)) l)
   <= length (filter a l) + length (filter b l))%nat.
Proof.
  induction l as [|x l IH]; [cbn; lia|].
  cbn [filter]. destruct (a x), (b x), (c x); cbn [orb andb length]; lia.
Qed.

(** C4, as the code has it.  Frames that differ in width or in height score
    exactly 1.  For two frames of equal dimensions the score is the number
    of counted pixels divided by the number of pixels; the source takes the
    latter as [data.length / 4], which is [width * height] without rounding
    for every frame below [max_pixels].  A pixel whose luminances (the exact
    averages of the three colour intensities) differ by strictly more than
    30 is counted, one whose luminances differ by less than 30 is not, and
    one whose luminances differ by exactly 30 is counted when the two
    averages rounded to binary64 are more than 30 apart: the count lies
    between the number of pixels above the threshold and that number plus
    the number of pixels at it, and is the former when no pixel is at the
    threshold. *)
Theorem calculateMotion_spec (f1 f2 : ImageData) :
  (~ sameDimensions f1 f2 -> calculateMotion f1 f2 = 1%float) /\
  (sameDimensions f1 f2 -> well_formed f1 ->
   calculateMotion f1 f2 =
   (js_of_nat (countedPixelCount f1 f2) / (js_of_nat (4 * totalPixelCount f1) / 4))%float /\
   (Z.of_nat (totalPixelCount f1) < max_pixels ->
    calculateMotion f1 f2 =
    (js_of_nat (countedPixelCount f1 f2) / js_of_nat (totalPixelCount f1))%float) /\
   (changedPixelCount f1 f2 <= countedPixelCount f1 f2
    <= changedPixelCount f1 f2 + atThresholdCount f1 f2)%nat /\
   (atThresholdCount f1 f2 = 0%nat -> countedPixelCount f1 f2 = changedPixelCount f1 f2)).
Proof.
  unfold calculateMotion. split.
  - intros Hd. apply dimensions_differ in Hd. rewrite Hd. reflexivity.
  - intros Hs W1.
    pose proof (counted_between (pixelChanged f1 f2) (atThreshold f1 f2) (roundsApart f1 f2)
                  (seq 0 (totalPixelCount f1))) as Hb.
    fold (changedPixelCount f1 f2) (atThresholdCount f1 f2) in Hb.
    change (length (filter (fun p => pixelChanged f1 f2 p
                                     || (atThreshold f1 f2 p && roundsApart f1 f2 p))
                           (seq 0 (totalPixelCount f1))))
      with (countedPixelCount f1 f2) in Hb.
    destruct (negb (width f1 =? width f2)%nat || negb (height f1 =? height f2)%nat) eqn:E.
    + apply dimensions_differ in E. contradiction.
    + cbv zeta. rewrite (loop_counts f1 f2 W1).
      rewrite W1. fold (totalPixelCount f1). split; [reflexivity|].
      split; [intros Hsize; rewrite (div4_exact _ Hsize); reflexivity|].
      split; [exact Hb | lia].
Qed.

(** [frameA] and [frameD]: the first pixel has sums 7 and 98, a delta above
    30; the second is the same in both. *)
Lemma calculateMotion_spec_witness :
  (~ sameDimensions frameA frameC /\ calculateMotion frameA frameC = 1%float) /\
  (sameDimensions frameA frameD /\ well_formed frameA /\
   Z.of_nat (totalPixelCount frameA) < max_pixels /\
   atThresholdCount frameA frameD = 0%nat /\
   calculateMotion frameA frameD =
   (js_of_nat (countedPixelCount frameA frameD) / js_of_nat (totalPixelCount frameA))%float /\
   countedPixelCount frameA frameD = changedPixelCount frameA frameD).
Proof.
  assert (Hd : ~ sameDimensions frameA frameC) by (intros [H _]; discriminate H).
  assert (Hs : sameDimensions frameA frameD) by (split; reflexivity).
  assert (Hwf : well_formed frameA) by reflexivity.
  assert (Hsz : Z.of_nat (totalPixelCount frameA) < max_pixels) by reflexivity.
  assert (Hz : atThresholdCount frameA frameD = 0%nat) by reflexivity.
  split.
  - split; [exact Hd | exact (proj1 (calculateMotion_spec frameA frameC) Hd)].
  - destruct (proj2 (calculateMotion_spec frameA frameD) Hs Hwf) as (_ & H2 & _ & H4).
    split; [exact Hs | split; [exact Hwf | split; [exact Hsz |]]].
    split; [exact Hz | split; [exact (H2 Hsz) | exact (H4 Hz)]].
Defined.

(** The claim as stated fails at a delta of exactly 30.  The first pixel of
    [frameA] has luminance 7/3 and that of [frameB] 97/3: the delta is 30,
    not more, and the second pixel is the same in both, so no pixel changed
    and the score should be 0.  The source computes 0.5: the binary64
    values of 7/3 and 97/3 are more than 30 apart. *)
Lemma boundary_pixel_counted :
  width frameA = width frameB /\ height frameA = height frameB /\
  luminance frameA 0 = Some (QArith_base.Qmake 7 3) /\
  luminance frameB 0 = Some (QArith_base.Qmake 97 3) /\
  atThreshold frameA frameB 0 = true /\
  changedPixelCount frameA frameB = 0%nat /\
  totalPixelCount frameA = 2%nat /\
  calculateMotion frameA frameB = 0.5%float /\
  PrimFloat.eqb (calculateMotion frameA frameB)
    (js_of_nat (changedPixelCount frameA frameB) / js_of_nat (totalPixelCount frameA))
  = false.
Proof. repeat split; vm_compute; reflexivity. Qed.

(** The rounding does not always go that way: sums 0 and 90 are also at a
    delta of exactly 30, and that pixel is not counted. *)
Example boundary_pixel_not_counted :
  thirdsDiffer 7 97 = true /\ thirdsDiffer 0 90 = false.
Proof. split; vm_compute; reflexivity. Qed.

End MotionScore.

(** ** Properties of the frame buffer *)

Module FrameBufferFacts.
Import JsNum FrameBuffer.

(** The record an accepted push stores. *)
Definition frameOf (now : Z) (snap : Snapshot) : FrameData :=
  {| base64 := snap_base64 snap; imageData := snap_image snap; timestamp := now |}.

(** The window never outgrows its capacity. *)
Definition bounded (fb : t) : Prop := (length (buffer fb) <= maxFrames fb)%nat.

Lemma last_frame_app (b : list FrameData) (x : FrameData) :
  last_frame (b ++ [x]) = Some x.
Proof.
  unfold last_frame. rewrite length_app. cbn [length].
  replace (length b + 1 - 1)%nat with (length b) by lia.
  rewrite nth_error_app2 by lia. rewrite Nat.sub_diag. reflexivity.
Qed.

Lemma last_frame_nil_iff (b : list FrameData) : last_frame b = None <-> b = [].
Proof.
  split.
  - intros H. apply nth_error_None in H. destruct b; [reflexivity | cbn in H; lia].
  - intros ->. reflexivity.
Qed.

Lemma last_frame_repeat (b : list FrameData) (x : FrameData) (k : nat) :
  last_frame b = Some x -> last_frame (b ++ repeat x k) = Some x.
Proof.
  intros H. induction k as [|k IH].
  - cbn. rewrite app_nil_r. exact H.
  - replace (repeat x (S k)) with (repeat x k ++ [x]).
    + rewrite app_assoc. apply last_frame_app.
    + clear. induction k; cbn; [reflexivity | f_equal; exact IHk].
Qed.

Lemma addFrame_throttled (now : Z) (ctx : option Snapshot) (fb : t) :
  now - lastCaptureTime fb < frameInterval fb ->
  addFrame now ctx fb = (fb, Return false).
Proof.
  intros H. unfold addFrame.
  destruct (Z.ltb_spec (now - lastCaptureTime fb) (frameInterval fb)); [reflexivity | lia].
Qed.

Lemma addFrame_accepted (now : Z) (snap : Snapshot) (fb : t) :
  accepted now (Some snap) fb = true ->
  let motionSeen :=
    match last_frame (buffer fb) with
    | Some lastFrame =>
        js_gt (calculateMotion (imageData lastFrame) (snap_image snap)) (motionThreshold fb)
        || hasSignificantMotion fb
    | None => hasSignificantMotion fb
    end in
  let kept := keepLast (maxFrames fb) (buffer fb ++ [frameOf now snap]) in
  addFrame now (Some snap) fb =
  ({| buffer := kept; maxFrames := maxFrames fb; frameInterval := frameInterval fb;
      motionThreshold := motionThreshold fb; lastCaptureTime := now;
      hasSignificantMotion := motionSeen |},
   Return ((maxFrames fb <=? length kept)%nat && motionSeen)).
Proof.
  unfold accepted, addFrame. rewrite andb_true_r. intros H.
  apply negb_true_iff in H. rewrite H. cbv zeta.
  unfold motionCheck, frameOf. cbn [buffer motionThreshold hasSignificantMotion maxFrames].
  destruct (last_frame (buffer fb)) as [lastFrame|]; [|reflexivity].
  destruct (js_gt _ _); reflexivity.
Qed.

Lemma keepLast_length (n : nat) (b : list FrameData) (x : FrameData) :
  (length b <= n)%nat -> (length (keepLast n (b ++ [x])) <= n)%nat.
Proof.
  intros H. unfold keepLast. rewrite length_app. cbn [length].
  destruct (Nat.ltb_spec n (length b + 1)) as [Hlt|Hge].
  - destruct b as [|y b]; cbn in *; [lia|]. rewrite length_app. cbn. lia.
  - rewrite length_app. cbn. lia.
Qed.

Lemma getFrames_buffer (fb : t) :
  buffer (fst (getFrames fb)) =
  match last_frame (buffer fb) with
  | Some lastFrame => buffer fb ++ repeat lastFrame (maxFrames fb - length (buffer fb))
  | None => buffer fb
  end.
Proof.
  unfold getFrames. cbn [fst buffer].
  destruct (last_frame (buffer fb)) as [lastFrame|] eqn:E.
  - destruct (Nat.ltb_spec (length (buffer fb)) (maxFrames fb)) as [Hlt|Hge]; cbn [andb].
    + destruct (Nat.ltb_spec 0 (length (buffer fb))) as [Hpos|Hz]; [reflexivity|].
      assert (Hnil : buffer fb = []) by (destruct (buffer fb); [reflexivity | cbn in Hz; lia]).
      rewrite Hnil in E. discriminate E.
    + replace (maxFrames fb - length (buffer fb))%nat with 0%nat by lia.
      cbn. rewrite app_nil_r. reflexivity.
  - destruct (_ && _); reflexivity.
Qed.

Lemma getFrames_frames (fb : t) :
  snd (getFrames fb) = map base64 (buffer (fst (getFrames fb))).
Proof. reflexivity. Qed.

Lemma exec_maxFrames (c : call) (fb : t) : maxFrames (fst (exec c fb)) = maxFrames fb.
Proof.
  destruct c as [now ctx| | | | |]; cbn; try reflexivity.
  unfold addFrame. destruct (_ <? _); [reflexivity|]. destruct ctx; reflexivity.
Qed.

Lemma exec_bounded (c : call) (fb : t) : bounded fb -> bounded (fst (exec c fb)).
Proof.
  unfold bounded. intros H. rewrite exec_maxFrames.
  destruct c as [now ctx| | | | |]; cbn; try assumption; try lia.
  - unfold addFrame. destruct (_ <? _); [exact H|].
    destruct ctx as [snap|]; cbn; [|exact H].
    apply keepLast_length. exact H.
  - change (length (buffer (fst (getFrames fb))) <= maxFrames fb)%nat.
    rewrite getFrames_buffer. destruct (last_frame (buffer fb)); [|exact H].
    rewrite length_app, repeat_length. lia.
Qed.

Lemma run_cons (c : call) (cs : list call) (fb : t) :
  run (c :: cs) fb =
  (fst (run cs (fst (exec c fb))), snd (exec c fb) :: snd (run cs (fst (exec c fb)))).
Proof.
  cbn [run]. destruct (exec c fb) as [fb1 r]. cbn [fst snd].
  destruct (run cs fb1) as [fb2 rs]. reflexivity.
Qed.

Lemma run_app (cs1 cs2 : list call) (fb : t) :
  run (cs1 ++ cs2) fb =
  (fst (run cs2 (fst (run cs1 fb))), snd (run cs1 fb) ++ snd (run cs2 (fst (run cs1 fb)))).
Proof.
  revert fb. induction cs1 as [|c cs1 IH]; intros fb.
  - cbn [app run fst snd]. destruct (run cs2 fb); reflexivity.
  - rewrite <- app_comm_cons, !run_cons, IH. reflexivity.
Qed.

Lemma run_bounded (cs : list call) (fb : t) : bounded fb -> bounded (fst (run cs fb)).
Proof.
  revert fb. induction cs as [|c cs IH]; intros fb H; [exact H|].
  rewrite run_cons. cbn [fst]. apply IH, exec_bounded, H.
Qed.

Lemma constructor_bounded (n : nat) (iv : Z) (thr : float) : bounded (constructor n iv thr).
Proof. unfold bounded. cbn. lia. Qed.

(** For a window within its capacity, "at least [maxFrames]" is "exactly". *)
Lemma isReady_iff (fb : t) :
  bounded fb ->
  (isReady fb = true <->
   length (buffer fb) = maxFrames fb /\ hasSignificantMotion fb = true).
Proof.
  unfold bounded, isReady. intros H. rewrite andb_true_iff, Nat.leb_le. intuition lia.
Qed.

(** A call that does not exceed the threshold leaves a clear flag clear. *)
Lemma exec_static (c : call) (fb : t) :
  hasSignificantMotion fb = false -> exceedsThreshold c fb = false ->
  hasSignificantMotion (fst (exec c fb)) = false.
Proof.
  intros Hf Hs. destruct c as [now ctx| | | | |]; cbn; try assumption; try reflexivity.
  destruct (accepted now ctx fb) eqn:Ha.
  - destruct ctx as [snap|]; [|unfold accepted in Ha; rewrite andb_false_r in Ha; discriminate].
    rewrite (addFrame_accepted now snap fb Ha). cbn [fst hasSignificantMotion].
    cbn [exceedsThreshold] in Hs. rewrite Ha in Hs. cbn [andb] in Hs.
    destruct (last_frame (buffer fb)); [rewrite Hs|]; rewrite Hf; reflexivity.
  - unfold accepted in Ha. unfold addFrame.
    destruct (now - lastCaptureTime fb <? frameInterval fb); [exact Hf|].
    destruct ctx; [discriminate Ha | exact Hf].
Qed.

Lemma staticScene_app (cs1 cs2 : list call) (fb : t) :
  staticScene (cs1 ++ cs2) fb = staticScene cs1 fb && staticScene cs2 (fst (run cs1 fb)).
Proof.
  revert fb. induction cs1 as [|c cs1 IH]; intros fb; [reflexivity|].
  rewrite <- app_comm_cons. cbn [staticScene]. rewrite IH, run_cons. cbn [fst].
  rewrite andb_assoc. reflexivity.
Qed.

Lemma staticScene_flag (cs : list call) (fb : t) :
  hasSignificantMotion fb = false -> staticScene cs fb = true ->
  hasSignificantMotion (fst (run cs fb)) = false.
Proof.
  revert fb. induction cs as [|c cs IH]; intros fb Hf Hs; [exact Hf|].
  cbn [staticScene] in Hs. apply andb_true_iff in Hs as [Hc Hs].
  apply negb_true_iff in Hc. rewrite run_cons. cbn [fst].
  apply IH; [apply exec_static; assumption | exact Hs].
Qed.

(** A reply that tells the caller to start an inference. *)
Definition signalsReady (r : reply) : bool :=
  match r with
  | RBool (Return true) => true
  | _ => false
  end.

Lemma static_replies (cs : list call) (fb : t) :
  hasSignificantMotion fb = false -> staticScene cs fb = true ->
  existsb signalsReady (snd (run cs fb)) = false.
Proof.
  revert fb. induction cs as [|c cs IH]; intros fb Hf Hs; [reflexivity|].
  cbn [staticScene] in Hs. apply andb_true_iff in Hs as [Hc Hs].
  apply negb_true_iff in Hc.
  pose proof (exec_static c fb Hf Hc) as Hf'.
  rewrite run_cons. cbn [snd existsb]. rewrite (IH _ Hf' Hs), orb_false_r.
  destruct c as [now ctx| | | | |]; cbn in Hf' |- *; try reflexivity.
  - destruct (accepted now ctx fb) eqn:Ha.
    + destruct ctx as [snap|]; [|unfold accepted in Ha; rewrite andb_false_r in Ha; discriminate].
      rewrite (addFrame_accepted now snap fb Ha) in Hf' |- *.
      cbn [fst snd hasSignificantMotion] in Hf' |- *. rewrite Hf', andb_false_r. reflexivity.
    + unfold accepted in Ha. unfold addFrame.
      destruct (now - lastCaptureTime fb <? frameInterval fb); [reflexivity|].
      destruct ctx; [discriminate Ha | reflexivity].
  - unfold isReady. rewrite Hf, andb_false_r. reflexivity.
Qed.

(** *** An unchanging picture *)

(** Every push of the call hands over the raster [img]. *)
Definition showsImage (img : ImageData) (c : call) : Prop :=
  match c with
  | AddFrame _ (Some snap) => snap_image snap = img
  | _ => True
  end.

Definition holdsImage (img : ImageData) (fb : t) : Prop :=
  Forall (fun f => imageData f = img) (buffer fb).

Lemma last_frame_In (b : list FrameData) (x : FrameData) : last_frame b = Some x -> In x b.
Proof. unfold last_frame. apply nth_error_In. Qed.

Lemma exec_motionThreshold (c : call) (fb : t) :
  motionThreshold (fst (exec c fb)) = motionThreshold fb.
Proof.
  destruct c as [now ctx| | | | |]; cbn; try reflexivity.
  unfold addFrame. destruct (_ <? _); [reflexivity|]. destruct ctx; reflexivity.
Qed.

Lemma exec_holdsImage (img : ImageData) (c : call) (fb : t) :
  showsImage img c -> holdsImage img fb -> holdsImage img (fst (exec c fb)).
Proof.
  unfold holdsImage. intros Hc Hb.
  destruct c as [now ctx| | | | |]; cbn; try assumption; try constructor.
  - unfold addFrame. destruct (_ <? _); [exact Hb|].
    destruct ctx as [snap|]; cbn; [|exact Hb]. cbn in Hc.
    assert (Hp : Forall (fun f => imageData f = img)
                   (buffer fb ++ [{| base64 := snap_base64 snap;
                                     imageData := snap_image snap; timestamp := now |}]))
      by (apply Forall_app; split; [exact Hb | repeat constructor; exact Hc]).
    unfold keepLast. destruct (_ <? _)%nat; [|exact Hp].
    destruct (buffer fb ++ _) as [|y rest]; [constructor | inversion Hp; assumption].
  - change (Forall (fun f => imageData f = img) (buffer (fst (getFrames fb)))).
    rewrite getFrames_buffer. destruct (last_frame (buffer fb)) as [lastFrame|] eqn:E; [|exact Hb].
    apply Forall_app. split; [exact Hb|].
    apply Forall_forall. intros x Hx. apply repeat_spec in Hx. subst x.
    apply last_frame_In in E. rewrite Forall_forall in Hb. apply Hb, E.
Qed.

Lemma exec_unchanging (img : ImageData) (c : call) (fb : t) :
  PrimFloat.leb 0 (motionThreshold fb) = true ->
  showsImage img c -> holdsImage img fb -> exceedsThreshold c fb = false.
Proof.
  intros Hthr Hc Hb. destruct c as [now [snap|]| | | | |]; try reflexivity.
  cbn [exceedsThreshold]. destruct (accepted now (Some snap) fb); [cbn [andb]|reflexivity].
  destruct (last_frame (buffer fb)) as [lastFrame|] eqn:E; [|reflexivity].
  apply last_frame_In in E. unfold holdsImage in Hb. rewrite Forall_forall in Hb.
  cbn in Hc. rewrite (Hb _ E), Hc. apply MotionScore.calculateMotion_same, Hthr.
Qed.

Lemma unchanging_static (img : ImageData) (cs : list call) : forall fb : t,
  PrimFloat.leb 0 (motionThreshold fb) = true ->
  Forall (showsImage img) cs -> holdsImage img fb -> staticScene cs fb = true.
Proof.
  induction cs as [|c cs IH]; intros fb Hthr Hcs Hb; [reflexivity|].
  inversion Hcs as [|c' cs' Hc Hcs']; subst. cbn [staticScene].
  rewrite (exec_unchanging img c fb Hthr Hc Hb). cbn [negb andb].
  apply IH; [rewrite exec_motionThreshold; exact Hthr | exact Hcs' |].
  apply exec_holdsImage; assumption.
Qed.

(** C1. After any sequence of calls on a fresh buffer, an accepted push
    returns what [isReady] then returns, and that is [true] exactly when the
    window holds [maxFrames] frames and the motion flag is set.  If no
    accepted push of the whole run exceeds the motion threshold (a static
    scene), no call of the run answers [true], however long the run; this
    is the case whenever all pushes hand over one and the same raster and
    the threshold is not negative. *)
Theorem addFrame_ready_iff (n : nat) (iv : Z) (thr : float) (cs : list call)
    (now : Z) (snap : Snapshot) :
  let fb := fst (run cs (constructor n iv thr)) in
  let fb' := fst (addFrame now (Some snap) fb) in
  let all := cs ++ [AddFrame now (Some snap)] in
  accepted now (Some snap) fb = true ->
  snd (addFrame now (Some snap) fb) = Return (isReady fb') /\
  (isReady fb' = true <->
   length (buffer fb') = maxFrames fb' /\ hasSignificantMotion fb' = true) /\
  (staticScene all (constructor n iv thr) = true ->
   existsb signalsReady (snd (run all (constructor n iv thr))) = false) /\
  (PrimFloat.leb 0 thr = true -> Forall (showsImage (snap_image snap)) all ->
   existsb signalsReady (snd (run all (constructor n iv thr))) = false).
Proof.
  intros fb fb' all Ha. split; [|split; [|split]].
  - subst fb'. rewrite (addFrame_accepted now snap fb Ha). reflexivity.
  - apply isReady_iff.
    pose proof (exec_bounded (AddFrame now (Some snap)) fb
                  (run_bounded cs _ (constructor_bounded n iv thr))) as Hb.
    cbn [exec] in Hb. subst fb'.
    destruct (addFrame now (Some snap) fb) as [x r]. exact Hb.
  - intros Hs. apply static_replies; [reflexivity | exact Hs].
  - intros Hthr Hall. apply static_replies; [reflexivity|].
    apply (unchanging_static (snap_image snap)); [exact Hthr | exact Hall | constructor].
Qed.

(** A 5-pixel frame, the same frame with its first pixel lit (one pixel in
    five changes, 20%), and their snapshots. *)
Definition darkFrame : ImageData :=
  {| width := 5; height := 1;
     data := [x00; x00; x00; xff; x00; x00; x00; xff; x00; x00; x00; xff;
              x00; x00; x00; xff; x00; x00; x00; xff] |}.
Definition litFrame : ImageData :=
  {| width := 5; height := 1;
     data := [xc8; xc8; xc8; xff; x00; x00; x00; xff; x00; x00; x00; xff;
              x00; x00; x00; xff; x00; x00; x00; xff] |}.
Definition dark : Snapshot := {| snap_base64 := "dark"; snap_image := darkFrame |}.
Definition lit : Snapshot := {| snap_base64 := "lit"; snap_image := litFrame |}.

(** Nine accepted pushes of the dark frame, 200 ms apart. *)
Definition stillCalls : list call :=
  map (fun k => AddFrame (200 * Z.of_nat k) (Some dark)) (seq 1 9).

Lemma addFrame_ready_iff_witness :
  accepted 2000 (Some dark) (fst (run stillCalls default)) = true /\
  snd (addFrame 2000 (Some dark) (fst (run stillCalls default))) = Return false /\
  existsb signalsReady (snd (run (stillCalls ++ [AddFrame 2000 (Some dark)]) default)) = false.
Proof.
  assert (Ha : accepted 2000 (Some dark) (fst (run stillCalls default)) = true)
    by (vm_compute; reflexivity).
  destruct (addFrame_ready_iff 8 200 default_motionThreshold stillCalls 2000 dark Ha)
    as (H1 & _ & _ & H4).
  split; [exact Ha | split].
  - refine (eq_trans H1 _). vm_compute. reflexivity.
  - apply H4; [reflexivity|]. unfold stillCalls. repeat constructor.
Defined.

(** The scenario of eight pushes of which the fifth differs in 20% of the
    pixels: ready from the eighth push on, until the flag is reset. *)
Example motion_at_fifth_push :
  snd (run [AddFrame 200 (Some dark); AddFrame 400 (Some dark); AddFrame 600 (Some dark);
            AddFrame 800 (Some dark); AddFrame 1000 (Some lit); AddFrame 1200 (Some lit);
            AddFrame 1400 (Some lit); AddFrame 1600 (Some lit); AddFrame 1800 (Some lit);
            AddFrame 1900 (Some dark); ResetMotionFlag; AddFrame 2000 (Some lit)] default) =
  [RBool (Return false); RBool (Return false); RBool (Return false); RBool (Return false);
   RBool (Return false); RBool (Return false); RBool (Return false); RBool (Return true);
   RBool (Return true); RBool (Return false); RVoid; RBool (Return false)].
Proof. vm_compute. reflexivity. Qed.

(** *** The motion flag *)

(** The two calls that clear the flag. *)
Definition clearsFlag (c : call) : bool :=
  match c with
  | ResetMotionFlag | Clear => true
  | _ => false
  end.

Lemma exec_keeps_flag (c : call) (fb : t) :
  hasSignificantMotion fb = true -> clearsFlag c = false ->
  hasSignificantMotion (fst (exec c fb)) = true.
Proof.
  intros Hf Hc. destruct c as [now ctx| | | | |]; cbn in Hc |- *;
    try assumption; try discriminate.
  unfold addFrame. destruct (_ <? _); [exact Hf|].
  destruct ctx as [snap|]; cbn; [|exact Hf].
  unfold motionCheck. cbn [buffer hasSignificantMotion motionThreshold].
  destruct (last_frame (buffer fb)); [|exact Hf].
  destruct (js_gt _ _); [reflexivity | exact Hf].
Qed.

Lemma run_keeps_flag (cs : list call) (fb : t) :
  hasSignificantMotion fb = true -> existsb clearsFlag cs = false ->
  hasSignificantMotion (fst (run cs fb)) = true.
Proof.
  revert fb. induction cs as [|c cs IH]; intros fb Hf Hc; [exact Hf|].
  cbn [existsb] in Hc. apply orb_false_iff in Hc as [Hc Hcs].
  rewrite run_cons. cbn [fst]. apply IH; [apply exec_keeps_flag; assumption | exact Hcs].
Qed.

(** C5. An accepted push whose motion score against the last stored frame
    exceeds the threshold (0.15 by default) sets the motion flag; once set,
    the flag survives every sequence of calls that contains neither
    [resetMotionFlag] nor [clear], whatever the later frames show; and while
    it is set, every accepted push into a full window answers [true].  Only
    [resetMotionFlag] and [clear] clear it. *)
Theorem motionSeen_monotone (fb : t) :
  motionThreshold default = 0x1.3333333333333p-3%float /\
  (forall now snap lastFrame,
     accepted now (Some snap) fb = true ->
     last_frame (buffer fb) = Some lastFrame ->
     js_gt (calculateMotion (imageData lastFrame) (snap_image snap)) (motionThreshold fb) = true ->
     hasSignificantMotion (fst (addFrame now (Some snap) fb)) = true) /\
  (forall cs,
     hasSignificantMotion fb = true -> existsb clearsFlag cs = false ->
     hasSignificantMotion (fst (run cs fb)) = true) /\
  (forall now snap,
     hasSignificantMotion fb = true -> (maxFrames fb <= length (buffer fb))%nat ->
     accepted now (Some snap) fb = true ->
     snd (addFrame now (Some snap) fb) = Return true) /\
  hasSignificantMotion (resetMotionFlag fb) = false /\
  hasSignificantMotion (clear fb) = false.
Proof.
  split; [reflexivity|]. split; [|split; [|split; [|split; reflexivity]]].
  - intros now snap lastFrame Ha Hl Hm.
    rewrite (addFrame_accepted now snap fb Ha). cbn [fst hasSignificantMotion].
    rewrite Hl, Hm. reflexivity.
  - intros cs. apply run_keeps_flag.
  - intros now snap Hf Hfull Ha.
    rewrite (addFrame_accepted now snap fb Ha). cbn [snd]. rewrite Hf.
    assert (Hm : match last_frame (buffer fb) with
                 | Some lastFrame =>
                     js_gt (calculateMotion (imageData lastFrame) (snap_image snap))
                       (motionThreshold fb) || true
                 | None => true
                 end = true)
      by (destruct (last_frame (buffer fb)); [apply orb_true_r | reflexivity]).
    rewrite Hm, andb_true_r. f_equal. apply Nat.leb_le.
    unfold keepLast. rewrite length_app. cbn [length].
    destruct (Nat.ltb_spec (maxFrames fb) (length (buffer fb) + 1)) as [Hlt|Hge]; [|lia].
    destruct (buffer fb) as [|y b]; cbn in *; [lia|]. rewrite length_app. cbn. lia.
Qed.

(** Motion at the second push, stillness afterwards: the flag stays set and
    the eighth push is ready. *)
Definition movedOnce : t :=
  fst (run [AddFrame 200 (Some dark); AddFrame 400 (Some lit)] default).

Definition stillAfterwards : list call :=
  map (fun k => AddFrame (200 * Z.of_nat k) (Some lit)) (seq 3 5) ++ [GetFrames; IsReady].

Lemma motionSeen_monotone_witness :
  hasSignificantMotion movedOnce = true /\
  existsb clearsFlag stillAfterwards = false /\
  hasSignificantMotion (fst (run stillAfterwards movedOnce)) = true /\
  hasSignificantMotion (fst (addFrame 400 (Some lit) (fst (addFrame 200 (Some dark) default)))) = true.
Proof.
  assert (Hf : hasSignificantMotion movedOnce = true) by (vm_compute; reflexivity).
  assert (Hc : existsb clearsFlag stillAfterwards = false) by (vm_compute; reflexivity).
  split; [exact Hf | split; [exact Hc | split]].
  - exact (proj1 (proj2 (proj2 (motionSeen_monotone movedOnce))) stillAfterwards Hf Hc).
  - apply (proj1 (proj2 (motionSeen_monotone (fst (addFrame 200 (Some dark) default))))
             400 lit (frameOf 200 dark)); vm_compute; reflexivity.
Defined.

(** *** [getFrames] *)

(** C3 (as the code has it). In every state a fresh buffer can reach,
    [getFrames] of a non-empty window returns exactly [maxFrames] encoded
    frames: the stored ones, oldest first, followed by copies of the last
    one; of an empty window it returns the empty sequence. *)
Theorem getFrames_length (n : nat) (iv : Z) (thr : float) (cs : list call) :
  let fb := fst (run cs (constructor n iv thr)) in
  (buffer fb = [] -> snd (getFrames fb) = []) /\
  (forall lastFrame,
     last_frame (buffer fb) = Some lastFrame ->
     length (snd (getFrames fb)) = maxFrames fb /\
     snd (getFrames fb) =
     map base64 (buffer fb) ++
     repeat (base64 lastFrame) (maxFrames fb - length (buffer fb))).
Proof.
  intros fb. split.
  - intros Hnil. rewrite getFrames_frames, getFrames_buffer, Hnil. reflexivity.
  - intros lastFrame Hl.
    assert (Hb : bounded fb) by apply run_bounded, constructor_bounded.
    rewrite getFrames_frames, getFrames_buffer, Hl.
    rewrite map_app, map_repeat. split; [|reflexivity].
    rewrite length_app, length_map, repeat_length. unfold bounded in Hb. lia.
Qed.

Lemma getFrames_length_witness :
  last_frame (buffer (fst (run [AddFrame 200 (Some dark); AddFrame 400 (Some lit)] default)))
  = Some (frameOf 400 lit) /\
  snd (getFrames (fst (run [AddFrame 200 (Some dark); AddFrame 400 (Some lit)] default)))
  = ["dark"; "lit"; "lit"; "lit"; "lit"; "lit"; "lit"; "lit"]%string.
Proof.
  split; [reflexivity|].
  refine (eq_trans
    (proj2 (proj2 (getFrames_length 8 200 default_motionThreshold
                     [AddFrame 200 (Some dark); AddFrame 400 (Some lit)])
              (frameOf 400 lit) eq_refl)) _).
  reflexivity.
Defined.

(** The claim as stated fails on the empty window: nothing is returned
    although the capacity is 8. *)
Lemma getFrames_empty_default :
  buffer default = [] /\ snd (getFrames default) = [] /\
  length (snd (getFrames default)) = 0%nat /\ maxFrames default = 8%nat.
Proof. repeat split. Qed.

(** *** Padding is stored *)

(** A series of pushes, each with its clock reading and snapshot. *)
Definition pushCalls (ps : list (Z * Snapshot)) : list call :=
  map (fun p => AddFrame (fst p) (Some (snd p))) ps.

Fixpoint allAccepted (ps : list (Z * Snapshot)) (fb : t) : bool :=
  match ps with
  | [] => true
  | p :: ps' =>
      accepted (fst p) (Some (snd p)) fb &&
      allAccepted ps' (fst (addFrame (fst p) (Some (snd p)) fb))
  end.

Lemma addFrame_full (now : Z) (snap : Snapshot) (fb : t) :
  length (buffer fb) = maxFrames fb -> accepted now (Some snap) fb = true ->
  buffer (fst (addFrame now (Some snap) fb)) = skipn 1 (buffer fb ++ [frameOf now snap]) /\
  length (buffer (fst (addFrame now (Some snap) fb))) = maxFrames fb.
Proof.
  intros Hfull Ha. rewrite (addFrame_accepted now snap fb Ha). cbn [fst buffer].
  unfold keepLast. rewrite length_app. cbn [length].
  destruct (Nat.ltb_spec (maxFrames fb) (length (buffer fb) + 1)) as [Hlt|Hge]; [|lia].
  split; [reflexivity|].
  destruct (buffer fb) as [|y b]; cbn in *; [lia|]. rewrite length_app. cbn. lia.
Qed.

(** Pushes into a full window evict in arrival order, whatever the records. *)
Lemma pushes_full (ps : list (Z * Snapshot)) : forall fb : t,
  length (buffer fb) = maxFrames fb -> allAccepted ps fb = true ->
  buffer (fst (run (pushCalls ps) fb)) =
  skipn (length ps) (buffer fb ++ map (fun p => frameOf (fst p) (snd p)) ps).
Proof.
  induction ps as [|[now snap] ps IH]; intros fb Hfull Hacc.
  - cbn. rewrite app_nil_r. reflexivity.
  - cbn [allAccepted fst snd] in Hacc. apply andb_true_iff in Hacc as [Ha Hacc].
    destruct (addFrame_full now snap fb Hfull Ha) as [Hbuf Hlen].
    assert (E : fst (exec (AddFrame now (Some snap)) fb) = fst (addFrame now (Some snap) fb))
      by (cbn [exec]; destruct (addFrame now (Some snap) fb); reflexivity).
    assert (Hmax : maxFrames (fst (addFrame now (Some snap) fb)) = maxFrames fb)
      by (rewrite <- E; apply exec_maxFrames).
    change (pushCalls ((now, snap) :: ps)) with (AddFrame now (Some snap) :: pushCalls ps).
    rewrite run_cons. cbn [fst]. rewrite E.
    rewrite (IH _ (eq_trans Hlen (eq_sym Hmax)) Hacc), Hbuf.
    cbn [length map fst snd].
    replace (buffer fb ++ frameOf now snap :: map (fun p => frameOf (fst p) (snd p)) ps)
      with ((buffer fb ++ [frameOf now snap]) ++ map (fun p => frameOf (fst p) (snd p)) ps)
      by (rewrite <- app_assoc; reflexivity).
    replace (S (length ps)) with (length ps + 1)%nat by lia.
    rewrite <- skipn_skipn. f_equal.
    destruct (buffer fb); reflexivity.
Qed.

(** C10. [getFrames] on a window of between 1 and [maxFrames - 1] frames
    changes the buffer itself: copies of the last stored frame are appended
    until the stored window has [maxFrames] records, and these are the frames
    returned.  The next accepted push is therefore compared with that
    duplicated frame and evicts the oldest record, and further pushes evict
    the records in order, duplicates included.  On an empty buffer
    [getFrames] pads nothing, leaves the buffer as it is and returns the
    empty sequence. *)
Theorem getFrames_pads_in_place (fb : t) :
  (buffer fb = [] -> getFrames fb = (fb, [])) /\
  (forall lastFrame,
     last_frame (buffer fb) = Some lastFrame ->
     (length (buffer fb) < maxFrames fb)%nat ->
     let fb' := fst (getFrames fb) in
     buffer fb' = buffer fb ++ repeat lastFrame (maxFrames fb - length (buffer fb)) /\
     length (buffer fb') = maxFrames fb /\
     snd (getFrames fb) = map base64 (buffer fb') /\
     last_frame (buffer fb') = Some lastFrame /\
     hasSignificantMotion fb' = hasSignificantMotion fb /\
     (forall now snap,
        accepted now (Some snap) fb' = true ->
        hasSignificantMotion (fst (addFrame now (Some snap) fb')) =
        js_gt (calculateMotion (imageData lastFrame) (snap_image snap)) (motionThreshold fb)
        || hasSignificantMotion fb) /\
     (forall ps,
        allAccepted ps fb' = true ->
        buffer (fst (run (pushCalls ps) fb')) =
        skipn (length ps)
          (buffer fb ++ repeat lastFrame (maxFrames fb - length (buffer fb)) ++
           map (fun p => frameOf (fst p) (snd p)) ps))).
Proof.
  split.
  - intros Hnil. destruct fb as [b m i th l h]. cbn in Hnil. subst b.
    unfold getFrames. cbn. rewrite andb_false_r. reflexivity.
  - intros lastFrame Hl Hlt fb'.
    assert (Hbuf : buffer fb' = buffer fb ++ repeat lastFrame (maxFrames fb - length (buffer fb)))
      by (subst fb'; rewrite getFrames_buffer, Hl; reflexivity).
    assert (Hlen : length (buffer fb') = maxFrames fb)
      by (rewrite Hbuf, length_app, repeat_length; lia).
    assert (Hlast : last_frame (buffer fb') = Some lastFrame)
      by (rewrite Hbuf; apply last_frame_repeat, Hl).
    split; [exact Hbuf | split; [exact Hlen | split; [reflexivity | split; [exact Hlast|]]]].
    split; [reflexivity | split].
    + intros now snap Ha. rewrite (addFrame_accepted now snap fb' Ha).
      cbn [fst hasSignificantMotion]. rewrite Hlast. reflexivity.
    + intros ps Hacc. rewrite (pushes_full ps fb' Hlen Hacc), Hbuf, <- app_assoc. reflexivity.
Qed.

(** Two frames stored, [getFrames], then eight more pushes: the first two
    evict the stored frames, the next six the duplicates. *)
Definition twoStored : t :=
  fst (run [AddFrame 200 (Some dark); AddFrame 400 (Some lit)] default).

Definition eightMore : list (Z * Snapshot) :=
  map (fun k => (200 * Z.of_nat k, dark)) (seq 3 8).

Lemma getFrames_pads_in_place_witness :
  last_frame (buffer twoStored) = Some (frameOf 400 lit) /\
  (length (buffer twoStored) < maxFrames twoStored)%nat /\
  buffer (fst (getFrames twoStored)) =
    frameOf 200 dark :: repeat (frameOf 400 lit) 7 /\
  allAccepted eightMore (fst (getFrames twoStored)) = true /\
  buffer (fst (run (pushCalls eightMore) (fst (getFrames twoStored)))) =
    map (fun p => frameOf (fst p) (snd p)) eightMore.
Proof.
  assert (Hl : last_frame (buffer twoStored) = Some (frameOf 400 lit)) by reflexivity.
  assert (Hlt : (length (buffer twoStored) < maxFrames twoStored)%nat) by (vm_compute; lia).
  assert (Hacc : allAccepted eightMore (fst (getFrames twoStored)) = true)
    by (vm_compute; reflexivity).
  destruct (proj2 (getFrames_pads_in_place twoStored) (frameOf 400 lit) Hl Hlt)
    as (H1 & _ & _ & _ & _ & _ & H7).
  split; [exact Hl | split; [exact Hlt | split; [|split; [exact Hacc|]]]].
  - refine (eq_trans H1 _). reflexivity.
  - refine (eq_trans (H7 eightMore Hacc) _). reflexivity.
Defined.

End FrameBufferFacts.

(** ** The application page: [handleFrameCapture] *)

Module ApplicationPage.
Import JsNum.

(** [BackendPredictionResponse] / [PredictionResponse]: the label is
    ['High'] or ['Not High'] by its type and a string at run time. *)
Record PredictionResponse : Type := {
  prediction : string;
  confidence : float;
  message : string
}.

Record ConfidenceDataPoint : Type := {
  time : nat;
  confidencePercent : float;
  pointTimestamp : Z
}.

(** A value caught by [catch (err)]. *)
Inductive Thrown : Type :=
| ErrorObject (msg : string)
| OtherValue.

(** [err instanceof Error ? err.message : 'Prediction failed']. *)
Definition errorMessage (err : Thrown) : string :=
  match err with
  | ErrorObject msg => msg
  | OtherValue => "Prediction failed"%string
  end.

Record Video : Type := {
  videoWidth : nat;
  videoHeight : nat
}.

(** The component's state and refs that [handleFrameCapture] and the
    start/stop handlers touch ([currentPrediction] is the state variable
    [prediction]). *)
Record Page : Type := {
  isCameraActive : bool;
  currentPrediction : option PredictionResponse;
  isProcessing : bool;
  error : option string;
  audioTranscript : string;
  confidenceHistory : list ConfidenceDataPoint;
  videoDimensions : nat * nat;
  processingRef : bool;
  lastProcessTimeRef : Z;
  lastActionRef : option string;
  frameBufferRef : FrameBuffer.t;
  timeCounterRef : nat
}.

Definition FRAME_INTERVAL_MS : Z := 200.
Definition MAX_HISTORY_POINTS : nat := 50.

Definition set_isCameraActive (v : bool) (st : Page) : Page :=
  let '(Build_Page _ b c d e f g h i j k l) := st in Build_Page v b c d e f g h i j k l.
Definition set_currentPrediction (v : option PredictionResponse) (st : Page) : Page :=
  let '(Build_Page a _ c d e f g h i j k l) := st in Build_Page a v c d e f g h i j k l.
Definition set_isProcessing (v : bool) (st : Page) : Page :=
  let '(Build_Page a b _ d e f g h i j k l) := st in Build_Page a b v d e f g h i j k l.
Definition set_error (v : option string) (st : Page) : Page :=
  let '(Build_Page a b c _ e f g h i j k l) := st in Build_Page a b c v e f g h i j k l.
Definition set_audioTranscript (v : string) (st : Page) : Page :=
  let '(Build_Page a b c d _ f g h i j k l) := st in Build_Page a b c d v f g h i j k l.
Definition set_confidenceHistory (v : list ConfidenceDataPoint) (st : Page) : Page :=
  let '(Build_Page a b c d e _ g h i j k l) := st in Build_Page a b c d e v g h i j k l.
Definition set_videoDimensions (v : nat * nat) (st : Page) : Page :=
  let '(Build_Page a b c d e f _ h i j k l) := st in Build_Page a b c d e f v h i j k l.
Definition set_processingRef (v : bool) (st : Page) : Page :=
  let '(Build_Page a b c d e f g _ i j k l) := st in Build_Page a b c d e f g v i j k l.
Definition set_lastProcessTimeRef (v : Z) (st : Page) : Page :=
  let '(Build_Page a b c d e f g h _ j k l) := st in Build_Page a b c d e f g h v j k l.
Definition set_lastActionRef (v : option string) (st : Page) : Page :=
  let '(Build_Page a b c d e f g h i _ k l) := st in Build_Page a b c d e f g h i v k l.
Definition set_frameBufferRef (v : FrameBuffer.t) (st : Page) : Page :=
  let '(Build_Page a b c d e f g h i j _ l) := st in Build_Page a b c d e f g h i j v l.
Definition set_timeCounterRef (v : nat) (st : Page) : Page :=
  let '(Build_Page a b c d e f g h i j k _) := st in Build_Page a b c d e f g h i j k v.

(** The state of a freshly mounted page; the buffer is [new FrameBuffer(8, 200)]. *)
Definition mounted : Page :=
  {| isCameraActive := false;
     currentPrediction := None;
     isProcessing := false;
     error := None;
     audioTranscript := ""%string;
     confidenceHistory := [];
     videoDimensions := (640, 480)%nat;
     processingRef := false;
     lastProcessTimeRef := 0;
     lastActionRef := None;
     frameBufferRef := FrameBuffer.constructor 8 200 FrameBuffer.default_motionThreshold;
     timeCounterRef := 0 |}.

(** What the handler does to the world outside the component, in order,
    together with its writes to the in-flight guard [processingRef.current]. *)
Inductive Effect : Type :=
| SetProcessingRef (v : bool)
| PredictLive (frames : list string)
| SpeakActionFeedback (action : string) (conf : float) (msg : string)
| StopAudio
| ConsoleError (what : string).

(** Where a call of the [async] handler stands when it gives up control. *)
Inductive Suspension : Type :=
| Finished
| Failed (msg : string)
| AwaitingPrediction.

(** [lastActionRef.current !== result.prediction]. *)
Definition actionChanged (last : option string) (action : string) : bool :=
  match last with
  | Some a => negb (String.eqb a action)
  | None => true
  end.

(** [handleFrameCapture(video)] up to [await predictLive(frames)].  [now] is
    the handler's [Date.now()], [captureNow] the one [addFrame] reads, [ctx]
    the canvas snapshot of [video].  [closureActive] is the [isCameraActive]
    the callback closed over: [useCallback] rebuilds the callback when the
    state changes, but the capture loop of [CameraFeed] goes on calling the
    callback it was started with, so this is the value of the render that
    built the callback and not the page's current one.  The refs are shared
    by all the callbacks. *)
Definition handleFrameCapture (closureActive : bool) (video : Video) (now captureNow : Z)
    (ctx : option FrameBuffer.Snapshot) (st : Page) : Page * list Effect * Suspension :=
  if processingRef st || negb closureActive then (st, [], Finished)
  else
    let st1 :=
      if (0 <? videoWidth video)%nat && (0 <? videoHeight video)%nat
      then set_videoDimensions (videoWidth video, videoHeight video) st
      else st in
    if now - lastProcessTimeRef st1 <? FRAME_INTERVAL_MS then (st1, [], Finished)
    else
      let (fb1, bufferReady) := FrameBuffer.addFrame captureNow ctx (frameBufferRef st1) in
      let st2 := set_frameBufferRef fb1 st1 in
      match bufferReady with
      | Throw msg => (st2, [], Failed msg)
      | Return false => (st2, [], Finished)
      | Return true =>
          let st3 :=
            set_lastProcessTimeRef now (set_isProcessing true (set_processingRef true st2)) in
          let (fb2, frames) := FrameBuffer.getFrames (frameBufferRef st3) in
          (set_frameBufferRef fb2 st3,
           [SetProcessingRef true; PredictLive frames],
           AwaitingPrediction)
      end.

(** How the promise of [predictLive] settles. *)
Inductive Settled : Type :=
| Resolved (result : PredictionResponse)
| Rejected (err : Thrown).

(** [updated.slice(-n)]. *)
Definition lastN {A : Type} (n : nat) (l : list A) : list A := skipn (length l - n) l.

(** The rest of [handleFrameCapture], from the settling of [predictLive] to
    the end of the [finally] block; [now] is the [Date.now()] of the new
    history point. *)
Definition resumeFrameCapture (outcome : Settled) (now : Z) (st : Page) : Page * list Effect :=
  let '(st', effects) :=
    match outcome with
    | Resolved result =>
        let st1 := set_currentPrediction (Some result) st in
        let st2 := set_timeCounterRef (timeCounterRef st1 + 1) st1 in
        let newPoint :=
          {| time := timeCounterRef st2;
             confidencePercent := (confidence result * 100)%float;
             pointTimestamp := now |} in
        let st3 :=
          set_confidenceHistory
            (lastN MAX_HISTORY_POINTS (confidenceHistory st2 ++ [newPoint])) st2 in
        let st4 := set_frameBufferRef (FrameBuffer.resetMotionFlag (frameBufferRef st3)) st3 in
        if actionChanged (lastActionRef st4) (prediction result) then
          (set_audioTranscript (message result)
             (set_lastActionRef (Some (prediction result)) st4),
           [SpeakActionFeedback (prediction result) (confidence result) (message result)])
        else (st4, [])
    | Rejected err =>
        let st1 := set_error (Some (errorMessage err)) st in
        (set_frameBufferRef (FrameBuffer.resetMotionFlag (frameBufferRef st1)) st1,
         [ConsoleError "Prediction error:"%string])
    end in
  (set_isProcessing false (set_processingRef false st'), effects ++ [SetProcessingRef false]).

Definition resetSession (st : Page) : Page :=
  set_frameBufferRef (FrameBuffer.clear (frameBufferRef st))
    (set_timeCounterRef 0
       (set_lastActionRef None
          (set_confidenceHistory []
             (set_audioTranscript ""%string (set_currentPrediction None st))))).

Definition handleStart (st : Page) : Page :=
  set_isCameraActive true (resetSession (set_error None st)).

Definition handleStop (st : Page) : Page * list Effect :=
  (resetSession (set_isCameraActive false st), [StopAudio]).

Definition handleCameraError (msg : string) (st : Page) : Page :=
  set_isCameraActive false (set_error (Some msg) st).

(** *** The page and its pending requests *)

(** [unresolved] counts the [predictLive] promises that have not settled;
    [trace] records the effects so far. *)
Record System : Type := {
  page : Page;
  unresolved : nat;
  trace : list Effect
}.

(** A capture event carries the flag its callback closed over: any callback
    the page ever built may be the one the loop calls. *)
Inductive Event : Type :=
| FrameCapture (closureActive : bool) (video : Video) (now captureNow : Z)
    (ctx : option FrameBuffer.Snapshot)
| PredictionSettled (outcome : Settled) (now : Z)
| StartClicked
| StopClicked
| CameraFailed (msg : string).

Definition pending (s : Suspension) : nat :=
  match s with
  | AwaitingPrediction => 1
  | _ => 0
  end.

Definition step (e : Event) (s : System) : System :=
  match e with
  | FrameCapture closureActive video now captureNow ctx =>
      let '(p, effects, susp) :=
        handleFrameCapture closureActive video now captureNow ctx (page s) in
      {| page := p; unresolved := unresolved s + pending susp; trace := trace s ++ effects |}
  | PredictionSettled outcome now =>
      match unresolved s with
      | O => s
      | S k =>
          let (p, effects) := resumeFrameCapture outcome now (page s) in
          {| page := p; unresolved := k; trace := trace s ++ effects |}
      end
  | StartClicked =>
      {| page := handleStart (page s); unresolved := unresolved s; trace := trace s |}
  | StopClicked =>
      let (p, effects) := handleStop (page s) in
      {| page := p; unresolved := unresolved s; trace := trace s ++ effects |}
  | CameraFailed msg =>
      {| page := handleCameraError msg (page s); unresolved := unresolved s; trace := trace s |}
  end.

Definition steps (evs : list Event) (s : System) : System :=
  fold_left (fun s e => step e s) evs s.

Definition initial : System := {| page := mounted; unresolved := 0; trace := [] |}.

Definition isPredictLive (e : Effect) : bool :=
  match e with PredictLive _ => true | _ => false end.
Definition isSpeak (e : Effect) : bool :=
  match e with SpeakActionFeedback _ _ _ => true | _ => false end.
Definition isAcquire (e : Effect) : bool :=
  match e with SetProcessingRef true => true | _ => false end.
Definition isRelease (e : Effect) : bool :=
  match e with SetProcessingRef false => true | _ => false end.

Definition count (f : Effect -> bool) (l : list Effect) : nat := length (filter f l).

End ApplicationPage.

(** ** Single-flight inference and feedback on change *)

Module ApplicationPageFacts.
Import JsNum ApplicationPage.

(** The guard is set exactly while one request is unresolved. *)
Definition guardMatches (s : System) : Prop :=
  (processingRef (page s) = true /\ unresolved s = 1%nat) \/
  (processingRef (page s) = false /\ unresolved s = 0%nat).

(** A call that finds the guard set returns at once and touches nothing. *)
Lemma handleFrameCapture_busy (closureActive : bool) (video : Video) (now captureNow : Z)
    (ctx : option FrameBuffer.Snapshot) (st : Page) :
  processingRef st = true ->
  handleFrameCapture closureActive video now captureNow ctx st = (st, [], Finished).
Proof. intros H. unfold handleFrameCapture. rewrite H. reflexivity. Qed.

(** A call that finds the guard clear either gives up without touching the
    guard, or sets it and calls [predictLive] once. *)
Lemma handleFrameCapture_idle (closureActive : bool) (video : Video) (now captureNow : Z)
    (ctx : option FrameBuffer.Snapshot) (st : Page) :
  processingRef st = false ->
  let '(p, effects, susp) := handleFrameCapture closureActive video now captureNow ctx st in
  (susp <> AwaitingPrediction /\ effects = [] /\ processingRef p = false) \/
  (susp = AwaitingPrediction /\ processingRef p = true /\
   exists frames, effects = [SetProcessingRef true; PredictLive frames]).
Proof.
  intros H. destruct st as [a b c d e f g h i j k l]. cbn in H. subst h.
  unfold handleFrameCapture. cbn [processingRef orb].
  destruct closureActive; cbn [negb]; [|left; repeat split; discriminate].
  destruct ((0 <? videoWidth video)%nat && (0 <? videoHeight video)%nat); cbn;
    (destruct (now - i <? FRAME_INTERVAL_MS); [left; repeat split; discriminate|]);
    (destruct (FrameBuffer.addFrame captureNow ctx k) as [fb1 [[|]|msg]]; cbn;
     [right; repeat split; eexists; reflexivity
     |left; repeat split; discriminate
     |left; repeat split; discriminate]).
Qed.

Lemma resumeFrameCapture_guard (outcome : Settled) (now : Z) (st : Page) :
  processingRef (fst (resumeFrameCapture outcome now st)) = false /\
  isProcessing (fst (resumeFrameCapture outcome now st)) = false /\
  count isRelease (snd (resumeFrameCapture outcome now st)) = 1%nat /\
  count isAcquire (snd (resumeFrameCapture outcome now st)) = 0%nat /\
  count isPredictLive (snd (resumeFrameCapture outcome now st)) = 0%nat.
Proof.
  destruct st as [a b c d e f g h i j k l].
  destruct outcome as [result|err]; unfold resumeFrameCapture; cbn.
  - destruct (actionChanged j (prediction result)); cbn; repeat split.
  - repeat split.
Qed.

Lemma handleStart_guard (st : Page) : processingRef (handleStart st) = processingRef st.
Proof. destruct st; reflexivity. Qed.

Lemma handleStop_guard (st : Page) :
  processingRef (resetSession (set_isCameraActive false st)) = processingRef st.
Proof. destruct st; reflexivity. Qed.

Lemma handleCameraError_guard (msg : string) (st : Page) :
  processingRef (handleCameraError msg st) = processingRef st.
Proof. destruct st; reflexivity. Qed.

Lemma count_app (f : Effect -> bool) (l1 l2 : list Effect) :
  count f (l1 ++ l2) = (count f l1 + count f l2)%nat.
Proof. unfold count. rewrite filter_app, length_app. reflexivity. Qed.

Lemma steps_snoc (evs : list Event) (e : Event) (s : System) :
  steps (evs ++ [e]) s = step e (steps evs s).
Proof. unfold steps. rewrite fold_left_app. reflexivity. Qed.

(** What one event does to the guard, the pending requests and the trace. *)
Definition balanced (s : System) : Prop :=
  count isAcquire (trace s) = (count isRelease (trace s) + unresolved s)%nat /\
  count isPredictLive (trace s) = count isAcquire (trace s).

Lemma step_preserves (e : Event) (s : System) :
  guardMatches s /\ balanced s -> guardMatches (step e s) /\ balanced (step e s).
Proof.
  intros [Hg [Hb1 Hb2]]. destruct s as [p n tr]. unfold guardMatches, balanced in *.
  cbn [page unresolved trace] in *.
  destruct e as [active video now captureNow ctx|outcome now| | |msg];
    cbn [step page unresolved trace].
  - destruct Hg as [[Hp Hn]|[Hp Hn]].
    + rewrite (handleFrameCapture_busy active video now captureNow ctx p Hp).
      cbn [page unresolved trace pending]. rewrite app_nil_r, Nat.add_0_r. auto.
    + pose proof (handleFrameCapture_idle active video now captureNow ctx p Hp) as Hi.
      destruct (handleFrameCapture active video now captureNow ctx p) as [[p' effects] susp].
      cbn [page unresolved trace].
      destruct Hi as [(Hs & He & Hp')|(Hs & Hp' & frames & He)]; subst.
      * rewrite app_nil_r.
        replace (pending susp) with 0%nat by (destruct susp; [reflexivity..|contradiction]).
        rewrite Nat.add_0_r. auto.
      * rewrite !count_app. cbn. split; [left; split; [exact Hp' | reflexivity] | lia].
  - destruct n as [|k]; [cbn [page unresolved trace]; auto|].
    pose proof (resumeFrameCapture_guard outcome now p) as (G1 & _ & G3 & G4 & G5).
    destruct (resumeFrameCapture outcome now p) as [p' effects].
    cbn [fst snd page unresolved trace] in *. rewrite !count_app, G3, G4, G5.
    destruct Hg as [[Hp Hn]|[Hp Hn]]; [|discriminate].
    injection Hn as ->. split; [right; split; [exact G1 | reflexivity] | lia].
  - rewrite handleStart_guard. auto.
  - unfold handleStop. cbn [page unresolved trace]. rewrite handleStop_guard, !count_app.
    cbn. rewrite !Nat.add_0_r. auto.
  - rewrite handleCameraError_guard. auto.
Qed.

Lemma steps_preserve (evs : list Event) (s : System) :
  guardMatches s /\ balanced s -> guardMatches (steps evs s) /\ balanced (steps evs s).
Proof.
  revert s. induction evs as [|e evs IH]; intros s H; [exact H|].
  cbn [steps fold_left]. apply (IH (step e s)). apply step_preserves, H.
Qed.

Lemma reachable_invariant (evs : list Event) :
  guardMatches (steps evs initial) /\ balanced (steps evs initial).
Proof.
  apply steps_preserve. split; [right; split; reflexivity | split; reflexivity].
Qed.

Lemma handleFrameCapture_ready (video : Video) (now captureNow : Z)
    (ctx : option FrameBuffer.Snapshot) (st : Page) :
  processingRef st = false ->
  FRAME_INTERVAL_MS <= now - lastProcessTimeRef st ->
  snd (FrameBuffer.addFrame captureNow ctx (frameBufferRef st)) = Return true ->
  let frames :=
    snd (FrameBuffer.getFrames (fst (FrameBuffer.addFrame captureNow ctx (frameBufferRef st)))) in
  let '(p, effects, susp) := handleFrameCapture true video now captureNow ctx st in
  susp = AwaitingPrediction /\ processingRef p = true /\
  effects = [SetProcessingRef true; PredictLive frames].
Proof.
  intros Hp Ht Hr. destruct st as [a b c d e f g h i j k l]. cbn in Hp, Ht, Hr.
  subst h. unfold handleFrameCapture. cbn [processingRef orb negb].
  assert (Hthr : (now - i <? FRAME_INTERVAL_MS) = false) by (apply Z.ltb_ge; exact Ht).
  destruct ((0 <? videoWidth video)%nat && (0 <? videoHeight video)%nat); cbn;
    rewrite Hthr; destruct (FrameBuffer.addFrame captureNow ctx k) as [fb1 r];
    cbn [snd] in Hr; subst r; cbn; repeat split.
Qed.

(** C2. In every state the page can reach, whichever callbacks the capture
    loop has been calling (those built while the camera was active or not,
    before or after Stop), at most one [predictLive] call is unresolved and
    the guard [processingRef] is set exactly then.  While it is unresolved
    every frame-capture call, of any callback, is dropped: it changes
    nothing and calls nothing.  When the request settles, by success or by
    failure, the guard is clear again, and the next call of a callback built
    while the camera was active whose push reports the buffer ready (200 ms
    since the last request) sets the guard and calls [predictLive] once,
    with the buffer's frames; a callback built while the camera was
    inactive never does anything. *)
Theorem single_flight (evs : list Event) :
  let s := steps evs initial in
  (unresolved s <= 1)%nat /\
  (processingRef (page s) = true <-> unresolved s = 1%nat) /\
  count isPredictLive (trace s) = (count isRelease (trace s) + unresolved s)%nat /\
  (forall active video now captureNow ctx,
     unresolved s = 1%nat -> step (FrameCapture active video now captureNow ctx) s = s) /\
  (forall outcome now,
     unresolved s = 1%nat ->
     processingRef (page (step (PredictionSettled outcome now) s)) = false /\
     unresolved (step (PredictionSettled outcome now) s) = 0%nat) /\
  (forall video now captureNow ctx,
     unresolved s = 0%nat ->
     FRAME_INTERVAL_MS <= now - lastProcessTimeRef (page s) ->
     snd (FrameBuffer.addFrame captureNow ctx (frameBufferRef (page s))) = Return true ->
     let s' := step (FrameCapture true video now captureNow ctx) s in
     unresolved s' = 1%nat /\ processingRef (page s') = true /\
     trace s' = trace s ++
       [SetProcessingRef true;
        PredictLive
          (snd (FrameBuffer.getFrames
                  (fst (FrameBuffer.addFrame captureNow ctx (frameBufferRef (page s))))))]) /\
  (forall video now captureNow ctx,
     step (FrameCapture false video now captureNow ctx) s = s).
Proof.
  intros s. destruct (reachable_invariant evs) as [Hg [Hb1 Hb2]]. fold s in Hg, Hb1, Hb2.
  unfold guardMatches in Hg.
  split; [destruct Hg as [[_ ->]|[_ ->]]; lia|].
  split; [destruct Hg as [[Hp Hn]|[Hp Hn]]; rewrite Hp, Hn; split; congruence|].
  split; [congruence|].
  split; [|split; [|split]].
  - intros active video now captureNow ctx Hn.
    destruct Hg as [[Hp _]|[_ Hz]]; [|congruence].
    destruct s as [p n tr]. cbn [page unresolved trace step] in *.
    rewrite (handleFrameCapture_busy active video now captureNow ctx p Hp).
    cbn [pending]. rewrite app_nil_r, Nat.add_0_r. reflexivity.
  - intros outcome now Hn. destruct s as [p n tr]. cbn [page unresolved trace step] in *.
    subst n. pose proof (resumeFrameCapture_guard outcome now p) as (G1 & _).
    destruct (resumeFrameCapture outcome now p) as [p' effects]. cbn in *. auto.
  - intros video now captureNow ctx Hn Ht Hr s'.
    destruct Hg as [[_ Ho]|[Hp _]]; [congruence|].
    pose proof (handleFrameCapture_ready video now captureNow ctx (page s) Hp Ht Hr) as H.
    subst s'. destruct s as [p n tr]. cbn [page unresolved trace step] in *.
    destruct (handleFrameCapture true video now captureNow ctx p) as [[p' effects] susp].
    cbn zeta in H. destruct H as (-> & Hp' & ->). cbn [page unresolved trace pending].
    subst n. repeat split. exact Hp'.
  - intros video now captureNow ctx. destruct s as [p n tr]. cbn [step page unresolved trace].
    unfold handleFrameCapture. cbn [negb]. rewrite orb_true_r.
    cbn [pending]. rewrite app_nil_r, Nat.add_0_r. reflexivity.
Qed.

(** A session: start, one dark frame, seven lit frames 200 ms apart, each
    handed to the callback built when the camera became active.  The eighth
    push finds the window full with motion seen and starts a request. *)
Definition camera : Video := {| videoWidth := 5; videoHeight := 1 |}.

Definition capture (now : Z) (snap : FrameBuffer.Snapshot) : Event :=
  FrameCapture true camera now now (Some snap).

Definition firstRequest : list Event :=
  StartClicked :: capture 200 FrameBufferFacts.dark ::
  map (fun k => capture (200 * Z.of_nat k) FrameBufferFacts.lit) (seq 2 7).

Definition high : PredictionResponse :=
  {| prediction := "High"; confidence := 0x1.d1eb851eb851fp-1%float; message := "Great shot!" |}.

Lemma single_flight_witness :
  unresolved (steps firstRequest initial) = 1%nat /\
  step (capture 1800 FrameBufferFacts.dark) (steps firstRequest initial)
    = steps firstRequest initial /\
  unresolved (steps (firstRequest ++ [PredictionSettled (Rejected OtherValue) 1900]) initial)
    = 0%nat /\
  count isPredictLive
    (trace (steps (firstRequest ++ [PredictionSettled (Rejected OtherValue) 1900;
                                    capture 2000 FrameBufferFacts.dark]) initial)) = 2%nat.
Proof.
  assert (H1 : unresolved (steps firstRequest initial) = 1%nat) by (vm_compute; reflexivity).
  destruct (single_flight firstRequest) as (_ & _ & _ & Hdrop & Hsettle & _).
  split; [exact H1 | split; [exact (Hdrop true camera 1800 1800 _ H1) | split]].
  - rewrite steps_snoc. exact (proj2 (Hsettle (Rejected OtherValue) 1900 H1)).
  - destruct (single_flight (firstRequest ++ [PredictionSettled (Rejected OtherValue) 1900]))
      as (_ & _ & _ & _ & _ & Hnew & _).
    assert (Hn : unresolved (steps (firstRequest ++
                 [PredictionSettled (Rejected OtherValue) 1900]) initial) = 0%nat)
      by (vm_compute; reflexivity).
    assert (Ht : FRAME_INTERVAL_MS <= 2000 - lastProcessTimeRef (page (steps (firstRequest ++
                 [PredictionSettled (Rejected OtherValue) 1900]) initial)))
      by (vm_compute; discriminate).
    assert (Hr : snd (FrameBuffer.addFrame 2000 (Some FrameBufferFacts.dark)
                   (frameBufferRef (page (steps (firstRequest ++
                      [PredictionSettled (Rejected OtherValue) 1900]) initial)))) = Return true)
      by (vm_compute; reflexivity).
    pose proof (Hnew camera 2000 2000 (Some FrameBufferFacts.dark) Hn Ht Hr) as Htr.
    cbv zeta in Htr. destruct Htr as (_ & _ & Htr).
    change (firstRequest ++ [PredictionSettled (Rejected OtherValue) 1900;
                             capture 2000 FrameBufferFacts.dark])
      with ((firstRequest ++ [PredictionSettled (Rejected OtherValue) 1900]) ++
            [capture 2000 FrameBufferFacts.dark]).
    rewrite steps_snoc. unfold capture at 1. rewrite Htr. vm_compute. reflexivity.
Defined.

(** C6. Guard writes pair up over every run, whichever callbacks made the
    captures: each acquisition is released
    exactly once, when its request settles, and the settling of a request,
    whatever its outcome, clears the guard with exactly one release.  A
    failed request puts its message in the page's [error] state, leaves the
    camera session as it was, resets the buffer's motion flag (frames kept)
    and clears the guard and the processing indicator. *)
Theorem guard_released_once (evs : list Event) :
  let s := steps evs initial in
  count isAcquire (trace s) = (count isRelease (trace s) + unresolved s)%nat /\
  (forall err now,
     unresolved s = 1%nat ->
     let s' := step (PredictionSettled (Rejected err) now) s in
     error (page s') = Some (errorMessage err) /\
     isCameraActive (page s') = isCameraActive (page s) /\
     frameBufferRef (page s') = FrameBuffer.resetMotionFlag (frameBufferRef (page s)) /\
     processingRef (page s') = false /\
     isProcessing (page s') = false /\
     unresolved s' = 0%nat /\
     trace s' = trace s ++ [ConsoleError "Prediction error:"; SetProcessingRef false]) /\
  (forall outcome now,
     unresolved s = 1%nat ->
     let s' := step (PredictionSettled outcome now) s in
     count isRelease (trace s') = (count isRelease (trace s) + 1)%nat /\
     count isAcquire (trace s') = count isAcquire (trace s) /\
     processingRef (page s') = false).
Proof.
  intros s. destruct (reachable_invariant evs) as [_ [Hb1 _]]. fold s in Hb1.
  split; [exact Hb1 | split].
  - intros err now Hn s'. subst s'. destruct s as [p n tr].
    cbn [page unresolved trace step] in *. subst n.
    destruct p as [a b c d e f g h i j k l]. cbn. repeat split.
  - intros outcome now Hn s'. subst s'. destruct s as [p n tr].
    cbn [page unresolved trace step] in *. subst n.
    pose proof (resumeFrameCapture_guard outcome now p) as (G1 & _ & G3 & G4 & _).
    destruct (resumeFrameCapture outcome now p) as [p' effects].
    cbn [fst snd page unresolved trace] in *. rewrite !count_app, G3, G4.
    repeat split; [lia | exact G1].
Qed.

Lemma guard_released_once_witness :
  unresolved (steps firstRequest initial) = 1%nat /\
  error (page (step (PredictionSettled (Rejected (ErrorObject "Failed to fetch")) 1900)
                 (steps firstRequest initial))) = Some "Failed to fetch"%string /\
  count isRelease
    (trace (step (PredictionSettled (Resolved high) 1900) (steps firstRequest initial)))
    = 1%nat.
Proof.
  assert (H1 : unresolved (steps firstRequest initial) = 1%nat) by (vm_compute; reflexivity).
  destruct (guard_released_once firstRequest) as (_ & Hfail & Hany).
  split; [exact H1 | split].
  - exact (proj1 (Hfail (ErrorObject "Failed to fetch") 1900 H1)).
  - refine (eq_trans (proj1 (Hany (Resolved high) 1900 H1)) _). vm_compute. reflexivity.
Defined.

Lemma actionChanged_false_iff (last : option string) (action : string) :
  actionChanged last action = false <-> last = Some action.
Proof.
  unfold actionChanged. destruct last as [a|]; [|split; discriminate].
  rewrite negb_false_iff, String.eqb_eq. split; congruence.
Qed.

(** C7. When a request succeeds, [speakActionFeedback] is called if and only
    if the returned label differs from the remembered one: once, with the
    new label, confidence and message, after which the new label is the
    remembered one; a result that repeats the remembered label calls
    nothing.  Frame-capture calls in between do not touch the remembered
    label, so the same label returned twice in a row speaks once. *)
Theorem speak_on_change (st : Page) (result : PredictionResponse) (now : Z) :
  let st' := fst (resumeFrameCapture (Resolved result) now st) in
  let effects := snd (resumeFrameCapture (Resolved result) now st) in
  filter isSpeak effects =
    (if actionChanged (lastActionRef st) (prediction result)
     then [SpeakActionFeedback (prediction result) (confidence result) (message result)]
     else []) /\
  (actionChanged (lastActionRef st) (prediction result) = false <->
   lastActionRef st = Some (prediction result)) /\
  lastActionRef st' = Some (prediction result) /\
  (forall active video t1 t2 ctx,
     lastActionRef (fst (fst (handleFrameCapture active video t1 t2 ctx st')))
       = lastActionRef st') /\
  (forall result2 now2 st2,
     lastActionRef st2 = lastActionRef st' ->
     prediction result2 = prediction result ->
     filter isSpeak (snd (resumeFrameCapture (Resolved result2) now2 st2)) = [] /\
     lastActionRef (fst (resumeFrameCapture (Resolved result2) now2 st2))
       = Some (prediction result)).
Proof.
  intros st' effects.
  assert (Hlast : lastActionRef st' = Some (prediction result)).
  { subst st'. destruct st as [a b c d e f g h i j k l]. unfold resumeFrameCapture. cbn.
    destruct (actionChanged j (prediction result)) eqn:E; cbn; [reflexivity|].
    apply actionChanged_false_iff, E. }
  split; [|split; [apply actionChanged_false_iff | split; [exact Hlast | split]]].
  - subst effects. destruct st as [a b c d e f g h i j k l]. unfold resumeFrameCapture. cbn.
    destruct (actionChanged j (prediction result)); reflexivity.
  - intros active video t1 t2 ctx. generalize st'. clear.
    intros [a b c d e f g h i j k l]. unfold handleFrameCapture.
    cbn [processingRef].
    destruct (h || negb active); [reflexivity|].
    destruct ((0 <? videoWidth video)%nat && (0 <? videoHeight video)%nat);
      cbn [set_videoDimensions lastProcessTimeRef frameBufferRef];
      (destruct (t1 - i <? FRAME_INTERVAL_MS); [reflexivity|]);
      destruct (FrameBuffer.addFrame t2 ctx k) as [fb1 [[|]|msg]]; reflexivity.
  - intros result2 now2 st2 H2 Hp. rewrite Hlast in H2.
    destruct st2 as [a b c d e f g h i j k l]. cbn in H2. subst j.
    unfold resumeFrameCapture. cbn. rewrite Hp, String.eqb_refl. cbn.
    split; reflexivity.
Qed.

(** The page when the first request is unresolved. *)
Definition readyPage : Page := page (steps firstRequest initial).

Lemma speak_on_change_witness :
  lastActionRef readyPage = None /\
  filter isSpeak (snd (resumeFrameCapture (Resolved high) 1900 readyPage)) =
    (if actionChanged (lastActionRef readyPage) (prediction high)
     then [SpeakActionFeedback (prediction high) (confidence high) (message high)]
     else []) /\
  lastActionRef (fst (resumeFrameCapture (Resolved high) 1900 readyPage))
    = Some (prediction high) /\
  filter isSpeak
    (snd (resumeFrameCapture (Resolved high) 2100
            (fst (resumeFrameCapture (Resolved high) 1900 readyPage)))) = [].
Proof.
  destruct (speak_on_change readyPage high 1900) as (H1 & _ & H3 & _ & H5).
  split; [vm_compute; reflexivity | split; [exact H1 | split; [exact H3|]]].
  exact (proj1 (H5 high 2100 _ eq_refl eq_refl)).
Defined.

(** The same label twice in a row: one call of the speech service. *)
Example same_label_twice :
  count isSpeak
    (trace (steps (firstRequest ++
                   [PredictionSettled (Resolved high) 1900;
                    capture 2000 FrameBufferFacts.dark;
                    PredictionSettled (Resolved high) 2100]) initial)) = 1%nat /\
  count isPredictLive
    (trace (steps (firstRequest ++
                   [PredictionSettled (Resolved high) 1900;
                    capture 2000 FrameBufferFacts.dark;
                    PredictionSettled (Resolved high) 2100]) initial)) = 2%nat.
Proof. split; vm_compute; reflexivity. Qed.

End ApplicationPageFacts.

(** ** The text-to-speech service *)

Module TtsService.

(** The two module variables of the service ([currentAudio], [isPlaying])
    and the browser state they are meant to track: the [HTMLAudioElement]s
    that are playing, and the utterance queue of [speechSynthesis], whose
    head is the utterance being spoken ([speak] appends to the queue,
    [cancel] empties it).  Audio elements are named by their order of
    construction. *)
Record World : Type := {
  currentAudio : option nat;
  isPlaying : bool;
  playing : list nat;
  utterances : list string;
  constructedAudio : nat;
  hasSpeechSynthesis : bool
}.

Definition silent : World :=
  {| currentAudio := None; isPlaying := false; playing := []; utterances := [];
     constructedAudio := 0; hasSpeechSynthesis := true |}.

(** The number of audio sessions that can be heard. *)
Definition activeSessions (w : World) : nat :=
  (length (playing w) + match utterances w with [] => 0 | _ :: _ => 1 end)%nat.

(** [audio.pause()]. *)
Definition pause (a : nat) (l : list nat) : list nat :=
  filter (fun b => negb (Nat.eqb a b)) l.

(** How the promise built by [playAudioFromBase64] stands when the executor
    returns. *)
Inductive Playback : Type :=
| Started
| RejectedAtOnce.

(** [playAudioFromBase64(audioBase64)]: [decodable] tells whether [atob]
    accepts the string, [playable] whether [audio.play()] resolves. *)
Definition playAudioFromBase64 (decodable playable : bool) (w : World) : World * Playback :=
  let w1 :=
    match currentAudio w with
    | Some a =>
        if isPlaying w then
          {| currentAudio := None; isPlaying := isPlaying w;
             playing := pause a (playing w); utterances := utterances w;
             constructedAudio := constructedAudio w;
             hasSpeechSynthesis := hasSpeechSynthesis w |}
        else w
    | None => w
    end in
  if negb decodable then (w1, RejectedAtOnce)
  else
    let audio := constructedAudio w1 in
    ({| currentAudio := Some audio; isPlaying := true;
        playing := if playable then playing w1 ++ [audio] else playing w1;
        utterances := utterances w1;
        constructedAudio := S (constructedAudio w1);
        hasSpeechSynthesis := hasSpeechSynthesis w1 |},
     if playable then Started else RejectedAtOnce).

(** [fallbackTTS(text)]. *)
Definition fallbackTTS (text : string) (w : World) : World :=
  if hasSpeechSynthesis w then
    {| currentAudio := currentAudio w; isPlaying := isPlaying w;
       playing := playing w; utterances := utterances w ++ [text];
       constructedAudio := constructedAudio w;
       hasSpeechSynthesis := hasSpeechSynthesis w |}
  else w.

(** [message || (action === 'High' ? 'Great shot!' : 'Keep practicing!')]. *)
Definition getActionFeedback (action : string) (message : option string) : string :=
  match message with
  | Some (String c m) => String c m
  | _ => if String.eqb action "High" then "Great shot!"%string else "Keep practicing!"%string
  end.

(** What the back end and the browser answer to one call: the audio of
    [generateAudio] ([None] when the request fails), whether it decodes, and
    whether the element starts playing. *)
Record Answer : Type := {
  audio_base64 : option string;
  decodable : bool;
  playable : bool
}.

(** [speakActionFeedback(action, confidence, message)] from the settling of
    [generateAudio] until the call waits for its playback to end. *)
Definition speakActionFeedback (action : string) (confidence : float)
    (message : option string) (ans : Answer) (w : World) : World :=
  match audio_base64 ans with
  | Some _ =>
      match playAudioFromBase64 (decodable ans) (playable ans) w with
      | (w1, Started) => w1
      | (w1, RejectedAtOnce) => fallbackTTS (getActionFeedback action message) w1
      end
  | None => fallbackTTS (getActionFeedback action message) w
  end.

(** The [onended] handler of audio element [a]. *)
Definition audioEnded (a : nat) (w : World) : World :=
  {| currentAudio := None; isPlaying := false;
     playing := pause a (playing w); utterances := utterances w;
     constructedAudio := constructedAudio w;
     hasSpeechSynthesis := hasSpeechSynthesis w |}.

(** [stopAudio()]. *)
Definition stopAudio (w : World) : World :=
  let w1 :=
    match currentAudio w with
    | Some a =>
        if isPlaying w then
          {| currentAudio := None; isPlaying := false;
             playing := pause a (playing w); utterances := utterances w;
             constructedAudio := constructedAudio w;
             hasSpeechSynthesis := hasSpeechSynthesis w |}
        else w
    | None => w
    end in
  if hasSpeechSynthesis w1 then
    {| currentAudio := currentAudio w1; isPlaying := isPlaying w1;
       playing := playing w1; utterances := [];
       constructedAudio := constructedAudio w1;
       hasSpeechSynthesis := hasSpeechSynthesis w1 |}
  else w1.

Definition remoteAudio : Answer :=
  {| audio_base64 := Some "SUQz"%string; decodable := true; playable := true |}.
Definition backendDown : Answer :=
  {| audio_base64 := None; decodable := true; playable := true |}.

(** The only playing element, if any, is the tracked one and nothing is
    being synthesised. *)
Definition tracked (w : World) : Prop :=
  utterances w = [] /\
  (playing w = [] \/
   exists a, playing w = [a] /\ currentAudio w = Some a /\ isPlaying w = true).

(** On the remote-audio path the tracked playback is paused before the new
    element plays: one session is active afterwards. *)
Lemma remote_path_exclusive (action : string) (confidence : float)
    (message : option string) (b64 : string) (w : World) :
  tracked w ->
  let w' := speakActionFeedback action confidence message
              {| audio_base64 := Some b64; decodable := true; playable := true |} w in
  playing w' = [constructedAudio w] /\ utterances w' = [] /\ activeSessions w' = 1%nat /\
  tracked w'.
Proof.
  intros [Hu [Hp|(a & Hp & Hc & Hi)]]; unfold speakActionFeedback, playAudioFromBase64;
    cbn [audio_base64 decodable playable negb].
  - destruct (currentAudio w) as [a|]; [destruct (isPlaying w)|];
      cbn; unfold activeSessions, tracked; cbn; rewrite ?Hp, ?Hu; cbn;
      repeat split; try reflexivity; right; eexists; repeat split.
  - rewrite Hc, Hi. cbn. unfold activeSessions, tracked. cbn. rewrite Hp, Hu. cbn.
    rewrite Nat.eqb_refl. cbn. repeat split; try reflexivity.
    right; eexists; repeat split.
Qed.

(** C8, at the failing input.  A first call plays the remote audio; during
    it a second call finds the back end down and falls back to speech
    synthesis: [fallbackTTS] does not pause the playing element, so two
    sessions are active.  Two fallback calls in a row queue the second
    utterance behind the first instead of stopping it, and a remote audio
    that follows a fallback plays over the utterance. *)
Theorem fallback_overlaps_audio :
  let first :=
    speakActionFeedback "High" 0.75%float (Some "Great shot!"%string) remoteAudio silent in
  let second := speakActionFeedback "Not High" 0.75%float None backendDown first in
  activeSessions first = 1%nat /\
  playing second = [0%nat] /\
  utterances second = ["Keep practicing!"%string] /\
  activeSessions second = 2%nat /\
  utterances (speakActionFeedback "High" 0.75%float None backendDown
                (speakActionFeedback "Not High" 0.75%float None backendDown silent))
    = ["Keep practicing!"%string; "Great shot!"%string] /\
  activeSessions (speakActionFeedback "High" 0.75%float None remoteAudio
                    (speakActionFeedback "Not High" 0.75%float None backendDown silent))
    = 2%nat.
Proof. repeat split. Qed.

(** [stopAudio] does both: it pauses the tracked element and cancels the
    utterances. *)
Example stopAudio_silences :
  activeSessions
    (stopAudio
       (speakActionFeedback "Not High" 0.75%float None backendDown
          (speakActionFeedback "High" 0.75%float (Some "Great shot!"%string)
             remoteAudio silent))) = 0%nat.
Proof. reflexivity. Qed.

(** When the first audio has ended before the second call falls back, one
    session is active. *)
Example fallback_after_audio_ended :
  activeSessions
    (speakActionFeedback "Not High" 0.75%float None backendDown
       (audioEnded 0
          (speakActionFeedback "High" 0.75%float (Some "Great shot!"%string)
             remoteAudio silent))) = 1%nat.
Proof. reflexivity. Qed.

End TtsService.

(** ** poseDetection.ts: start-up of the pose detector *)

Module PoseDetection.

Inductive ModelVariant : Type :=
| MoveNetLightning
| MoveNetThunder
| BlazePoseLite.

(** The order in which [initializePoseDetector] names the variants. *)
Definition variants : list ModelVariant := [MoveNetLightning; MoveNetThunder; BlazePoseLite].

(** The TensorFlow.js side: whether [tf.ready()] resolves, and what
    [poseDetection.createDetector] gives for each variant ([None] when it
    throws). *)
Record Backend : Type := {
  tfReady : bool;
  createDetector : ModelVariant -> option nat
}.

(** The module variables; [initializationPromise] is kept as "non-null". *)
Record State : Type := {
  detector : option nat;
  isInitialized : bool;
  initializationPromise : bool
}.

Definition unloaded : State :=
  {| detector := None; isInitialized := false; initializationPromise := false |}.

Inductive Outcome : Type :=
| Resolved
| Rejected (msg : string)
| JoinedAttemptInProgress.

Definition initializationError : string :=
  "Failed to initialize pose detector. Please check your internet connection and try refreshing the page."%string.

(** One call run to its end: the final module state, how the returned
    promise settles, the variants whose construction was attempted, in
    order, and the [console.error] lines. *)
Record Run : Type := {
  final : State;
  outcome : Outcome;
  constructed : list ModelVariant;
  errorsLogged : list string
}.

Definition ready (d : nat) : State :=
  {| detector := Some d; isInitialized := true; initializationPromise := false |}.

(** The innermost [try]: BlazePose Lite, else the error is thrown. *)
Definition tryBlazePose (env : Backend) (st : State) (tried : list ModelVariant)
    (logs : list string) : Run :=
  match createDetector env BlazePoseLite with
  | Some d =>
      {| final := ready d; outcome := Resolved;
         constructed := tried ++ [BlazePoseLite]; errorsLogged := logs |}
  | None =>
      {| final := {| detector := detector st; isInitialized := isInitialized st;
                     initializationPromise := false |};
         outcome := Rejected initializationError;
         constructed := tried ++ [BlazePoseLite];
         errorsLogged := logs ++ ["Failed to initialize pose detector:"%string] |}
  end.

(** The first [catch]: MoveNet Thunder, else BlazePose. *)
Definition tryThunder (env : Backend) (st : State) (tried : list ModelVariant)
    (logs : list string) : Run :=
  match createDetector env MoveNetThunder with
  | Some d =>
      {| final := ready d; outcome := Resolved;
         constructed := tried ++ [MoveNetThunder]; errorsLogged := logs |}
  | None =>
      tryBlazePose env st (tried ++ [MoveNetThunder])
        (logs ++ ["Failed to initialize MoveNet Thunder, trying BlazePose..."%string])
  end.

(** [initializePoseDetector()].  The outer [try] holds both [await tf.ready()]
    and the construction of MoveNet Lightning; a failure of either enters
    the first [catch]. *)
Definition initializePoseDetector (env : Backend) (st : State) : Run :=
  if isInitialized st && match detector st with Some _ => true | None => false end then
    {| final := st; outcome := Resolved; constructed := []; errorsLogged := [] |}
  else if initializationPromise st then
    {| final := st; outcome := JoinedAttemptInProgress; constructed := []; errorsLogged := [] |}
  else
    let lightningFailed := "Failed to initialize MoveNet Lightning, trying MoveNet Thunder..."%string in
    if tfReady env then
      match createDetector env MoveNetLightning with
      | Some d =>
          {| final := ready d; outcome := Resolved;
             constructed := [MoveNetLightning]; errorsLogged := [] |}
      | None => tryThunder env st [MoveNetLightning] [lightningFailed]
      end
    else tryThunder env st [] [lightningFailed].

(** The first attempt as a whole: back-end readiness, then Lightning. *)
Definition firstAttempt (env : Backend) : option nat :=
  if tfReady env then createDetector env MoveNetLightning else None.

(** A call that starts an initialization of its own. *)
Definition starts (st : State) : Prop :=
  initializationPromise st = false /\
  isInitialized st && match detector st with Some _ => true | None => false end = false.

(** C9, as the code has it.  A call that starts an initialization makes up
    to three attempts in the order Lightning, Thunder, BlazePose.  The first
    attempt is the outer [try] as a whole, [tf.ready()] followed by the
    construction of Lightning: when [tf.ready()] rejects, Lightning is not
    constructed at all and the call goes on to Thunder.  The first attempt
    that succeeds ends the call with that detector installed; a failed
    attempt is followed by the next one within the same call.  The promise
    rejects exactly when the first attempt and the constructions of Thunder
    and BlazePose have all failed, and then with one fixed error, the same
    whatever failed. *)
Theorem fallback_chain (env : Backend) (st : State) :
  starts st ->
  let r := initializePoseDetector env st in
  (forall d, firstAttempt env = Some d ->
     outcome r = Resolved /\ final r = ready d /\ constructed r = [MoveNetLightning]) /\
  (forall d, firstAttempt env = None -> createDetector env MoveNetThunder = Some d ->
     outcome r = Resolved /\ final r = ready d /\
     constructed r = (if tfReady env then [MoveNetLightning] else []) ++ [MoveNetThunder]) /\
  (forall d, firstAttempt env = None -> createDetector env MoveNetThunder = None ->
     createDetector env BlazePoseLite = Some d ->
     outcome r = Resolved /\ final r = ready d /\
     constructed r =
       (if tfReady env then [MoveNetLightning] else []) ++ [MoveNetThunder; BlazePoseLite]) /\
  ((exists msg, outcome r = Rejected msg) <->
   firstAttempt env = None /\ createDetector env MoveNetThunder = None /\
   createDetector env BlazePoseLite = None) /\
  (forall msg, outcome r = Rejected msg ->
     msg = initializationError /\
     constructed r =
       (if tfReady env then [MoveNetLightning] else []) ++ [MoveNetThunder; BlazePoseLite] /\
     Forall (fun v => createDetector env v = None) (constructed r)).
Proof.
  intros [Hp Hi] r. subst r. unfold initializePoseDetector, firstAttempt.
  rewrite Hi, Hp. unfold tryThunder, tryBlazePose.
  destruct (tfReady env);
    destruct (createDetector env MoveNetLightning) as [d1|] eqn:E1;
    destruct (createDetector env MoveNetThunder) as [d2|] eqn:E2;
    destruct (createDetector env BlazePoseLite) as [d3|] eqn:E3;
    cbn; repeat split;
    try (intros; congruence);
    try (intros [msg Hm]; discriminate Hm);
    try (match goal with H : exists _, _ |- _ => destruct H as [? H]; discriminate H end);
    try (intros (H1 & H2 & H3); discriminate);
    try (eexists; reflexivity);
    try (intros msg Hm; discriminate Hm);
    try (repeat constructor; assumption).
Qed.

(** No back end: [tf.ready()] fails, and no detector can be constructed. *)
Definition noBackend : Backend :=
  {| tfReady := false; createDetector := fun _ => None |}.

(** Every variant fails although the back end is ready. *)
Definition nothingLoads : Backend :=
  {| tfReady := true; createDetector := fun _ => None |}.

Lemma fallback_chain_witness :
  starts unloaded /\
  outcome (initializePoseDetector nothingLoads unloaded) = Rejected initializationError /\
  constructed (initializePoseDetector nothingLoads unloaded) = variants.
Proof.
  assert (Hs : starts unloaded) by (split; reflexivity).
  destruct (fallback_chain nothingLoads unloaded Hs) as (_ & _ & _ & Hrej & Hmsg).
  destruct (proj2 Hrej (conj eq_refl (conj eq_refl eq_refl))) as [msg Hm].
  destruct (Hmsg msg Hm) as (Hfixed & Hc & _).
  split; [exact Hs | split].
  - rewrite Hm, Hfixed. reflexivity.
  - exact Hc.
Defined.

(** The claim as stated fails when [tf.ready()] rejects.  With a back end
    on which MoveNet Lightning would load but the other two do not, the
    promise rejects although the construction of Lightning has not thrown:
    it was never attempted.  The error is the fixed one, the same as when
    all three constructions throw; it describes none of the failures. *)
Definition lightningWouldLoad : Backend :=
  {| tfReady := false;
     createDetector := fun v =>
       match v with MoveNetLightning => Some 1%nat | _ => None end |}.

Lemma rejects_without_constructing_lightning :
  createDetector lightningWouldLoad MoveNetLightning = Some 1%nat /\
  outcome (initializePoseDetector lightningWouldLoad unloaded)
    = Rejected initializationError /\
  constructed (initializePoseDetector lightningWouldLoad unloaded)
    = [MoveNetThunder; BlazePoseLite] /\
  existsb (fun v => match v with MoveNetLightning => true | _ => false end)
          (constructed (initializePoseDetector lightningWouldLoad unloaded)) = false /\
  outcome (initializePoseDetector nothingLoads unloaded)
    = outcome (initializePoseDetector lightningWouldLoad unloaded).
Proof. repeat split. Qed.

(** With no back end the attempt at Lightning fails at [tf.ready()], before
    [createDetector] is called for it: two constructions are attempted. *)
Example no_backend_skips_lightning_construction :
  outcome (initializePoseDetector noBackend unloaded) = Rejected initializationError /\
  constructed (initializePoseDetector noBackend unloaded) = [MoveNetThunder; BlazePoseLite] /\
  errorsLogged (initializePoseDetector noBackend unloaded) =
    ["Failed to initialize MoveNet Lightning, trying MoveNet Thunder...";
     "Failed to initialize MoveNet Thunder, trying BlazePose...";
     "Failed to initialize pose detector:"]%string.
Proof. repeat split. Qed.

(** Lightning fails, Thunder loads: the call resolves with Thunder and
    BlazePose is not tried. *)
Example thunder_wins :
  let env := {| tfReady := true;
                createDetector := fun v =>
                  match v with MoveNetThunder => Some 2%nat | _ => None end |} in
  outcome (initializePoseDetector env unloaded) = Resolved /\
  final (initializePoseDetector env unloaded) = ready 2 /\
  constructed (initializePoseDetector env unloaded) = [MoveNetLightning; MoveNetThunder].
Proof. repeat split. Qed.

End PoseDetection.

(** ** More on the frame buffer: invariants, throttle and restart *)

Module FrameBufferMore.
Import JsNum FrameBuffer FrameBufferFacts.

Lemma exec_frameInterval (c : call) (fb : t) :
  frameInterval (fst (exec c fb)) = frameInterval fb.
Proof.
  destruct c as [now ctx| | | | |]; cbn; try reflexivity.
  unfold addFrame. destruct (_ <? _); [reflexivity|]. destruct ctx; reflexivity.
Qed.

Lemma run_config (cs : list call) : forall fb : t,
  maxFrames (fst (run cs fb)) = maxFrames fb /\
  frameInterval (fst (run cs fb)) = frameInterval fb /\
  motionThreshold (fst (run cs fb)) = motionThreshold fb.
Proof.
  induction cs as [|c cs IH]; intros fb; [repeat split|].
  rewrite run_cons. cbn [fst]. destruct (IH (fst (exec c fb))) as (H1 & H2 & H3).
  rewrite H1, H2, H3, exec_maxFrames, exec_frameInterval, exec_motionThreshold.
  repeat split.
Qed.

(** Whatever is called, in whatever order, the window holds at most
    [maxFrames] frames and the three constructor arguments stay as given. *)
Theorem window_within_capacity (n : nat) (iv : Z) (thr : float) (cs : list call) :
  let fb := fst (run cs (constructor n iv thr)) in
  (length (buffer fb) <= n)%nat /\
  maxFrames fb = n /\ frameInterval fb = iv /\ motionThreshold fb = thr.
Proof.
  cbv zeta. destruct (run_config cs (constructor n iv thr)) as (H1 & H2 & H3).
  pose proof (run_bounded cs _ (constructor_bounded n iv thr)) as Hb.
  unfold bounded in Hb. rewrite H1 in Hb. cbn in Hb, H1, H2, H3. auto.
Qed.

(** [getFrames] is idempotent: a second call finds nothing left to pad and
    returns the same frames. *)
Theorem getFrames_idempotent (fb : t) :
  getFrames (fst (getFrames fb)) = getFrames fb.
Proof.
  assert (Hb : buffer (fst (getFrames (fst (getFrames fb)))) = buffer (fst (getFrames fb))).
  { rewrite (getFrames_buffer (fst (getFrames fb))).
    change (maxFrames (fst (getFrames fb))) with (maxFrames fb).
    rewrite getFrames_buffer.
    destruct (last_frame (buffer fb)) as [lastFrame|] eqn:E.
    - rewrite (last_frame_repeat _ _ _ E), length_app, repeat_length.
      replace (maxFrames fb - (length (buffer fb) + (maxFrames fb - length (buffer fb))))%nat
        with 0%nat by lia.
      cbn. apply app_nil_r.
    - rewrite E. reflexivity. }
  assert (Hshape : forall x : t,
             getFrames x =
             ({| buffer := buffer (fst (getFrames x)); maxFrames := maxFrames x;
                 frameInterval := frameInterval x; motionThreshold := motionThreshold x;
                 lastCaptureTime := lastCaptureTime x;
                 hasSignificantMotion := hasSignificantMotion x |},
              map base64 (buffer (fst (getFrames x))))) by reflexivity.
  rewrite (Hshape (fst (getFrames fb))), Hb. rewrite (Hshape fb) at 7. reflexivity.
Qed.

(** A capture that the canvas refuses (no 2d context) throws, stores
    nothing and leaves the flag alone, yet it takes the throttle slot: until
    [frameInterval] has passed since that failed attempt, every further
    call is turned away. *)
Theorem failed_capture_takes_slot (now later : Z) (ctx : option Snapshot) (fb : t) :
  frameInterval fb <= now - lastCaptureTime fb ->
  later - now < frameInterval fb ->
  let fb1 := fst (addFrame now None fb) in
  snd (addFrame now None fb) = Throw "Could not get canvas context"%string /\
  buffer fb1 = buffer fb /\
  hasSignificantMotion fb1 = hasSignificantMotion fb /\
  addFrame later ctx fb1 = (fb1, Return false).
Proof.
  intros Hnow Hlater fb1.
  assert (E : addFrame now None fb =
              ({| buffer := buffer fb; maxFrames := maxFrames fb;
                  frameInterval := frameInterval fb; motionThreshold := motionThreshold fb;
                  lastCaptureTime := now;
                  hasSignificantMotion := hasSignificantMotion fb |},
               Throw "Could not get canvas context"%string)).
  { unfold addFrame.
    destruct (Z.ltb_spec (now - lastCaptureTime fb) (frameInterval fb)); [lia | reflexivity]. }
  subst fb1. rewrite E. cbn [fst snd buffer hasSignificantMotion]. repeat split.
  apply addFrame_throttled. cbn. exact Hlater.
Qed.

Lemma failed_capture_takes_slot_witness :
  let fb1 := fst (addFrame 200 None default) in
  snd (addFrame 200 None default) = Throw "Could not get canvas context"%string /\
  buffer fb1 = [] /\
  addFrame 399 (Some dark) fb1 = (fb1, Return false).
Proof.
  cbv zeta.
  destruct (failed_capture_takes_slot 200 399 (Some dark) default) as (H1 & H2 & _ & H4);
    [vm_compute; discriminate | reflexivity |].
  split; [exact H1 | split; [exact H2 | exact H4]].
Defined.

(** *** Capture times of the stored frames *)

(** Each time is the one before it again (a copy) or at least [iv] later. *)
Fixpoint spaced (iv : Z) (ts : list Z) : Prop :=
  match ts with
  | t1 :: ((t2 :: _) as rest) => (t2 = t1 \/ iv <= t2 - t1) /\ spaced iv rest
  | _ => True
  end.

Lemma spaced_tl (iv : Z) (ts : list Z) : spaced iv ts -> spaced iv (tl ts).
Proof. destruct ts as [|t1 [|t2 ts]]; cbn; tauto. Qed.

Lemma spaced_snoc (iv : Z) (ts : list Z) (a b : Z) :
  spaced iv (ts ++ [a]) -> b = a \/ iv <= b - a -> spaced iv ((ts ++ [a]) ++ [b]).
Proof.
  induction ts as [|t ts IH]; intros Hs Hab.
  - cbn. tauto.
  - destruct ts as [|t' ts].
    + cbn in *. tauto.
    + cbn [app spaced] in *. destruct Hs as [H1 H2]. split; [exact H1 | apply IH; assumption].
Qed.

Lemma last_frame_snoc_inv (b : list FrameData) (x : FrameData) :
  last_frame b = Some x -> exists l, b = l ++ [x].
Proof.
  intros H.
  assert (Hne : b <> []) by (intros ->; discriminate H).
  destruct (exists_last Hne) as (l & y & ->).
  rewrite last_frame_app in H. injection H as ->. exists l. reflexivity.
Qed.

(** The stored times are spaced and none is later than the last capture. *)
Definition timesOrdered (fb : t) : Prop :=
  spaced (frameInterval fb) (map timestamp (buffer fb)) /\
  forall x, last_frame (buffer fb) = Some x -> timestamp x <= lastCaptureTime fb.

Lemma exec_timesOrdered (c : call) (fb : t) :
  0 <= frameInterval fb -> timesOrdered fb -> timesOrdered (fst (exec c fb)).
Proof.
  intros Hiv [Hs Hl]. destruct c as [now ctx| | | | |]; cbn [exec fst].
  - destruct (Z.ltb_spec (now - lastCaptureTime fb) (frameInterval fb)) as [Hlt|Hge].
    + rewrite (addFrame_throttled now ctx fb Hlt). split; assumption.
    + destruct ctx as [snap|].
      * assert (Ha : accepted now (Some snap) fb = true).
        { unfold accepted. apply andb_true_iff. split; [|reflexivity].
          apply negb_true_iff, Z.ltb_ge. exact Hge. }
        pose proof (addFrame_accepted now snap fb Ha) as E. cbv zeta in E.
        destruct (addFrame now (Some snap) fb) as [fb' r]. injection E as -> _.
        unfold timesOrdered. cbn [fst buffer frameInterval lastCaptureTime].
        assert (Hp : spaced (frameInterval fb)
                       (map timestamp (buffer fb ++ [frameOf now snap]))).
        { destruct (last_frame (buffer fb)) as [x|] eqn:E.
          - destruct (last_frame_snoc_inv _ _ E) as [l Hb]. rewrite Hb in Hs |- *.
            rewrite !map_app in *. cbn [map] in *. apply spaced_snoc; [exact Hs|].
            right. cbn. specialize (Hl x eq_refl). lia.
          - apply last_frame_nil_iff in E. rewrite E. cbn. exact I. }
        assert (Hq : forall x, last_frame (buffer fb ++ [frameOf now snap]) = Some x ->
                               timestamp x <= now)
          by (intros x; rewrite last_frame_app; intros [= <-]; cbn; lia).
        unfold keepLast. destruct (_ <? _)%nat; [|split; assumption].
        split.
        -- replace (map timestamp (tl (buffer fb ++ [frameOf now snap])))
             with (tl (map timestamp (buffer fb ++ [frameOf now snap])))
             by (destruct (buffer fb ++ [frameOf now snap]); reflexivity).
           apply spaced_tl, Hp.
        -- intros x Hx. destruct (buffer fb) as [|y rest]; [discriminate Hx|].
           cbn [app tl] in Hx. rewrite last_frame_app in Hx. injection Hx as <-. cbn. lia.
      * unfold addFrame. destruct (Z.ltb_spec (now - lastCaptureTime fb) (frameInterval fb));
          [lia|]. unfold timesOrdered. cbn. split; [exact Hs|].
        intros x Hx. specialize (Hl x Hx). lia.
  - change (timesOrdered (fst (getFrames fb))). unfold timesOrdered.
    change (frameInterval (fst (getFrames fb))) with (frameInterval fb).
    change (lastCaptureTime (fst (getFrames fb))) with (lastCaptureTime fb).
    rewrite getFrames_buffer.
    destruct (last_frame (buffer fb)) as [x|] eqn:E;
      [|split; [exact Hs | intros y Hy; rewrite E in Hy; discriminate Hy]].
    split.
    + destruct (last_frame_snoc_inv _ _ E) as [l Hb]. rewrite Hb in Hs |- *.
      generalize (maxFrames fb - length (l ++ [x]))%nat. intros k.
      induction k as [|k IH]; [cbn; rewrite app_nil_r; exact Hs|].
      replace (repeat x (S k)) with (repeat x k ++ [x])
        by (clear; induction k; cbn; [reflexivity | f_equal; assumption]).
      rewrite app_assoc.
      destruct k as [|k].
      * cbn [repeat] in *. rewrite app_nil_r in *. rewrite !map_app in *. cbn [map] in *.
        apply spaced_snoc; [exact Hs | left; reflexivity].
      * replace (repeat x (S k)) with (repeat x k ++ [x]) in *
          by (clear; induction k; cbn; [reflexivity | f_equal; assumption]).
        rewrite app_assoc in *. rewrite !map_app in *. cbn [map] in *.
        apply spaced_snoc; [exact IH | left; reflexivity].
    + intros y Hy. rewrite (last_frame_repeat _ _ _ E) in Hy. injection Hy as <-.
      apply Hl. reflexivity.
  - split; assumption.
  - unfold timesOrdered. cbn. split; [exact I | discriminate].
  - split; assumption.
  - split; assumption.
Qed.

(** With a throttle interval that is not negative, the frames in the window
    are in capture order, two neighbours being either copies made by
    [getFrames] or captured at least [frameInterval] apart. *)
Theorem stored_frames_spaced (n : nat) (iv : Z) (thr : float) (cs : list call) :
  0 <= iv ->
  spaced iv (map timestamp (buffer (fst (run cs (constructor n iv thr))))).
Proof.
  intros Hiv.
  assert (H : forall fb, frameInterval fb = iv -> timesOrdered fb ->
                         timesOrdered (fst (run cs fb)) /\ frameInterval (fst (run cs fb)) = iv).
  { induction cs as [|c cs IH]; intros fb Hf Ht; [split; assumption|].
    rewrite run_cons. cbn [fst]. apply IH.
    - rewrite exec_frameInterval. exact Hf.
    - apply exec_timesOrdered; [rewrite Hf; exact Hiv | exact Ht]. }
  destruct (H (constructor n iv thr) eq_refl) as [[Hs _] Hf].
  - split; [exact I | discriminate].
  - rewrite Hf in Hs. exact Hs.
Qed.

Lemma stored_frames_spaced_witness :
  spaced 200
    (map timestamp
       (buffer (fst (run [AddFrame 200 (Some dark); AddFrame 250 (Some lit);
                          AddFrame 400 (Some lit); GetFrames; AddFrame 900 (Some dark)]
                       default)))).
Proof. apply (stored_frames_spaced 8 200 default_motionThreshold). discriminate. Defined.

(** *** How many pushes readiness takes *)

Definition isGetFrames (c : call) : bool :=
  match c with GetFrames => true | _ => false end.

(** The calls that hand a snapshot to [addFrame]. *)
Definition pushes (cs : list call) : nat :=
  length (filter (fun c => match c with AddFrame _ (Some _) => true | _ => false end) cs).

Lemma ready_needs_pushes_from (cs : list call) : forall (fb : t) (k : nat),
  existsb isGetFrames cs = false ->
  (length (buffer fb) <= k)%nat ->
  (hasSignificantMotion fb = true -> 2 <= k)%nat ->
  existsb signalsReady (snd (run cs fb)) = true ->
  (maxFrames fb <= k + pushes cs)%nat /\ (2 <= k + pushes cs)%nat.
Proof.
  induction cs as [|c cs IH]; intros fb k Hg Hlen Hflag Hr; [discriminate Hr|].
  cbn [existsb] in Hg. apply orb_false_iff in Hg as [Hc Hg].
  rewrite run_cons in Hr. cbn [snd existsb] in Hr.
  destruct c as [now ctx| | | | |]; try discriminate Hc.
  - (* addFrame *)
    destruct (accepted now ctx fb) eqn:Ha.
    + destruct ctx as [snap|]; [|unfold accepted in Ha; rewrite andb_false_r in Ha; discriminate].
      pose proof (addFrame_accepted now snap fb Ha) as E. cbv zeta in E.
      cbn [exec] in Hr, IH. unfold pushes. cbn [filter length]. fold (pushes cs).
      destruct (addFrame now (Some snap) fb) as [fb' r] eqn:Eadd. injection E as Efb Er.
      cbn [fst snd] in Hr.
      assert (Hlen' : (length (buffer fb') <= S k)%nat).
      { rewrite Efb. cbn [buffer]. unfold keepLast. rewrite length_app. cbn [length].
        destruct (_ <? _)%nat.
        - destruct (buffer fb); cbn in *; [lia|]. rewrite length_app. cbn. lia.
        - rewrite length_app. cbn. lia. }
      assert (Hflag' : hasSignificantMotion fb' = true -> (2 <= S k)%nat).
      { rewrite Efb. cbn [hasSignificantMotion].
        destruct (last_frame (buffer fb)) as [x|] eqn:El.
        - intros _. destruct (buffer fb); [discriminate El | cbn in Hlen; lia].
        - intros H. specialize (Hflag H). lia. }
      assert (Hmax : maxFrames fb' = maxFrames fb) by (rewrite Efb; reflexivity).
      apply orb_true_iff in Hr as [Hr|Hr].
      * assert (Hb : r = Return true)
          by (destruct r as [[|]|]; [reflexivity | discriminate Hr | discriminate Hr]).
        rewrite Hb in Er. injection Er as Er. symmetry in Er.
        apply andb_true_iff in Er as [Hfull Hms]. apply Nat.leb_le in Hfull.
        subst fb'. cbn [buffer hasSignificantMotion] in Hlen', Hflag'.
        specialize (Hflag' Hms). lia.
      * destruct (IH fb' (S k) Hg Hlen' Hflag' Hr) as [H1 H2]. rewrite Hmax in H1. lia.
    + assert (E : fst (exec (AddFrame now ctx) fb) = fb \/
                  (ctx = None /\ buffer (fst (exec (AddFrame now ctx) fb)) = buffer fb /\
                   hasSignificantMotion (fst (exec (AddFrame now ctx) fb))
                     = hasSignificantMotion fb /\
                   maxFrames (fst (exec (AddFrame now ctx) fb)) = maxFrames fb)).
      { cbn [exec]. unfold accepted in Ha. unfold addFrame.
        destruct (now - lastCaptureTime fb <? frameInterval fb); [left; reflexivity|].
        destruct ctx; [discriminate Ha | right; repeat split]. }
      assert (Hrep : signalsReady (snd (exec (AddFrame now ctx) fb)) = false).
      { cbn [exec]. unfold accepted in Ha. unfold addFrame.
        destruct (now - lastCaptureTime fb <? frameInterval fb); [reflexivity|].
        destruct ctx; [discriminate Ha | reflexivity]. }
      rewrite Hrep in Hr. cbn [orb] in Hr.
      assert (Hp : (pushes cs <= pushes (AddFrame now ctx :: cs))%nat)
        by (unfold pushes; cbn [filter]; destruct ctx; cbn [length]; lia).
      destruct E as [E|(Ec & E1 & E2 & E3)].
      * rewrite E in Hr. destruct (IH fb k Hg Hlen Hflag Hr). lia.
      * destruct (IH _ k Hg ltac:(rewrite E1; exact Hlen) ltac:(rewrite E2; exact Hflag) Hr).
        rewrite E3 in *. lia.
  - cbn [exec fst snd signalsReady orb] in Hr. destruct (IH fb k Hg Hlen Hflag Hr).
    unfold pushes in *. cbn [filter]. lia.
  - cbn [exec fst snd signalsReady orb] in Hr.
    destruct (IH (clear fb) k Hg ltac:(cbn; lia) ltac:(cbn; discriminate) Hr).
    unfold pushes in *. cbn [filter]. cbn [clear maxFrames] in *. lia.
  - cbn [exec fst snd] in Hr. unfold pushes. cbn [filter]. fold (pushes cs).
    apply orb_true_iff in Hr as [Hr|Hr].
    + assert (Hb : isReady fb = true)
        by (cbn [signalsReady] in Hr; destruct (isReady fb); [reflexivity | discriminate Hr]).
      unfold isReady in Hb. apply andb_true_iff in Hb as [Hfull Hms].
      apply Nat.leb_le in Hfull. specialize (Hflag Hms). lia.
    + apply (IH fb k Hg Hlen Hflag Hr).
  - cbn [exec fst snd signalsReady orb] in Hr.
    destruct (IH (resetMotionFlag fb) k Hg Hlen ltac:(cbn; discriminate) Hr).
    unfold pushes in *. cbn [filter]. cbn [resetMotionFlag maxFrames] in *. lia.
Qed.

(** On a fresh buffer, as long as [getFrames] has not padded the window, no
    call answers [true] before [maxFrames] snapshots have been pushed, and
    never before the second push: motion needs a frame to compare with. *)
Theorem ready_needs_full_window (n : nat) (iv : Z) (thr : float) (cs : list call) :
  existsb isGetFrames cs = false ->
  existsb signalsReady (snd (run cs (constructor n iv thr))) = true ->
  (n <= pushes cs)%nat /\ (2 <= pushes cs)%nat.
Proof.
  intros Hg Hr.
  destruct (ready_needs_pushes_from cs (constructor n iv thr) 0 Hg) as [H1 H2];
    [cbn; lia | cbn; discriminate | exact Hr |].
  cbn in H1. lia.
Qed.

Lemma ready_needs_full_window_witness :
  (8 <= pushes [AddFrame 200 (Some dark); AddFrame 400 (Some dark); AddFrame 600 (Some dark);
                AddFrame 800 (Some dark); AddFrame 1000 (Some lit); AddFrame 1200 (Some lit);
                AddFrame 1400 (Some lit); AddFrame 1600 (Some lit)])%nat.
Proof.
  apply (ready_needs_full_window 8 200 default_motionThreshold); vm_compute; reflexivity.
Defined.

(** With [getFrames] in between it takes fewer: two pushes with motion,
    [getFrames], and the buffer reports ready. *)
Example padding_makes_ready_early :
  snd (run [AddFrame 200 (Some dark); AddFrame 400 (Some lit); GetFrames; IsReady] default) =
  [RBool (Return false); RBool (Return false);
   RFrames ["dark"; "lit"; "lit"; "lit"; "lit"; "lit"; "lit"; "lit"]%string;
   RBool (Return true)].
Proof. vm_compute. reflexivity. Qed.

(** *** Restart and re-arming *)

(** [clear] puts the buffer back into its constructed state: what follows a
    [clear] runs exactly as on a new buffer. *)
Theorem clear_restarts (n : nat) (iv : Z) (thr : float) (before after : list call) :
  run (before ++ Clear :: after) (constructor n iv thr) =
  (fst (run after (constructor n iv thr)),
   snd (run before (constructor n iv thr)) ++ RVoid :: snd (run after (constructor n iv thr))).
Proof.
  rewrite run_app, run_cons. cbn [exec fst snd].
  destruct (run_config before (constructor n iv thr)) as (H1 & H2 & H3).
  cbn [constructor maxFrames frameInterval motionThreshold] in H1, H2, H3.
  assert (E : clear (fst (run before (constructor n iv thr))) = constructor n iv thr)
    by (unfold clear; rewrite H1, H2, H3; reflexivity).
  rewrite E. reflexivity.
Qed.

(** After [resetMotionFlag] the stored frames alone never make the buffer
    ready again, full as the window may be: without a push that exceeds the
    threshold no call answers [true]. *)
Theorem reset_needs_new_motion (fb : t) (cs : list call) :
  staticScene cs (resetMotionFlag fb) = true ->
  existsb signalsReady (snd (run cs (resetMotionFlag fb))) = false.
Proof. intros Hs. apply static_replies; [reflexivity | exact Hs]. Qed.

(** A full window with motion seen, reset, then three more still frames. *)
Definition readyBuffer : t :=
  fst (run [AddFrame 200 (Some dark); AddFrame 400 (Some dark); AddFrame 600 (Some dark);
            AddFrame 800 (Some dark); AddFrame 1000 (Some lit); AddFrame 1200 (Some lit);
            AddFrame 1400 (Some lit); AddFrame 1600 (Some lit)] default).

Lemma reset_needs_new_motion_witness :
  isReady readyBuffer = true /\
  existsb signalsReady
    (snd (run [IsReady; AddFrame 1800 (Some lit); AddFrame 2000 (Some lit); IsReady]
            (resetMotionFlag readyBuffer))) = false.
Proof.
  split; [vm_compute; reflexivity|].
  apply reset_needs_new_motion. vm_compute. reflexivity.
Defined.

End FrameBufferMore.

(** ** More on the motion score: what it does not look at *)

Module MotionScoreMore.
Import JsNum FrameBuffer MotionScore.

(** Two byte arrays that agree on the three colour bytes of every pixel
    (the fourth byte of each pixel, alpha, is free). *)
Definition sameColours (d d' : list byte) : Prop :=
  length d = length d' /\
  forall p c, (c < 3)%nat -> nth_error d (4 * p + c) = nth_error d' (4 * p + c).

Lemma gray_sameColours (d d' : list byte) (p : nat) :
  sameColours d d' -> gray d (4 * p) = gray d' (4 * p).
Proof.
  intros [_ H]. unfold gray, channel.
  pose proof (H p 0%nat ltac:(lia)) as H0. rewrite Nat.add_0_r in H0.
  rewrite H0, (H p 1%nat), (H p 2%nat) by lia. reflexivity.
Qed.

Lemma countChanged_sameColours (d1 d1' d2 d2' : list byte) :
  sameColours d1 d1' -> sameColours d2 d2' ->
  forall fuel p c,
    countChanged fuel d1 d2 (4 * p) c = countChanged fuel d1' d2' (4 * p) c.
Proof.
  intros H1 H2 fuel. induction fuel as [|fuel IH]; intros p c; [reflexivity|].
  cbn [countChanged]. rewrite <- (proj1 H1).
  destruct (4 * p <? length d1)%nat; [|reflexivity].
  rewrite <- (gray_sameColours d1 d1' p H1), <- (gray_sameColours d2 d2' p H2).
  replace (4 * p + 4)%nat with (4 * S p)%nat by lia. apply IH.
Qed.

(** The alpha channel never influences the motion score: frames that differ
    from the given ones in alpha bytes only score the same. *)
Theorem calculateMotion_ignores_alpha (f1 f1' f2 f2' : ImageData) :
  width f1' = width f1 -> height f1' = height f1 ->
  width f2' = width f2 -> height f2' = height f2 ->
  sameColours (data f1) (data f1') -> sameColours (data f2) (data f2') ->
  calculateMotion f1' f2' = calculateMotion f1 f2.
Proof.
  intros W1 Hh1 W2 Hh2 S1 S2. unfold calculateMotion. rewrite W1, Hh1, W2, Hh2.
  destruct (negb (width f1 =? width f2)%nat || negb (height f1 =? height f2)%nat);
    [reflexivity|].
  cbv zeta. rewrite <- (proj1 S1).
  pose proof (countChanged_sameColours _ _ _ _ S1 S2 (length (data f1)) 0 0) as E.
  change (4 * 0)%nat with 0%nat in E. rewrite E. reflexivity.
Qed.

(** [frameA] and [frameB] with their alpha bytes changed. *)
Definition frameA' : ImageData :=
  {| width := 2; height := 1; data := [x07; x00; x00; x00; x10; x20; x30; x80] |}.
Definition frameB' : ImageData :=
  {| width := 2; height := 1; data := [x61; x00; x00; x7f; x10; x20; x30; x01] |}.

Lemma bytes8_sameColours (a0 a1 a2 a3 a4 a5 a6 a7 b3 b7 : byte) :
  sameColours [a0; a1; a2; a3; a4; a5; a6; a7] [a0; a1; a2; b3; a4; a5; a6; b7].
Proof.
  split; [reflexivity|]. intros p c Hc.
  assert (Hp : (p = 0 \/ p = 1 \/ 2 <= p)%nat) by lia.
  destruct Hp as [->|[->|Hp]].
  - destruct c as [|[|[|c]]]; [reflexivity | reflexivity | reflexivity | lia].
  - destruct c as [|[|[|c]]]; [reflexivity | reflexivity | reflexivity | lia].
  - transitivity (@None byte);
      [apply nth_error_None | symmetry; apply nth_error_None]; cbn [length]; lia.
Qed.

Lemma calculateMotion_ignores_alpha_witness :
  calculateMotion frameA' frameB' = calculateMotion frameA frameB.
Proof.
  apply calculateMotion_ignores_alpha; try reflexivity; apply bytes8_sameColours.
Defined.

(** *** Symmetry *)

(** The sign given to a rounded result does not show in its absolute value. *)
Lemma SFabs_binary_round (s : bool) (m : positive) (e : Z) :
  SFabs (binary_round prec emax s m e) = SFabs (binary_round prec emax false m e).
Proof.
  unfold binary_round. destruct (shl_align m e _) as [mz ez].
  unfold binary_round_aux.
  destruct (shr_fexp prec emax (Z.pos mz) ez loc_Exact) as [mrs' e'].
  destruct (shr_fexp prec emax _ e' loc_Exact) as [mrs'' e''].
  destruct (shr_m mrs''); [reflexivity | destruct (Z.leb _ _); reflexivity | reflexivity].
Qed.

Lemma SFabs_binary_normalize_opp (d e : Z) :
  SFabs (binary_normalize prec emax (- d) e false) = SFabs (binary_normalize prec emax d e false).
Proof.
  destruct d as [|p|p]; cbn [Z.opp binary_normalize]; [reflexivity| |];
    rewrite (SFabs_binary_round true); reflexivity.
Qed.

Lemma SFabs_sub_swap (x y : spec_float) :
  SFabs (SF64sub x y) = SFabs (SF64sub y x).
Proof.
  destruct x as [sx|sx| |sx mx ex], y as [sy|sy| |sy my ey];
    try (destruct sx, sy; reflexivity); try (destruct sx; reflexivity);
    try (destruct sy; reflexivity); try reflexivity.
  unfold SF64sub, SFsub. rewrite (Z.min_comm ey ex).
  set (a := cond_Zopp sx (Z.pos (fst (shl_align mx ex (Z.min ex ey))))).
  set (b := cond_Zopp sy (Z.pos (fst (shl_align my ey (Z.min ex ey))))).
  change (IntDef.Z.sub a b) with (a - b). change (IntDef.Z.sub b a) with (b - a).
  replace (b - a) with (- (a - b)) by lia.
  apply eq_sym, SFabs_binary_normalize_opp.
Qed.

(** [Math.abs(x - y) > t] and [Math.abs(y - x) > t] agree on all numbers. *)
Lemma abs_difference_swap (x y t : float) :
  js_gt (PrimFloat.abs (x - y)) t = js_gt (PrimFloat.abs (y - x)) t.
Proof.
  unfold js_gt.
  rewrite !FloatAxioms.ltb_spec, !FloatAxioms.abs_spec, !FloatAxioms.sub_spec, SFabs_sub_swap.
  reflexivity.
Qed.

Lemma countChanged_swap (d1 d2 : list byte) :
  length d1 = length d2 ->
  forall fuel i c, countChanged fuel d1 d2 i c = countChanged fuel d2 d1 i c.
Proof.
  intros Hlen fuel. induction fuel as [|fuel IH]; intros i c; [reflexivity|].
  cbn [countChanged]. rewrite <- Hlen. destruct (i <? length d1)%nat; [|reflexivity].
  rewrite abs_difference_swap. apply IH.
Qed.

(** The motion score does not depend on the order of the two frames, for
    rasters of the same length (as two well-formed frames of equal
    dimensions are). *)
Theorem calculateMotion_symmetric (f1 f2 : ImageData) :
  length (data f1) = length (data f2) ->
  calculateMotion f1 f2 = calculateMotion f2 f1.
Proof.
  intros Hlen. unfold calculateMotion.
  rewrite (Nat.eqb_sym (width f2)), (Nat.eqb_sym (height f2)).
  destruct (negb (width f1 =? width f2)%nat || negb (height f1 =? height f2)%nat);
    [reflexivity|].
  cbv zeta. rewrite <- Hlen, (countChanged_swap _ _ Hlen). reflexivity.
Qed.

Lemma calculateMotion_symmetric_witness :
  calculateMotion frameA frameB = calculateMotion frameB frameA.
Proof. apply calculateMotion_symmetric. reflexivity. Defined.

End MotionScoreMore.

(** ** More on the application page: history, batches, request spacing *)

Module ApplicationPageMore.
Import JsNum ApplicationPage ApplicationPageFacts.

(** What one call of [handleFrameCapture] can do. *)
Lemma handleFrameCapture_shape (closureActive : bool) (video : Video) (now captureNow : Z)
    (ctx : option FrameBuffer.Snapshot) (st : Page) :
  let '(p, effects, susp) := handleFrameCapture closureActive video now captureNow ctx st in
  let pushed := FrameBuffer.addFrame captureNow ctx (frameBufferRef st) in
  confidenceHistory p = confidenceHistory st /\
  timeCounterRef p = timeCounterRef st /\
  isCameraActive p = isCameraActive st /\
  currentPrediction p = currentPrediction st /\
  ((effects = [] /\ susp <> AwaitingPrediction /\
    lastProcessTimeRef p = lastProcessTimeRef st /\
    (frameBufferRef p = frameBufferRef st \/ frameBufferRef p = fst pushed)) \/
   (susp = AwaitingPrediction /\ closureActive = true /\
    FRAME_INTERVAL_MS <= now - lastProcessTimeRef st /\
    lastProcessTimeRef p = now /\
    snd pushed = Return true /\
    frameBufferRef p = fst (FrameBuffer.getFrames (fst pushed)) /\
    effects = [SetProcessingRef true; PredictLive (snd (FrameBuffer.getFrames (fst pushed)))])).
Proof.
  destruct st as [a b c d e f g h i j k l]. unfold handleFrameCapture.
  cbn [processingRef].
  destruct (h || negb closureActive) eqn:Eg;
    [cbn; repeat split; left; repeat split; [discriminate | left; reflexivity]|].
  apply orb_false_iff in Eg as [-> Ea]. apply negb_false_iff in Ea. subst closureActive.
  destruct ((0 <? videoWidth video)%nat && (0 <? videoHeight video)%nat);
    cbn [set_videoDimensions lastProcessTimeRef frameBufferRef];
    (destruct (Z.ltb_spec (now - i) FRAME_INTERVAL_MS) as [Hlt|Hge];
     [cbn; repeat split; left; repeat split; [discriminate | left; reflexivity]|]);
    destruct (FrameBuffer.addFrame captureNow ctx k) as [fb1 [[|]|msg]]; cbn;
    repeat split;
    try (right; repeat split; assumption);
    left; repeat split; try discriminate; right; reflexivity.
Qed.

(** *** Callbacks that outlive their render *)

(** The loop started while the camera was active keeps its callback after
    Stop: the page is inactive, yet the eighth of its pushes starts a
    request, under the same guard as any other. *)
Example stale_callback_after_stop :
  let s := steps (StartClicked :: StopClicked :: tl firstRequest) initial in
  isCameraActive (page s) = false /\
  unresolved s = 1%nat /\
  count isPredictLive (trace s) = 1%nat /\
  step (capture 1800 FrameBufferFacts.dark) s = s.
Proof. vm_compute. repeat split. Qed.

(** *** The confidence history *)

(** The history holds at most [MAX_HISTORY_POINTS] points, numbered
    consecutively up to the session's counter. *)
Definition historyNumbered (p : Page) : Prop :=
  (length (confidenceHistory p) <= MAX_HISTORY_POINTS)%nat /\
  (length (confidenceHistory p) <= timeCounterRef p)%nat /\
  map time (confidenceHistory p) =
  seq (timeCounterRef p - length (confidenceHistory p) + 1) (length (confidenceHistory p)).

Lemma lastN_length {A : Type} (n : nat) (l : list A) :
  length (lastN n l) = Nat.min n (length l).
Proof. unfold lastN. rewrite length_skipn. lia. Qed.

Lemma resume_historyNumbered (outcome : Settled) (now : Z) (st : Page) :
  historyNumbered st -> historyNumbered (fst (resumeFrameCapture outcome now st)).
Proof.
  intros (H1 & H2 & H3). destruct st as [a b c d e f g h i j k l].
  unfold historyNumbered in *. cbn [confidenceHistory timeCounterRef] in *.
  destruct outcome as [result|err]; unfold resumeFrameCapture; cbn.
  - assert (Hgoal :
      (length (lastN MAX_HISTORY_POINTS
                 (f ++ [{| time := l + 1;
                           confidencePercent := (confidence result * 100)%float;
                           pointTimestamp := now |}])) <= MAX_HISTORY_POINTS)%nat /\
      (length (lastN MAX_HISTORY_POINTS
                 (f ++ [{| time := l + 1;
                           confidencePercent := (confidence result * 100)%float;
                           pointTimestamp := now |}])) <= l + 1)%nat /\
      map time (lastN MAX_HISTORY_POINTS
                  (f ++ [{| time := l + 1;
                            confidencePercent := (confidence result * 100)%float;
                            pointTimestamp := now |}])) =
      seq (l + 1 - length (lastN MAX_HISTORY_POINTS
                             (f ++ [{| time := l + 1;
                                       confidencePercent := (confidence result * 100)%float;
                                       pointTimestamp := now |}])) + 1)
          (length (lastN MAX_HISTORY_POINTS
                     (f ++ [{| time := l + 1;
                               confidencePercent := (confidence result * 100)%float;
                               pointTimestamp := now |}])))).
    { rewrite lastN_length, length_app. cbn [length].
      split; [lia | split; [lia|]].
      unfold lastN. rewrite <- skipn_map, map_app, H3, length_app. cbn [map time length].
      replace (seq (l - length f + 1) (length f) ++ [(l + 1)%nat])
        with (seq (l - length f + 1) (length f + 1))
        by (rewrite seq_app; f_equal; cbn [seq]; f_equal; lia).
      rewrite skipn_seq. f_equal; unfold MAX_HISTORY_POINTS in *; lia. }
    destruct (actionChanged j (prediction result)); cbn; exact Hgoal.
  - auto.
Qed.

Lemma step_historyNumbered (e : Event) (s : System) :
  historyNumbered (page s) -> historyNumbered (page (step e s)).
Proof.
  intros H. destruct s as [p n tr]. cbn [page] in H.
  destruct e as [active video now captureNow ctx|outcome now| | |msg]; cbn [step page].
  - pose proof (handleFrameCapture_shape active video now captureNow ctx p) as Hs.
    destruct (handleFrameCapture active video now captureNow ctx p) as [[p' effects] susp].
    cbv zeta in Hs. destruct Hs as (E1 & E2 & _). cbn [page].
    unfold historyNumbered. rewrite E1, E2. exact H.
  - destruct n as [|k]; [exact H|].
    pose proof (resume_historyNumbered outcome now p H) as Hr.
    destruct (resumeFrameCapture outcome now p) as [p' effects]. exact Hr.
  - destruct p as [a b c d e f g h i j k l]. unfold historyNumbered. cbn. repeat split; lia.
  - destruct p as [a b c d e f g h i j k l]. unfold historyNumbered. cbn. repeat split; lia.
  - destruct p as [a b c d e f g h i j k l]. exact H.
Qed.

(** In every state the page can reach, by calls of any of its callbacks,
    the confidence history has at most 50 points and never more than the
    session's counter; the points carry consecutive numbers and the last
    one carries the counter: point [i] of [n] has number
    [counter - (n - 1 - i)].  They are the last (at most 50) successful
    predictions since the counter was reset. *)
Theorem history_bounded_and_numbered (evs : list Event) :
  let p := page (steps evs initial) in
  (length (confidenceHistory p) <= 50)%nat /\
  (length (confidenceHistory p) <= timeCounterRef p)%nat /\
  map time (confidenceHistory p) =
    seq (timeCounterRef p - length (confidenceHistory p) + 1)
        (length (confidenceHistory p)) /\
  (forall i pt, nth_error (confidenceHistory p) i = Some pt ->
     (time pt + length (confidenceHistory p) = timeCounterRef p + i + 1)%nat) /\
  (forall pt, nth_error (confidenceHistory p) (length (confidenceHistory p) - 1) = Some pt ->
     time pt = timeCounterRef p).
Proof.
  cbv zeta.
  assert (H : forall s, historyNumbered (page s) -> historyNumbered (page (steps evs s))).
  { induction evs as [|e evs IH]; intros s Hs; [exact Hs|].
    cbn [steps fold_left]. apply (IH (step e s)), step_historyNumbered, Hs. }
  destruct (H initial) as (H1 & H2 & H3).
  { unfold historyNumbered. cbn. repeat split; lia. }
  assert (Hnth : forall i pt,
            nth_error (confidenceHistory (page (steps evs initial))) i = Some pt ->
            (time pt + length (confidenceHistory (page (steps evs initial)))
             = timeCounterRef (page (steps evs initial)) + i + 1)%nat).
  { intros i pt Hi.
    assert (Hlt : (i < length (confidenceHistory (page (steps evs initial))))%nat)
      by (apply nth_error_Some; congruence).
    pose proof (map_nth_error time i _ Hi) as Hm. rewrite H3 in Hm.
    rewrite nth_error_seq in Hm.
    destruct (Nat.ltb_spec i (length (confidenceHistory (page (steps evs initial)))))
      as [_|Hge]; [|lia].
    injection Hm as Hm. lia. }
  split; [exact H1 | split; [exact H2 | split; [exact H3 | split; [exact Hnth|]]]].
  intros pt Hpt. pose proof (Hnth _ _ Hpt) as Hl.
  assert (Hlt : (length (confidenceHistory (page (steps evs initial))) - 1
                 < length (confidenceHistory (page (steps evs initial))))%nat)
    by (apply nth_error_Some; congruence).
  lia.
Qed.

(** Three results in a session: the points are numbered 1, 2, 3. *)
Example history_of_three :
  map time (confidenceHistory (page (steps
    (firstRequest ++
     [PredictionSettled (Resolved high) 1900;
      capture 2000 FrameBufferFacts.dark; PredictionSettled (Resolved high) 2100;
      capture 2200 FrameBufferFacts.lit; PredictionSettled (Resolved high) 2300])
    initial))) = [1; 2; 3]%nat.
Proof. vm_compute. reflexivity. Qed.

(** *** The batches sent to the classifier *)

Definition bufferOfEight (p : Page) : Prop :=
  FrameBuffer.maxFrames (frameBufferRef p) = 8%nat /\
  FrameBufferFacts.bounded (frameBufferRef p).

Lemma addFrame_as_exec (now : Z) (ctx : option FrameBuffer.Snapshot) (fb : FrameBuffer.t) :
  fst (FrameBuffer.addFrame now ctx fb) = fst (FrameBuffer.exec (FrameBuffer.AddFrame now ctx) fb).
Proof. cbn [FrameBuffer.exec]. destruct (FrameBuffer.addFrame now ctx fb); reflexivity. Qed.

Lemma getFrames_as_exec (fb : FrameBuffer.t) :
  fst (FrameBuffer.getFrames fb) = fst (FrameBuffer.exec FrameBuffer.GetFrames fb).
Proof. reflexivity. Qed.

Lemma addFrame_true_full (now : Z) (ctx : option FrameBuffer.Snapshot) (fb : FrameBuffer.t) :
  snd (FrameBuffer.addFrame now ctx fb) = Return true ->
  (FrameBuffer.maxFrames fb <= length (FrameBuffer.buffer (fst (FrameBuffer.addFrame now ctx fb))))%nat.
Proof.
  unfold FrameBuffer.addFrame.
  destruct (now - FrameBuffer.lastCaptureTime fb <? FrameBuffer.frameInterval fb);
    [discriminate|].
  destruct ctx as [snap|]; [|discriminate]. cbn. intros [= H].
  apply andb_true_iff in H as [H _]. apply Nat.leb_le in H. exact H.
Qed.

Definition eightFrames (e : Effect) : Prop :=
  match e with
  | PredictLive frames => length frames = 8%nat
  | _ => True
  end.

Lemma step_bufferOfEight (e : Event) (s : System) :
  bufferOfEight (page s) ->
  bufferOfEight (page (step e s)) /\
  exists effects, trace (step e s) = trace s ++ effects /\ Forall eightFrames effects.
Proof.
  intros [Hm Hb]. destruct s as [p n tr]. cbn [page trace] in *.
  destruct e as [active video now captureNow ctx|outcome now| | |msg]; cbn [step page trace].
  - pose proof (handleFrameCapture_shape active video now captureNow ctx p) as Hs.
    destruct (handleFrameCapture active video now captureNow ctx p) as [[p' effects] susp].
    cbv zeta in Hs. destruct Hs as (_ & _ & _ & _ & Hs). cbn [page trace].
    assert (Hm1 : FrameBuffer.maxFrames
                    (fst (FrameBuffer.addFrame captureNow ctx (frameBufferRef p))) = 8%nat)
      by (rewrite addFrame_as_exec, FrameBufferFacts.exec_maxFrames; exact Hm).
    assert (Hb1 : FrameBufferFacts.bounded
                    (fst (FrameBuffer.addFrame captureNow ctx (frameBufferRef p))))
      by (rewrite addFrame_as_exec; apply FrameBufferFacts.exec_bounded, Hb).
    destruct Hs as [(-> & _ & _ & [E|E])|(_ & _ & _ & _ & Hr & E & ->)].
    + split; [unfold bufferOfEight; rewrite E; split; assumption|].
      exists []. split; [reflexivity | constructor].
    + split; [unfold bufferOfEight; rewrite E; split; assumption|].
      exists []. split; [reflexivity | constructor].
    + split.
      * unfold bufferOfEight. rewrite E, getFrames_as_exec.
        rewrite FrameBufferFacts.exec_maxFrames.
        split; [exact Hm1 | apply FrameBufferFacts.exec_bounded, Hb1].
      * eexists. split; [reflexivity|]. repeat constructor. cbn [eightFrames].
        apply addFrame_true_full in Hr. unfold FrameBufferFacts.bounded in Hb1.
        rewrite FrameBufferFacts.getFrames_frames, length_map, FrameBufferFacts.getFrames_buffer.
        destruct (FrameBuffer.last_frame _); [rewrite length_app, repeat_length|]; lia.
  - destruct n as [|k].
    + cbn [page trace]. split; [split; assumption|].
      exists []. split; [symmetry; apply app_nil_r | constructor].
    + destruct p as [a b c d e f g h i j fb l]. cbn in Hm, Hb.
      destruct outcome as [result|err]; unfold resumeFrameCapture; cbn.
      * destruct (actionChanged j (prediction result)); cbn;
          (split; [split; assumption|]); eexists; (split; [reflexivity|]);
          repeat constructor.
      * split; [split; assumption|]. eexists. split; [reflexivity|]. repeat constructor.
  - destruct p as [a b c d e f g h i j fb l]. cbn in Hm, Hb |- *.
    split; [split; [exact Hm | unfold FrameBufferFacts.bounded; cbn; lia]|].
    exists []. split; [symmetry; apply app_nil_r | constructor].
  - destruct p as [a b c d e f g h i j fb l]. cbn in Hm, Hb |- *.
    split; [split; [exact Hm | unfold FrameBufferFacts.bounded; cbn; lia]|].
    eexists. split; [reflexivity|]. repeat constructor.
  - destruct p as [a b c d e f g h i j fb l]. cbn in Hm, Hb |- *.
    split; [split; assumption|].
    exists []. split; [symmetry; apply app_nil_r | constructor].
Qed.

Lemma trace_eightFrames (evs : list Event) :
  Forall eightFrames (trace (steps evs initial)).
Proof.
  assert (H : forall s, bufferOfEight (page s) -> Forall eightFrames (trace s) ->
                        Forall eightFrames (trace (steps evs s))).
  { induction evs as [|e evs IH]; intros s Hb Ht; [exact Ht|].
    cbn [steps fold_left]. destruct (step_bufferOfEight e s Hb) as [Hb' (effects & E & He)].
    apply (IH (step e s) Hb'). rewrite E. apply Forall_app. split; assumption. }
  apply H; [|constructor].
  split; [reflexivity | unfold FrameBufferFacts.bounded; cbn; lia].
Qed.

(** *** A result that arrives after Stop *)

(** When the session is stopped while a request is unresolved (started by
    whichever callback), the handler
    still runs to its end when the request succeeds: the stopped page shows
    the result, and since Stop forgot the last label the feedback is spoken
    whatever the label, after the [stopAudio] of the Stop handler. *)
Theorem late_result_after_stop (evs : list Event) (result : PredictionResponse) (now : Z) :
  unresolved (steps evs initial) = 1%nat ->
  let s := steps (evs ++ [StopClicked; PredictionSettled (Resolved result) now]) initial in
  isCameraActive (page s) = false /\
  currentPrediction (page s) = Some result /\
  audioTranscript (page s) = message result /\
  lastActionRef (page s) = Some (prediction result) /\
  processingRef (page s) = false /\
  trace s = trace (steps evs initial) ++
    [StopAudio;
     SpeakActionFeedback (prediction result) (confidence result) (message result);
     SetProcessingRef false].
Proof.
  intros Hn s. subst s. unfold steps. rewrite fold_left_app. fold (steps evs initial).
  destruct (steps evs initial) as [p n tr]. cbn [unresolved] in Hn. subst n.
  destruct p as [a b c d e f g h i j k l].
  cbn. rewrite <- app_assoc. repeat split.
Qed.

Lemma late_result_after_stop_witness :
  unresolved (steps firstRequest initial) = 1%nat /\
  currentPrediction
    (page (steps (firstRequest ++ [StopClicked; PredictionSettled (Resolved high) 1900])
             initial)) = Some high.
Proof.
  assert (H1 : unresolved (steps firstRequest initial) = 1%nat) by (vm_compute; reflexivity).
  split; [exact H1|].
  exact (proj1 (proj2 (late_result_after_stop firstRequest high 1900 H1))).
Defined.

(** *** Spacing of the requests *)

(** The handler's clock reading when the event starts a request. *)
Definition requestStarted (e : Event) (s : System) : option Z :=
  match e with
  | FrameCapture closureActive video now captureNow ctx =>
      match handleFrameCapture closureActive video now captureNow ctx (page s) with
      | (_, _, AwaitingPrediction) => Some now
      | _ => None
      end
  | _ => None
  end.

Fixpoint requestTimes (evs : list Event) (s : System) : list Z :=
  match evs with
  | [] => []
  | e :: evs' =>
      match requestStarted e s with
      | Some t => t :: requestTimes evs' (step e s)
      | None => requestTimes evs' (step e s)
      end
  end.

(** Each time is at least [FRAME_INTERVAL_MS] after the one before it, the
    first after [since]. *)
Fixpoint apartFrom (since : Z) (ts : list Z) : Prop :=
  match ts with
  | [] => True
  | t :: rest => FRAME_INTERVAL_MS <= t - since /\ apartFrom t rest
  end.

Lemma step_lastProcessTime (e : Event) (s : System) :
  match requestStarted e s with
  | Some t =>
      FRAME_INTERVAL_MS <= t - lastProcessTimeRef (page s) /\
      lastProcessTimeRef (page (step e s)) = t
  | None => lastProcessTimeRef (page (step e s)) = lastProcessTimeRef (page s)
  end.
Proof.
  destruct s as [p n tr].
  destruct e as [active video now captureNow ctx|outcome now| | |msg];
    cbn [requestStarted step page].
  - pose proof (handleFrameCapture_shape active video now captureNow ctx p) as Hs.
    destruct (handleFrameCapture active video now captureNow ctx p) as [[p' effects] susp].
    cbv zeta in Hs. destruct Hs as (_ & _ & _ & _ & Hs). cbn [page].
    destruct Hs as [(_ & Hne & E & _)|(-> & _ & Ht & E & _)].
    + destruct susp; [exact E | exact E | contradiction].
    + split; assumption.
  - destruct n as [|k]; [reflexivity|].
    destruct p as [a b c d e f g h i j fb l].
    destruct outcome as [result|err]; unfold resumeFrameCapture; cbn;
      [destruct (actionChanged j (prediction result))|]; reflexivity.
  - destruct p; reflexivity.
  - destruct p; reflexivity.
  - destruct p; reflexivity.
Qed.

Lemma requestTimes_apart (evs : list Event) : forall s : System,
  apartFrom (lastProcessTimeRef (page s)) (requestTimes evs s).
Proof.
  induction evs as [|e evs IH]; intros s; [exact I|].
  cbn [requestTimes]. pose proof (step_lastProcessTime e s) as H.
  destruct (requestStarted e s) as [t|].
  - destruct H as [Ht E]. cbn [apartFrom]. split; [exact Ht|].
    rewrite <- E. apply IH.
  - rewrite <- H. apply IH.
Qed.

(** Over any run of the page, by calls of any of its callbacks (those that
    outlive a Stop included), two successive [predictLive] requests start
    at least 200 ms apart on the handler's clock, whatever happens in
    between (results, failures, Stop and Start). *)
Theorem requests_spaced (evs : list Event) :
  apartFrom 0 (requestTimes evs initial).
Proof. exact (requestTimes_apart evs initial). Qed.

(** The session of [same_label_twice]: two requests, at 1600 and at 2000. *)
Example requestTimes_of_session :
  requestTimes (firstRequest ++
                [PredictionSettled (Resolved high) 1900;
                 capture 1700 FrameBufferFacts.dark;
                 capture 2000 FrameBufferFacts.dark;
                 PredictionSettled (Resolved high) 2100]) initial = [1600; 2000].
Proof. vm_compute. reflexivity. Qed.

End ApplicationPageMore.

(** ** The API service: [predictLive] *)

From Stdlib Require DecimalString.

Module Api.
Import ApplicationPage.

(** What [fetch] comes back with: a rejection, or a response with its
    [ok] flag, its status, and what [response.text()] and [response.json()]
    give (a value, or the error they reject with). *)
Inductive Fetched : Type :=
| NetworkError (err : Thrown)
| Response (ok : bool) (status : nat) (text : string + Thrown)
    (json : PredictionResponse + Thrown).

(** [`${response.status}`]. *)
Definition statusText (status : nat) : string :=
  DecimalString.NilEmpty.string_of_uint (Nat.to_uint status).

(** The padding at the head of [predictLive]. *)
Definition framesToSend (frames : list string) : list string :=
  if (length frames <? 8)%nat && (0 <? length frames)%nat then
    match nth_error frames (length frames - 1) with
    | Some lastFrame => frames ++ repeat lastFrame (8 - length frames)
    | None => frames
    end
  else frames.

(** [predictLive(frames)] against a network that answers a request for the
    given frames with [fetch]: the bodies posted, in order, and how the
    returned promise settles. *)
Definition predictLive (fetch : list string -> Fetched) (frames : list string)
  : list (list string) * Settled :=
  let sent := framesToSend frames in
  if (length sent =? 0)%nat then
    ([], Rejected (ErrorObject "No frames provided for prediction"))
  else
    ([sent],
     match fetch sent with
     | NetworkError err => Rejected err
     | Response ok status text json =>
         if negb ok then
           match text with
           | inl errorText =>
               Rejected (ErrorObject
                           ("Prediction failed: " ++ statusText status ++ " " ++ errorText))
           | inr err => Rejected err
           end
         else
           match json with
           | inl data => Resolved data
           | inr err => Rejected err
           end
     end).

Lemma framesToSend_cases (frames : list string) :
  framesToSend frames = frames /\ (frames = [] \/ 8 <= length frames)%nat \/
  exists lastFrame,
    nth_error frames (length frames - 1) = Some lastFrame /\
    (0 < length frames < 8)%nat /\
    framesToSend frames = frames ++ repeat lastFrame (8 - length frames).
Proof.
  unfold framesToSend.
  destruct (Nat.ltb_spec (length frames) 8) as [Hlt|Hge]; cbn [andb].
  - destruct (Nat.ltb_spec 0 (length frames)) as [Hpos|Hz].
    + destruct (nth_error frames (length frames - 1)) as [lastFrame|] eqn:E.
      * right. exists lastFrame. repeat split; [lia | exact Hlt].
      * apply nth_error_None in E. lia.
    + left. split; [reflexivity|]. left. destruct frames; [reflexivity | cbn in Hz; lia].
  - left. split; [reflexivity | right; exact Hge].
Qed.

(** [predictLive] never posts an empty batch: given no frames it rejects
    with its own error before any request.  Given at least one frame it
    posts exactly one batch, which begins with the given frames, is padded
    with copies of the last one up to eight, and is never cut: more than
    eight frames are sent as they are. *)
Theorem predictLive_batch (fetch : list string -> Fetched) (frames : list string) :
  (frames = [] ->
   predictLive fetch frames =
   ([], Rejected (ErrorObject "No frames provided for prediction"))) /\
  (frames <> [] ->
   exists sent,
     fst (predictLive fetch frames) = [sent] /\
     length sent = Nat.max 8 (length frames) /\
     firstn (length frames) sent = frames /\
     (forall i x, (length frames <= i)%nat -> nth_error sent i = Some x ->
                  nth_error frames (length frames - 1) = Some x)).
Proof.
  split.
  - intros ->. reflexivity.
  - intros Hne. unfold predictLive. cbv zeta.
    assert (Hpos : (0 < length frames)%nat) by (destruct frames; [contradiction | cbn; lia]).
    destruct (framesToSend_cases frames) as [[E Hc]|(lastFrame & El & Hr & E)]; rewrite E.
    + destruct Hc as [->|Hge]; [contradiction|].
      destruct (Nat.eqb_spec (length frames) 0) as [Hz|_]; [lia|].
      exists frames. cbn [fst]. repeat split; [lia | apply firstn_all |].
      intros i x Hi Hx. apply nth_error_None in Hi. congruence.
    + destruct (Nat.eqb_spec (length (frames ++ repeat lastFrame (8 - length frames))) 0)
        as [Hz|_]; [rewrite length_app in Hz; lia|].
      eexists. cbn [fst]. split; [reflexivity|].
      rewrite length_app, repeat_length. split; [lia|]. split.
      * rewrite firstn_app, firstn_all, Nat.sub_diag. cbn. apply app_nil_r.
      * intros i x Hi Hx. rewrite nth_error_app2 in Hx by exact Hi.
        apply nth_error_In, repeat_spec in Hx. subst x. exact El.
Qed.

Definition threeFrames : list string := ["a"; "b"; "c"]%string.

Lemma predictLive_batch_witness :
  exists sent,
    fst (predictLive (fun _ => NetworkError OtherValue) threeFrames) = [sent] /\
    length sent = Nat.max 8 (length threeFrames) /\
    firstn (length threeFrames) sent = threeFrames /\
    (forall i x, (length threeFrames <= i)%nat -> nth_error sent i = Some x ->
                 nth_error threeFrames (length threeFrames - 1) = Some x).
Proof.
  apply (proj2 (predictLive_batch (fun _ => NetworkError OtherValue) threeFrames)).
  discriminate.
Defined.

Example predictLive_pads_three :
  fst (predictLive (fun _ => NetworkError OtherValue) threeFrames) =
  [["a"; "b"; "c"; "c"; "c"; "c"; "c"; "c"]%string].
Proof. reflexivity. Qed.

(** A response that is not [ok] rejects with an [Error] whose message names
    the status and carries the body text; in the page this is the text put
    into the [error] state, while the guard is released and the motion flag
    reset as for every failure. *)
Theorem predictLive_failure_surfaces (fetch : list string -> Fetched)
    (frames : list string) (status : nat) (text : string)
    (json : PredictionResponse + Thrown) (now : Z) (st : Page) :
  frames <> [] ->
  fetch (framesToSend frames) = Response false status (inl text) json ->
  let msg := ("Prediction failed: " ++ statusText status ++ " " ++ text)%string in
  snd (predictLive fetch frames) = Rejected (ErrorObject msg) /\
  error (fst (resumeFrameCapture (snd (predictLive fetch frames)) now st)) = Some msg /\
  processingRef (fst (resumeFrameCapture (snd (predictLive fetch frames)) now st)) = false.
Proof.
  intros Hne Hf msg.
  assert (E : snd (predictLive fetch frames) = Rejected (ErrorObject msg)).
  { unfold predictLive. cbv zeta.
    destruct (Nat.eqb_spec (length (framesToSend frames)) 0) as [Hz|_].
    - exfalso. destruct (framesToSend_cases frames) as [[E Hc]|(lastFrame & _ & Hr & E)];
        rewrite E in Hz.
      + destruct frames; [contradiction | discriminate Hz].
      + rewrite length_app in Hz. lia.
    - cbn [snd]. rewrite Hf. reflexivity. }
  rewrite E. destruct st as [a b c d e f g h i j k l]. repeat split.
Qed.

Lemma predictLive_failure_surfaces_witness :
  error (fst (resumeFrameCapture
                (snd (predictLive (fun _ => Response false 503 (inl "Service Unavailable"%string)
                                                (inr OtherValue)) ["a"]%string))
                1900 mounted))
  = Some "Prediction failed: 503 Service Unavailable"%string.
Proof.
  refine (proj1 (proj2 (predictLive_failure_surfaces
            (fun _ => Response false 503 (inl "Service Unavailable"%string) (inr OtherValue))
            ["a"]%string 503 "Service Unavailable" (inr OtherValue) 1900 mounted _ eq_refl))).
  discriminate.
Defined.

(** What [predictLive] posts for the batch of a [PredictLive] effect. *)
Definition postedAsIs (e : Effect) : Prop :=
  match e with
  | PredictLive frames =>
      length frames = 8%nat /\
      forall fetch, fst (predictLive fetch frames) = [frames]
  | _ => True
  end.

(** Every batch the page hands to [predictLive], in any run and from any
    of its callbacks (those that outlive a Stop included), holds exactly
    eight encoded frames, and [predictLive] posts it in one request without
    adding or dropping a frame. *)
Theorem batches_have_eight_frames (evs : list Event) :
  Forall postedAsIs (trace (steps evs initial)).
Proof.
  pose proof (ApplicationPageMore.trace_eightFrames evs) as H.
  induction H as [|e tr He _ IH]; constructor; [|exact IH].
  destruct e as [v|frames|a c m| |w]; try exact I.
  cbn in He |- *. split; [exact He|]. intros fetch.
  assert (E : framesToSend frames = frames)
    by (unfold framesToSend; rewrite He; reflexivity).
  unfold predictLive. cbv zeta. rewrite E, He. reflexivity.
Qed.

End Api.

(** ** More on the text-to-speech service *)

Module TtsServiceMore.
Import TtsService.

(** What can happen to the service: a call of [speakActionFeedback] reaches
    the end of [generateAudio]; a playing element ends or fails (its call
    then falls back to speech synthesis with its own text); the utterance
    being spoken ends; [stopAudio] is called. *)
Inductive Op : Type :=
| Speak (action : string) (confidence : float) (message : option string) (ans : Answer)
| AudioEnded (a : nat)
| AudioErrored (a : nat) (action : string) (message : option string)
| UtteranceEnded
| Stop.

Definition isPlayingElement (a : nat) (w : World) : bool := existsb (Nat.eqb a) (playing w).

Definition utteranceEnded (w : World) : World :=
  {| currentAudio := currentAudio w; isPlaying := isPlaying w;
     playing := playing w; utterances := tl (utterances w);
     constructedAudio := constructedAudio w;
     hasSpeechSynthesis := hasSpeechSynthesis w |}.

(** [onended] and [onerror] fire for an element that is playing. *)
Definition runOp (o : Op) (w : World) : World :=
  match o with
  | Speak action confidence message ans => speakActionFeedback action confidence message ans w
  | AudioEnded a => if isPlayingElement a w then audioEnded a w else w
  | AudioErrored a action message =>
      if isPlayingElement a w
      then fallbackTTS (getActionFeedback action message) (audioEnded a w)
      else w
  | UtteranceEnded => utteranceEnded w
  | Stop => stopAudio w
  end.

Definition runOps (ops : list Op) (w : World) : World := fold_left (fun w o => runOp o w) ops w.

(** A browser with or without speech synthesis, nothing playing. *)
Definition quiet (synthesis : bool) : World :=
  {| currentAudio := None; isPlaying := false; playing := []; utterances := [];
     constructedAudio := 0; hasSpeechSynthesis := synthesis |}.

(** The element that plays, if any, is the tracked one; without speech
    synthesis nothing is queued. *)
Definition wellTracked (w : World) : Prop :=
  (playing w = [] \/
   exists a, playing w = [a] /\ currentAudio w = Some a /\ isPlaying w = true) /\
  (hasSpeechSynthesis w = false -> utterances w = []).

Lemma fallbackTTS_wellTracked (text : string) (w : World) :
  wellTracked w -> wellTracked (fallbackTTS text w).
Proof.
  intros Hw. unfold fallbackTTS. destruct (hasSpeechSynthesis w) eqn:E; [|exact Hw].
  destruct Hw as [Hp Hu]. split; [exact Hp | cbn; congruence].
Qed.

Lemma pause_tracked (w : World) :
  wellTracked w ->
  match currentAudio w with
  | Some a => if isPlaying w then pause a (playing w) = [] else playing w = []
  | None => playing w = []
  end.
Proof.
  intros [[Hp|(a & Hp & Hc & Hi)] _].
  - rewrite Hp. destruct (currentAudio w); [destruct (isPlaying w)|]; reflexivity.
  - rewrite Hc, Hi, Hp. cbn. rewrite Nat.eqb_refl. reflexivity.
Qed.

Lemma audioEnded_wellTracked (a : nat) (w : World) :
  wellTracked w -> isPlayingElement a w = true -> wellTracked (audioEnded a w).
Proof.
  intros [[Hp|(b & Hp & Hc & Hi)] Hu] Ha; unfold isPlayingElement in Ha; rewrite Hp in Ha.
  - discriminate Ha.
  - cbn in Ha. rewrite orb_false_r in Ha. apply Nat.eqb_eq in Ha. subst b.
    split; [left; cbn; rewrite Hp; cbn; rewrite Nat.eqb_refl; reflexivity | exact Hu].
Qed.

Lemma runOp_wellTracked (o : Op) (w : World) : wellTracked w -> wellTracked (runOp o w).
Proof.
  intros Hw. pose proof (pause_tracked w Hw) as Hq. destruct Hw as [Hp Hu].
  destruct o as [action confidence message ans|a|a action message| |]; cbn [runOp].
  - unfold speakActionFeedback. destruct (audio_base64 ans) as [b64|];
      [|apply fallbackTTS_wellTracked; split; assumption].
    unfold playAudioFromBase64.
    destruct (currentAudio w) as [a|] eqn:Ec; [destruct (isPlaying w) eqn:Ei|];
      destruct (decodable ans); cbn [negb]; try destruct (playable ans);
      try apply fallbackTTS_wellTracked; cbn; unfold wellTracked; cbn;
      rewrite ?Hq, ?Ec, ?Ei; cbn;
      (split; [first [left; reflexivity | right; eexists; repeat split | left; exact Hq
                     | right; rewrite Hq; eexists; repeat split]
              | exact Hu]).
  - destruct (isPlayingElement a w) eqn:Ea; [|split; assumption].
    apply audioEnded_wellTracked; [split; assumption | exact Ea].
  - destruct (isPlayingElement a w) eqn:Ea; [|split; assumption].
    apply fallbackTTS_wellTracked, audioEnded_wellTracked; [split; assumption | exact Ea].
  - split; [exact Hp|]. cbn. intros H. rewrite (Hu H). reflexivity.
  - unfold stopAudio.
    destruct (currentAudio w) as [a|] eqn:Ec; [destruct (isPlaying w) eqn:Ei|];
      cbn; destruct (hasSpeechSynthesis w) eqn:Es; unfold wellTracked; cbn;
      rewrite ?Hq, ?Ec, ?Ei, ?Es;
      (split; [left; first [reflexivity | exact Hq] | first [discriminate | exact Hu | reflexivity | congruence]]).
Qed.

Lemma runOps_wellTracked (ops : list Op) : forall w, wellTracked w -> wellTracked (runOps ops w).
Proof.
  induction ops as [|o ops IH]; intros w Hw; [exact Hw|].
  cbn [runOps fold_left]. apply (IH (runOp o w)), runOp_wellTracked, Hw.
Qed.

Lemma quiet_wellTracked (synthesis : bool) : wellTracked (quiet synthesis).
Proof. split; [left; reflexivity | reflexivity]. Qed.

(** Whatever the calls, answers and playback events ([onended] and
    [onerror] coming from the element that plays), at most one audio
    element plays at a time and it is the one [currentAudio] tracks; a
    second session can only be the speech synthesiser. *)
Theorem one_audio_element_at_a_time (synthesis : bool) (ops : list Op) :
  let w := runOps ops (quiet synthesis) in
  (length (playing w) <= 1)%nat /\
  (forall a, In a (playing w) -> currentAudio w = Some a /\ isPlaying w = true) /\
  (activeSessions w <= 2)%nat.
Proof.
  cbv zeta. destruct (runOps_wellTracked ops _ (quiet_wellTracked synthesis)) as [Hp _].
  unfold activeSessions.
  destruct Hp as [Hp|(a & Hp & Hc & Hi)]; rewrite Hp; cbn [length In].
  - repeat split; try lia; try contradiction.
    destruct (utterances _); lia.
  - repeat split; try lia.
    + destruct H as [<-|[]]. exact Hc.
    + exact Hi.
    + destruct (utterances _); lia.
Qed.

(** [stopAudio] leaves nothing audible in any state the service can be in,
    and calling it again changes nothing. *)
Theorem stopAudio_silences_all (synthesis : bool) (ops : list Op) :
  let w := runOps ops (quiet synthesis) in
  activeSessions (stopAudio w) = 0%nat /\
  stopAudio (stopAudio w) = stopAudio w.
Proof.
  cbv zeta. pose proof (runOps_wellTracked ops _ (quiet_wellTracked synthesis)) as Hw.
  pose proof (pause_tracked _ Hw) as Hq. destruct Hw as [_ Hu].
  destruct (runOps ops (quiet synthesis)) as [c i p u n s].
  cbn [currentAudio isPlaying playing utterances hasSpeechSynthesis] in *.
  unfold stopAudio, activeSessions. cbn [currentAudio isPlaying playing hasSpeechSynthesis].
  destruct c as [a|]; [destruct i|]; destruct s; cbn; rewrite ?Hq; cbn;
    rewrite ?(Hu eq_refl); split; reflexivity.
Qed.

(** The feedback text is never empty: a non-empty message of the back end
    is used as it is, and otherwise the text chosen by the label. *)
Theorem feedback_text_never_empty (action : string) (message : option string) :
  getActionFeedback action message <> ""%string /\
  (forall m, message = Some m -> m <> ""%string -> getActionFeedback action message = m) /\
  (message = None \/ message = Some ""%string ->
   getActionFeedback action message =
   if String.eqb action "High" then "Great shot!"%string else "Keep practicing!"%string).
Proof.
  unfold getActionFeedback. split; [|split].
  - destruct message as [[|c m]|]; try discriminate;
      destruct (String.eqb action "High"); discriminate.
  - intros m -> Hm. destruct m; [contradiction | reflexivity].
  - intros [->| ->]; reflexivity.
Qed.

Lemma feedback_text_never_empty_witness :
  getActionFeedback "Not High" (Some ""%string) = "Keep practicing!"%string /\
  getActionFeedback "Not High" (Some "Nice"%string) = "Nice"%string.
Proof.
  destruct (feedback_text_never_empty "Not High" (Some ""%string)) as (_ & _ & H3).
  destruct (feedback_text_never_empty "Not High" (Some "Nice"%string)) as (_ & H2 & _).
  split; [exact (H3 (or_intror eq_refl)) | apply (H2 _ eq_refl); discriminate].
Defined.

End TtsServiceMore.

(** ** The pose detector advance by advance: calls that overlap *)

Module PoseDetectionSteps.
Import PoseDetection.

(** Where an initialization stands: the [await] it is suspended at, or how
    its promise settled. *)
Inductive Stage : Type :=
| AwaitingReady
| AwaitingLightning
| AwaitingThunder
| AwaitingBlazePose
| Done (o : Outcome).

(** The module variables together with every initialization started so
    far (by index), the [createDetector] calls made, the detectors whose
    [dispose()] was called and the [console.error] lines. *)
Record Service : Type := {
  vars : State;
  attempts : list Stage;
  requested : list ModelVariant;
  disposed : list nat;
  logged : list string
}.

Inductive ServiceEvent : Type :=
| InitializeCalled
| Settles (i : nat) (result : option nat)
| DisposeCalled (throws : bool).

Definition hasDetector (st : State) : bool :=
  match detector st with Some _ => true | None => false end.

Definition setPromise (p : bool) (st : State) : State :=
  {| detector := detector st; isInitialized := isInitialized st;
     initializationPromise := p |}.

Fixpoint setStage (i : nat) (g : Stage) (l : list Stage) : list Stage :=
  match l, i with
  | [], _ => []
  | _ :: rest, O => g :: rest
  | x :: rest, S j => x :: setStage j g rest
  end.

(** The first [catch]: log, clear the promise, ask for MoveNet Thunder. *)
Definition enterThunder (i : nat) (s : Service) : Service :=
  {| vars := setPromise false (vars s);
     attempts := setStage i AwaitingThunder (attempts s);
     requested := requested s ++ [MoveNetThunder];
     disposed := disposed s;
     logged := logged s ++ ["Failed to initialize MoveNet Lightning, trying MoveNet Thunder..."%string] |}.

(** [detector = ...; isInitialized = true;] and, where the source has it,
    [initializationPromise = null]. *)
Definition install (i : nat) (d : nat) (clearsPromise : bool) (s : Service) : Service :=
  {| vars := {| detector := Some d; isInitialized := true;
                initializationPromise :=
                  if clearsPromise then false else initializationPromise (vars s) |};
     attempts := setStage i (Done Resolved) (attempts s);
     requested := requested s;
     disposed := disposed s;
     logged := logged s |}.

(** Attempt [i], suspended at stage [g], is resumed with what it awaited:
    [Some d] when that resolved (with detector [d], for a construction),
    [None] when it rejected. *)
Definition settle (i : nat) (g : Stage) (result : option nat) (s : Service) : Service :=
  match g, result with
  | AwaitingReady, Some _ =>
      {| vars := vars s;
         attempts := setStage i AwaitingLightning (attempts s);
         requested := requested s ++ [MoveNetLightning];
         disposed := disposed s;
         logged := logged s |}
  | AwaitingReady, None => enterThunder i s
  | AwaitingLightning, Some d => install i d true s
  | AwaitingLightning, None => enterThunder i s
  | AwaitingThunder, Some d => install i d true s
  | AwaitingThunder, None =>
      {| vars := setPromise false (vars s);
         attempts := setStage i AwaitingBlazePose (attempts s);
         requested := requested s ++ [BlazePoseLite];
         disposed := disposed s;
         logged := logged s ++ ["Failed to initialize MoveNet Thunder, trying BlazePose..."%string] |}
  | AwaitingBlazePose, Some d => install i d false s
  | AwaitingBlazePose, None =>
      {| vars := vars s;
         attempts := setStage i (Done (Rejected initializationError)) (attempts s);
         requested := requested s;
         disposed := disposed s;
         logged := logged s ++ ["Failed to initialize pose detector:"%string] |}
  | Done _, _ => s
  end.

Definition advance (e : ServiceEvent) (s : Service) : Service :=
  match e with
  | InitializeCalled =>
      if isInitialized (vars s) && hasDetector (vars s) then s
      else if initializationPromise (vars s) then s
      else
        {| vars := setPromise true (vars s);
           attempts := attempts s ++ [AwaitingReady];
           requested := requested s;
           disposed := disposed s;
           logged := logged s |}
  | Settles i result =>
      match nth_error (attempts s) i with
      | Some g => settle i g result s
      | None => s
      end
  | DisposeCalled throws =>
      match detector (vars s) with
      | Some d =>
          {| vars := unloaded;
             attempts := attempts s;
             requested := requested s;
             disposed := disposed s ++ [d];
             logged := if throws
                       then logged s ++ ["Error disposing pose detector:"%string]
                       else logged s |}
      | None => s
      end
  end.

Definition advances (evs : list ServiceEvent) (s : Service) : Service :=
  fold_left (fun s e => advance e s) evs s.

Definition idle : Service :=
  {| vars := unloaded; attempts := []; requested := []; disposed := []; logged := [] |}.

Definition firstStage (g : Stage) : bool :=
  match g with AwaitingReady | AwaitingLightning => true | _ => false end.

Definition suspended (g : Stage) : bool :=
  match g with Done _ => false | _ => true end.

Definition inFlight (s : Service) : nat := length (filter suspended (attempts s)).

(** What attempt [i] meets when nothing else runs in between: the
    settlements that the back end [env] gives, in order. *)
Definition script (env : Backend) (i : nat) : list ServiceEvent :=
  let fromThunder :=
    match createDetector env MoveNetThunder with
    | Some d => [Settles i (Some d)]
    | None => [Settles i None; Settles i (createDetector env BlazePoseLite)]
    end in
  if tfReady env then
    Settles i (Some 0%nat) ::
    match createDetector env MoveNetLightning with
    | Some d => [Settles i (Some d)]
    | None => Settles i None :: fromThunder
    end
  else Settles i None :: fromThunder.

Lemma advances_cons (e : ServiceEvent) (evs : list ServiceEvent) (s : Service) :
  advances (e :: evs) s = advances evs (advance e s).
Proof. reflexivity. Qed.

Lemma nth_error_last (l : list Stage) (g : Stage) :
  nth_error (l ++ [g]) (length l) = Some g.
Proof. induction l as [|x l IH]; [reflexivity | exact IH]. Qed.

Lemma setStage_last (l : list Stage) (g g' : Stage) :
  setStage (length l) g' (l ++ [g]) = l ++ [g'].
Proof. induction l as [|x l IH]; [reflexivity | cbn; rewrite IH; reflexivity]. Qed.

Lemma setStage_length (i : nat) (g : Stage) (l : list Stage) :
  length (setStage i g l) = length l.
Proof.
  revert i; induction l as [|x l IH]; intros [|i]; cbn; try reflexivity.
  rewrite IH. reflexivity.
Qed.

Lemma setStage_nth_same (l : list Stage) : forall i g g',
  nth_error l i = Some g -> nth_error (setStage i g' l) i = Some g'.
Proof.
  induction l as [|x l IH]; intros [|i] g g' H; cbn in *; try discriminate; [reflexivity|].
  exact (IH i g g' H).
Qed.

Lemma setStage_inFlight (l : list Stage) : forall i g g',
  nth_error l i = Some g -> suspended g = suspended g' ->
  length (filter suspended (setStage i g' l)) = length (filter suspended l).
Proof.
  induction l as [|x l IH]; intros [|i] g g' H Hs; cbn in *; try discriminate.
  - injection H as ->. rewrite Hs. destruct (suspended g'); reflexivity.
  - destruct (suspended x); cbn; rewrite (IH i g g' H Hs); reflexivity.
Qed.

Lemma setStage_last_stage (l : list Stage) : forall i g g' dflt,
  nth_error l i = Some g ->
  last (setStage i g' l) dflt = if Nat.eqb (S i) (length l) then g' else last l dflt.
Proof.
  induction l as [|x l IH]; intros [|i] g g' dflt H; cbn [nth_error] in H; try discriminate.
  - destruct l as [|y l]; reflexivity.
  - cbn [setStage length]. pose proof (IH i g g' dflt H) as E.
    destruct l as [|y l]; [destruct i; discriminate H|].
    change (Nat.eqb (S (S i)) (S (length (y :: l)))) with (Nat.eqb (S i) (length (y :: l))).
    destruct (setStage i g' (y :: l)) as [|z r] eqn:Ez.
    + destruct i; discriminate Ez.
    + cbn [last]. exact E.
Qed.

(** An initialization that nothing interrupts passes through exactly the
    states of the call run as a whole: same module variables at the end,
    same constructions in the same order, same error lines, same outcome. *)
Theorem uninterrupted_initialization (env : Backend) (st : State)
    (others : list Stage) (gone : list nat) :
  starts st ->
  let s0 := {| vars := st; attempts := others; requested := []; disposed := gone;
               logged := [] |} in
  let s := advances (InitializeCalled :: script env (length others)) s0 in
  let r := initializePoseDetector env st in
  vars s = final r /\ requested s = constructed r /\ logged s = errorsLogged r /\
  attempts s = others ++ [Done (outcome r)] /\ disposed s = gone.
Proof.
  intros [Hp Hi]. cbv zeta. unfold initializePoseDetector. rewrite Hi, Hp.
  rewrite advances_cons. cbn [advance vars]. fold (hasDetector st) in Hi |- *.
  rewrite Hi, Hp. unfold script, tryThunder, tryBlazePose.
  destruct (tfReady env);
    destruct (createDetector env MoveNetLightning) as [d1|];
    destruct (createDetector env MoveNetThunder) as [d2|];
    destruct (createDetector env BlazePoseLite) as [d3|];
    repeat first [ rewrite nth_error_last
                 | rewrite setStage_last
                 | progress cbn [advances fold_left advance settle enterThunder install attempts] ];
    cbn; repeat split.
Qed.

Definition unloadedStarts : starts unloaded := conj eq_refl eq_refl.

Lemma uninterrupted_initialization_witness :
  let s := advances (InitializeCalled :: script nothingLoads 0) idle in
  vars s = unloaded /\
  requested s = variants /\
  attempts s = [Done (Rejected initializationError)].
Proof.
  destruct (uninterrupted_initialization nothingLoads unloaded [] [] unloadedStarts)
    as (H1 & H2 & _ & H4 & _).
  exact (conj H1 (conj H2 H4)).
Defined.

(** Between events the flag and the detector agree, and a promise that is
    set belongs to the attempt started last, which is still in its first
    stage ([tf.ready()] or MoveNet Lightning). *)
Definition consistent (s : Service) : Prop :=
  isInitialized (vars s) = hasDetector (vars s) /\
  (initializationPromise (vars s) = true ->
   firstStage (last (attempts s) (Done Resolved)) = true).

Lemma settle_consistent (i : nat) (g : Stage) (result : option nat) (s : Service) :
  nth_error (attempts s) i = Some g -> consistent s -> consistent (settle i g result s).
Proof.
  intros Hn [Hd Hl].
  pose proof (fun g' => setStage_last_stage (attempts s) i g g' (Done Resolved) Hn) as E.
  destruct g, result as [d|]; unfold consistent; cbn;
    try (split; [first [exact Hd | reflexivity] | discriminate]);
    try (split; assumption).
  - split; [exact Hd|]. intros Hq. rewrite E. destruct (Nat.eqb _ _); [reflexivity | exact (Hl Hq)].
  - split; [reflexivity|]. intros Hq. rewrite E. specialize (Hl Hq).
    destruct (Nat.eqb (S i) (length (attempts s))) eqn:Ei; [|exact Hl].
    apply Nat.eqb_eq in Ei.
    assert (El : last (attempts s) (Done Resolved) = AwaitingBlazePose).
    { clear - Hn Ei. revert i Hn Ei.
      induction (attempts s) as [|x l IH]; intros [|i] Hn Ei; cbn in *; try discriminate.
      - destruct l; [injection Hn as ->; reflexivity | discriminate Ei].
      - destruct l as [|y l]; [destruct i; discriminate Hn|].
        apply (IH i Hn). cbn in *. lia. }
    rewrite El in Hl. discriminate Hl.
  - split; [exact Hd|]. intros Hq. rewrite E. specialize (Hl Hq).
    destruct (Nat.eqb (S i) (length (attempts s))) eqn:Ei; [|exact Hl].
    apply Nat.eqb_eq in Ei.
    assert (El : last (attempts s) (Done Resolved) = AwaitingBlazePose).
    { clear - Hn Ei. revert i Hn Ei.
      induction (attempts s) as [|x l IH]; intros [|i] Hn Ei; cbn in *; try discriminate.
      - destruct l; [injection Hn as ->; reflexivity | discriminate Ei].
      - destruct l as [|y l]; [destruct i; discriminate Hn|].
        apply (IH i Hn). cbn in *. lia. }
    rewrite El in Hl. discriminate Hl.
Qed.

Lemma advance_consistent (e : ServiceEvent) (s : Service) : consistent s -> consistent (advance e s).
Proof.
  intros Hs. destruct e as [|i result|throws]; cbn [advance].
  - destruct (isInitialized (vars s) && hasDetector (vars s)); [exact Hs|].
    destruct (initializationPromise (vars s)); [exact Hs|].
    destruct Hs as [Hd _]. split; [exact Hd|]. intros _. cbn. rewrite last_last. reflexivity.
  - destruct (nth_error (attempts s) i) as [g|] eqn:Hn; [|exact Hs].
    apply settle_consistent; assumption.
  - destruct (detector (vars s)); [|exact Hs]. split; [reflexivity | discriminate].
Qed.

Lemma advances_consistent (evs : list ServiceEvent) : forall s, consistent s -> consistent (advances evs s).
Proof.
  induction evs as [|e evs IH]; intros s Hs; [exact Hs|].
  rewrite advances_cons. apply IH, advance_consistent, Hs.
Qed.

Lemma idle_consistent : consistent idle.
Proof. split; [reflexivity | discriminate]. Qed.

(** Whatever calls, settlements and disposals happen, in whatever order:
    [isInitialized] holds exactly when a detector is installed, and while
    [initializationPromise] is set the attempt started last is still at
    [tf.ready()] or at MoveNet Lightning, so that a call that joins waits
    for an attempt that is under way. *)
Theorem flag_and_promise_consistent (evs : list ServiceEvent) :
  let s := advances evs idle in
  isInitialized (vars s) = hasDetector (vars s) /\
  (initializationPromise (vars s) = true ->
   exists g, nth_error (attempts s) (length (attempts s) - 1) = Some g /\
             firstStage g = true /\ (0 < inFlight s)%nat).
Proof.
  cbv zeta. destruct (advances_consistent evs idle idle_consistent) as [Hd Hl].
  split; [exact Hd|]. intros Hq. specialize (Hl Hq). unfold inFlight.
  destruct (attempts (advances evs idle)) as [|x l] using rev_ind; [discriminate Hl|].
  rewrite last_last in Hl. exists x.
  rewrite length_app, Nat.add_sub. cbn [length]. rewrite nth_error_last.
  split; [reflexivity | split; [exact Hl|]].
  rewrite filter_app, length_app. cbn. destruct x; try discriminate Hl; cbn; lia.
Qed.

Lemma flag_and_promise_consistent_witness :
  initializationPromise (vars (advances [InitializeCalled; Settles 0 (Some 0%nat)] idle)) = true /\
  exists g, nth_error (attempts (advances [InitializeCalled; Settles 0 (Some 0%nat)] idle)) 0 = Some g /\
            firstStage g = true /\
            (0 < inFlight (advances [InitializeCalled; Settles 0 (Some 0%nat)] idle))%nat.
Proof.
  split; [reflexivity|].
  exact (proj2 (flag_and_promise_consistent [InitializeCalled; Settles 0 (Some 0%nat)]) eq_refl).
Defined.

Lemma joining_changes_nothing (n : nat) (s : Service) :
  initializationPromise (vars s) = true -> advances (repeat InitializeCalled n) s = s.
Proof.
  intros Hq. induction n as [|n IH]; [reflexivity|].
  cbn [repeat]. rewrite advances_cons. cbn [advance]. rewrite Hq.
  destruct (isInitialized (vars s) && hasDetector (vars s)); exact IH.
Qed.

(** Calls that arrive before anything settles start one initialization:
    the first call starts it and every further call joins it. *)
Theorem concurrent_calls_join (n : nat) (s : Service) :
  starts (vars s) ->
  advances (repeat InitializeCalled (S n)) s =
  {| vars := setPromise true (vars s); attempts := attempts s ++ [AwaitingReady];
     requested := requested s; disposed := disposed s; logged := logged s |}.
Proof.
  intros [Hp Hi]. cbn [repeat]. rewrite advances_cons. cbn [advance].
  fold (hasDetector (vars s)) in Hi. rewrite Hi, Hp.
  apply joining_changes_nothing. reflexivity.
Qed.

Lemma concurrent_calls_join_witness :
  starts (vars idle) /\
  attempts (advances (repeat InitializeCalled 5) idle) = [AwaitingReady].
Proof.
  split; [exact unloadedStarts|].
  rewrite (concurrent_calls_join 4 idle unloadedStarts). reflexivity.
Defined.

(** The guard against a second initialization covers the first stage only:
    once [tf.ready()] or MoveNet Lightning has failed, the attempt goes on
    to MoveNet Thunder with the promise cleared, and the next call starts
    an initialization of its own beside it. *)
Theorem guard_covers_first_stage_only (s : Service) (i : nat) (g : Stage) :
  nth_error (attempts s) i = Some g ->
  firstStage g = true ->
  isInitialized (vars s) = false ->
  let s' := advances [Settles i None; InitializeCalled] s in
  nth_error (attempts s') i = Some AwaitingThunder /\
  nth_error (attempts s') (length (attempts s)) = Some AwaitingReady /\
  inFlight s' = S (inFlight s) /\
  initializationPromise (vars s') = true.
Proof.
  intros Hn Hg Hi. cbv zeta. unfold advances. cbn [fold_left].
  assert (E : advance (Settles i None) s = enterThunder i s).
  { cbn [advance]. rewrite Hn. destruct g; try discriminate Hg; reflexivity. }
  rewrite E. cbn [advance enterThunder vars setPromise isInitialized initializationPromise].
  rewrite Hi. cbn [andb attempts vars initializationPromise].
  assert (Hlt : (i < length (attempts s))%nat) by (apply nth_error_Some; congruence).
  change (attempts (enterThunder i s)) with (setStage i AwaitingThunder (attempts s)).
  repeat split.
  - rewrite nth_error_app1 by (rewrite setStage_length; exact Hlt).
    exact (setStage_nth_same _ _ _ _ Hn).
  - rewrite <- (setStage_length i AwaitingThunder (attempts s)). apply nth_error_last.
  - unfold inFlight. cbn [attempts]. rewrite filter_app, length_app.
    rewrite (setStage_inFlight _ _ g AwaitingThunder Hn)
      by (destruct g; try discriminate Hg; reflexivity).
    cbn. lia.
Qed.

Lemma guard_covers_first_stage_only_witness :
  inFlight (advances [Settles 0 None; InitializeCalled] (advance InitializeCalled idle)) = 2%nat.
Proof.
  destruct (guard_covers_first_stage_only (advance InitializeCalled idle) 0 AwaitingReady
              eq_refl eq_refl eq_refl) as (_ & _ & H & _).
  exact H.
Defined.

(** [disposePoseDetector()] in a state the module can be in: afterwards no
    detector is installed and the flag is down, whether or not [dispose()]
    threw; a second call changes nothing; and no attempt is cancelled, so
    that a construction still awaited installs its detector afterwards. *)
Theorem dispose_resets_but_does_not_cancel (evs : list ServiceEvent) (throws again : bool) :
  let s := advances evs idle in
  let s' := advance (DisposeCalled throws) s in
  detector (vars s') = None /\ isInitialized (vars s') = false /\
  advance (DisposeCalled again) s' = s' /\
  attempts s' = attempts s /\
  (forall i d, nth_error (attempts s) i = Some AwaitingLightning \/
               nth_error (attempts s) i = Some AwaitingThunder ->
     vars (advance (Settles i (Some d)) s') = ready d).
Proof.
  cbv zeta. destruct (advances_consistent evs idle idle_consistent) as [Hd _].
  set (s := advances evs idle) in *. unfold hasDetector in Hd. cbn [advance].
  destruct (detector (vars s)) as [d0|] eqn:Ed; cbn [vars attempts unloaded detector isInitialized].
  - split; [reflexivity|]. split; [reflexivity|]. split; [reflexivity|].
    split; [reflexivity|].
    intros i d [H|H]; cbn [advance attempts]; rewrite H; reflexivity.
  - split; [exact Ed|]. split; [exact Hd|].
    split; [cbn [advance]; rewrite Ed; reflexivity|]. split; [reflexivity|].
    intros i d [H|H]; cbn [advance]; rewrite H; reflexivity.
Qed.

Lemma dispose_resets_but_does_not_cancel_witness :
  vars (advance (Settles 0 (Some 7%nat))
          (advance (DisposeCalled false)
             (advances [InitializeCalled; Settles 0 (Some 0%nat)] idle))) = ready 7.
Proof.
  destruct (dispose_resets_but_does_not_cancel
              [InitializeCalled; Settles 0 (Some 0%nat)] false false) as (_ & _ & _ & _ & H).
  exact (H 0%nat 7%nat (or_introl eq_refl)).
Defined.

End PoseDetectionSteps.

(** ** [detectPose]: lazy initialization and the keypoints returned *)

(** The [Keypoint] of the types module: [visibility] and [name] are
    optional. *)
Module Types.

Record Keypoint : Type := {
  x : float;
  y : float;
  visibility : option float;
  name : option string
}.

End Types.

Module DetectPose.
Import JsNum PoseDetection Types.

(** A keypoint as the detector gives it: [kp.x], [kp.y], [kp.score],
    [kp.name]. *)
Record RawKeypoint : Type := {
  kp_x : float;
  kp_y : float;
  kp_score : option float;
  kp_name : option string
}.

(** [detector.estimatePoses(video, ...)]: it throws, or gives the poses,
    each with its keypoints. *)
Inductive Estimate : Type :=
| EstimateThrows
| Poses (ps : list (list RawKeypoint)).

(** The body of [poses[0].keypoints.map(...)]. *)
Definition normalize (video : ApplicationPage.Video) (kp : RawKeypoint) : Keypoint :=
  {| x := if (0 <? ApplicationPage.videoWidth video)%nat
          then PrimFloat.div (kp_x kp) (js_of_nat (ApplicationPage.videoWidth video))
          else kp_x kp;
     y := if (0 <? ApplicationPage.videoHeight video)%nat
          then PrimFloat.div (kp_y kp) (js_of_nat (ApplicationPage.videoHeight video))
          else kp_y kp;
     visibility := Some match kp_score kp with Some s => s | None => 1%float end;
     name := kp_name kp |}.

(** One call run to its end: the module state, the value the promise
    resolves with ([None] for [null]), the variants whose construction the
    call attempted and its [console.error] lines. *)
Record Detection : Type := {
  after : State;
  keypoints : option (list Keypoint);
  built : list ModelVariant;
  errors : list string
}.

Definition available (st : State) : bool :=
  match detector st with Some _ => isInitialized st | None => false end.

(** [detectPose(video)].  [joined] is used when [initializePoseDetector]
    hands back the promise of an attempt in progress: the module state when
    that promise settles, and whether it resolved. *)
Definition detectPose (env : Backend) (joined : State * bool)
    (estimatePoses : nat -> Estimate) (video : ApplicationPage.Video) (st : State) : Detection :=
  let r :=
    if available st then
      {| final := st; outcome := Resolved; constructed := []; errorsLogged := [] |}
    else
      let r0 := initializePoseDetector env st in
      match outcome r0 with
      | JoinedAttemptInProgress =>
          {| final := fst joined;
             outcome := if snd joined then Resolved else Rejected initializationError;
             constructed := []; errorsLogged := [] |}
      | _ => r0
      end in
  match outcome r with
  | Rejected _ =>
      {| after := final r; keypoints := None; built := constructed r;
         errors := errorsLogged r ++ ["Pose detector initialization failed:"%string] |}
  | _ =>
      match detector (final r) with
      | None =>
          {| after := final r; keypoints := None; built := constructed r;
             errors := errorsLogged r |}
      | Some d =>
          match estimatePoses d with
          | EstimateThrows =>
              {| after := final r; keypoints := None; built := constructed r;
                 errors := errorsLogged r ++ ["Pose detection error:"%string] |}
          | Poses ((_ :: _) as raw :: _) =>
              {| after := final r; keypoints := Some (map (normalize video) raw);
                 built := constructed r; errors := errorsLogged r |}
          | Poses _ =>
              {| after := final r; keypoints := None; built := constructed r;
                 errors := errorsLogged r |}
          end
      end
  end.

(** The arguments of one call. *)
Record Call : Type := {
  env : Backend;
  joined : State * bool;
  estimatePoses : nat -> Estimate;
  video : ApplicationPage.Video
}.

Definition detect (c : Call) (st : State) : Detection :=
  detectPose (env c) (joined c) (estimatePoses c) (video c) st.

(** Calls one after the other, each started when the one before has
    returned. *)
Fixpoint detectAll (cs : list Call) (st : State) : list Detection :=
  match cs with
  | [] => []
  | c :: rest => detect c st :: detectAll rest (after (detect c st))
  end.

Lemma initialize_resolved_ready (e : Backend) (st : State) :
  available st = false -> initializationPromise st = false ->
  outcome (initializePoseDetector e st) = Resolved ->
  exists d, final (initializePoseDetector e st) = ready d.
Proof.
  intros Ha Hp. unfold initializePoseDetector.
  assert (Hg : isInitialized st && match detector st with Some _ => true | None => false end
               = false).
  { unfold available in Ha. destruct (detector st); [rewrite Ha; reflexivity|].
    apply andb_false_r. }
  rewrite Hg, Hp. unfold tryThunder, tryBlazePose.
  destruct (tfReady e);
    destruct (createDetector e MoveNetLightning) as [d1|];
    destruct (createDetector e MoveNetThunder) as [d2|];
    destruct (createDetector e BlazePoseLite) as [d3|];
    cbn; intros H; try discriminate H; eexists; reflexivity.
Qed.

Lemma detect_available (c : Call) (st : State) :
  available st = true -> after (detect c st) = st /\ built (detect c st) = [].
Proof.
  intros Ha. unfold detect, detectPose. rewrite Ha. cbn [outcome final constructed].
  destruct (detector st) as [d|]; [|split; reflexivity].
  destruct (estimatePoses c d) as [|[|[|k raw] ps]]; split; reflexivity.
Qed.

(** The keypoints returned are those of the first pose, all of them and in
    order, never an empty list, and they come from the detector that is
    installed when the call returns; the coordinates are divided by the
    video's dimensions, or kept when a dimension is 0. *)
Theorem keypoints_of_first_pose (c : Call) (st : State) (kps : list Keypoint) :
  keypoints (detect c st) = Some kps ->
  exists d raw others,
    detector (after (detect c st)) = Some d /\
    estimatePoses c d = Poses (raw :: others) /\
    kps = map (normalize (video c)) raw /\
    length kps = length raw /\ (0 < length kps)%nat.
Proof.
  unfold detect, detectPose.
  set (r := if available st then _ else _).
  destruct (outcome r) eqn:Eo; cbn [keypoints]; try discriminate;
    destruct (detector (final r)) as [d|] eqn:Ed; cbn [keypoints]; try discriminate;
    destruct (estimatePoses c d) as [|[|[|k raw] ps]] eqn:Ee; cbn [keypoints after];
    try discriminate; intros H; injection H as <-;
    exists d, (k :: raw), ps; cbn [length]; rewrite length_map;
    repeat split; try assumption; lia.
Qed.

Definition elbow : RawKeypoint :=
  {| kp_x := 320%float; kp_y := 120%float; kp_score := None;
     kp_name := Some "left_elbow"%string |}.

Definition oneElbow : Call :=
  {| env := {| tfReady := true; createDetector := fun _ => Some 1%nat |};
     joined := (unloaded, false);
     estimatePoses := fun _ => Poses [[elbow]; []];
     video := {| ApplicationPage.videoWidth := 640; ApplicationPage.videoHeight := 480 |} |}.

Lemma keypoints_of_first_pose_witness :
  keypoints (detect oneElbow unloaded) =
    Some [ {| x := 0.5%float; y := 0.25%float; visibility := Some 1%float;
              name := Some "left_elbow"%string |} ] /\
  exists d raw others,
    detector (after (detect oneElbow unloaded)) = Some d /\
    estimatePoses oneElbow d = Poses (raw :: others) /\
    [ {| x := 0.5%float; y := 0.25%float; visibility := Some 1%float;
         name := Some "left_elbow"%string |} ] = map (normalize (video oneElbow)) raw /\
    length [ {| x := 0.5%float; y := 0.25%float; visibility := Some 1%float;
                name := Some "left_elbow"%string |} ] = length raw /\
    (0 < length [ {| x := 0.5%float; y := 0.25%float; visibility := Some 1%float;
                     name := Some "left_elbow"%string |} ])%nat.
Proof.
  assert (H : keypoints (detect oneElbow unloaded) =
    Some [ {| x := 0.5%float; y := 0.25%float; visibility := Some 1%float;
              name := Some "left_elbow"%string |} ]) by (vm_compute; reflexivity).
  split; [exact H | exact (keypoints_of_first_pose oneElbow unloaded _ H)].
Defined.

(** Once a call has returned keypoints, no later call loads a model again:
    each finds the detector installed and leaves the module as it is. *)
Theorem detector_loaded_once (c : Call) (st : State) (kps : list Keypoint)
    (later : list Call) :
  initializationPromise st = false ->
  keypoints (detect c st) = Some kps ->
  Forall (fun D => after D = after (detect c st) /\ built D = [])
         (detectAll later (after (detect c st))).
Proof.
  intros Hp Hk.
  assert (Ha : available (after (detect c st)) = true).
  { revert Hk. unfold detect, detectPose.
    destruct (available st) eqn:Ea.
    - cbn [outcome final]. unfold available in Ea.
      destruct (detector st) as [d|] eqn:Ed; [|discriminate Ea].
      destruct (estimatePoses c d) as [|[|[|k raw] ps]]; cbn; try discriminate.
      intros _. unfold available. rewrite Ed. exact Ea.
    - pose proof (initialize_resolved_ready (env c) st Ea Hp) as Hr.
      destruct (outcome (initializePoseDetector (env c) st)) eqn:Eo.
      + destruct (Hr eq_refl) as [d Hd]. rewrite Eo, Hd. cbn [detector ready].
        destruct (estimatePoses c d) as [|[|[|k raw] ps]]; cbn; try discriminate.
        reflexivity.
      + rewrite Eo. cbn. discriminate.
      + exfalso. revert Eo. unfold initializePoseDetector.
        assert (Hg : isInitialized st && match detector st with Some _ => true | None => false end
                     = false)
          by (unfold available in Ea; destruct (detector st);
              [rewrite Ea; reflexivity | apply andb_false_r]).
        rewrite Hg, Hp. unfold tryThunder, tryBlazePose.
        destruct (tfReady (env c));
          destruct (createDetector (env c) MoveNetLightning);
          destruct (createDetector (env c) MoveNetThunder);
          destruct (createDetector (env c) BlazePoseLite); discriminate. }
  revert Ha. generalize (after (detect c st)). intros s Ha.
  induction later as [|c' later IH]; cbn [detectAll]; constructor.
  - exact (detect_available c' s Ha).
  - rewrite (proj1 (detect_available c' s Ha)). exact IH.
Qed.

Lemma detector_loaded_once_witness :
  Forall (fun D => after D = after (detect oneElbow unloaded) /\ built D = [])
         (detectAll [oneElbow; oneElbow] (after (detect oneElbow unloaded))).
Proof.
  apply (detector_loaded_once oneElbow unloaded
           [ {| x := 0.5%float; y := 0.25%float; visibility := Some 1%float;
                name := Some "left_elbow"%string |} ]);
    [reflexivity | vm_compute; reflexivity].
Defined.

End DetectPose.

(** ** The skeleton overlay: which keypoints and lines are drawn *)

Module PoseOverlay.
Import Types.

Record PoseOverlayProps : Type := {
  keypoints : option (list Keypoint);
  videoWidth : float;
  videoHeight : float;
  containerWidth : float;
  containerHeight : float
}.

Definition SKELETON_CONNECTIONS : list (nat * nat) :=
  [ (0, 1); (0, 2); (1, 3); (2, 4);
    (5, 6); (5, 11); (6, 12); (11, 12);
    (5, 7); (7, 9);
    (6, 8); (8, 10);
    (11, 13); (13, 15);
    (12, 14); (14, 16) ]%nat.

(** A number is falsy when it is [0], [-0] or [NaN]. *)
Definition truthy (v : float) : bool :=
  negb (PrimFloat.eqb v 0 || PrimFloat.is_nan v).

(** [kp.visibility || 1]. *)
Definition visibilityOrOne (v : option float) : float :=
  match v with
  | Some v => if truthy v then v else 1
  | None => 1
  end.

(** [Math.max(...l)], up to the sign of a zero result, which the
    comparisons made on it do not see. *)
Definition mathMax (l : list float) : float :=
  fold_left (fun acc v =>
               if PrimFloat.is_nan acc || PrimFloat.is_nan v then PrimFloat.nan
               else if PrimFloat.ltb acc v then v else acc)
            l PrimFloat.neg_infinity.

(** [Math.min(a, b)], up to the sign of a zero result. *)
Definition mathMin (a b : float) : float :=
  if PrimFloat.is_nan a || PrimFloat.is_nan b then PrimFloat.nan
  else if PrimFloat.ltb b a then b else a.

Definition given (props : PoseOverlayProps) : list Keypoint :=
  match keypoints props with Some l => l | None => [] end.

Definition isNormalized (kps : list Keypoint) : bool :=
  let maxX := mathMax (map x kps) in
  let maxY := mathMax (map y kps) in
  PrimFloat.leb maxX 1 && PrimFloat.leb maxY 1 && PrimFloat.ltb 0 maxX && PrimFloat.ltb 0 maxY.

Definition scaleX (props : PoseOverlayProps) : float :=
  if isNormalized (given props) then containerWidth props
  else PrimFloat.div (containerWidth props) (videoWidth props).

Definition scaleY (props : PoseOverlayProps) : float :=
  if isNormalized (given props) then containerHeight props
  else PrimFloat.div (containerHeight props) (videoHeight props).

Record Scaled : Type := {
  scaled_x : float;
  scaled_y : float;
  scaled_visibility : float
}.

Definition scale (props : PoseOverlayProps) (kp : Keypoint) : Scaled :=
  {| scaled_x := PrimFloat.mul (x kp) (scaleX props);
     scaled_y := PrimFloat.mul (y kp) (scaleY props);
     scaled_visibility := visibilityOrOne (visibility kp) |}.

Definition scaledKeypoints (props : PoseOverlayProps) : list Scaled :=
  map (scale props) (given props).

(** The predicate of [SKELETON_CONNECTIONS.filter]. *)
Definition connected (scaled : list Scaled) (c : nat * nat) : bool :=
  match nth_error scaled (fst c), nth_error scaled (snd c) with
  | Some kp1, Some kp2 =>
      PrimFloat.ltb 0.5 (scaled_visibility kp1) && PrimFloat.ltb 0.5 (scaled_visibility kp2)
  | _, _ => false
  end.

Definition visibleConnections (props : PoseOverlayProps) : list (nat * nat) :=
  filter (connected (scaledKeypoints props)) SKELETON_CONNECTIONS.

Record Line : Type := {
  x1 : float; y1 : float; x2 : float; y2 : float;
  strokeOpacity : float
}.

Record Circle : Type := {
  cx : float; cy : float;
  fillOpacity : float
}.

(** The two groups of the [svg]; an entry is [None] where the callback of
    [map] returns [null].  The factor of [strokeOpacity] is the double
    written [0.9]. *)
Record Svg : Type := {
  lines : list (option Line);
  circles : list (option Circle)
}.

Definition line (scaled : list Scaled) (c : nat * nat) : option Line :=
  match nth_error scaled (fst c), nth_error scaled (snd c) with
  | Some kp1, Some kp2 =>
      Some {| x1 := scaled_x kp1; y1 := scaled_y kp1;
              x2 := scaled_x kp2; y2 := scaled_y kp2;
              strokeOpacity :=
                PrimFloat.mul (mathMin (scaled_visibility kp1) (scaled_visibility kp2))
                              0x1.ccccccccccccdp-1 |}
  | _, _ => None
  end.

Definition circle (kp : Scaled) : option Circle :=
  if PrimFloat.ltb (scaled_visibility kp) 0.5 then None
  else Some {| cx := scaled_x kp; cy := scaled_y kp;
               fillOpacity := scaled_visibility kp |}.

(** [PoseOverlay(props)]; [None] is [null]. *)
Definition PoseOverlay (props : PoseOverlayProps) : option Svg :=
  match given props with
  | [] => None
  | _ :: _ =>
      Some {| lines := map (line (scaledKeypoints props)) (visibleConnections props);
              circles := map circle (scaledKeypoints props) |}
  end.

Lemma SFcompare_Lt_Gt (f1 f2 : SpecFloat.spec_float) :
  SpecFloat.SFcompare f1 f2 = Some Lt -> SpecFloat.SFcompare f2 f1 = Some Gt.
Proof.
  destruct f1 as [s1|s1| |s1 m1 e1], f2 as [s2|s2| |s2 m2 e2]; cbn;
    try discriminate; try (destruct s1; discriminate || reflexivity);
    try (destruct s2; discriminate || reflexivity);
    try (destruct s1, s2; discriminate || reflexivity).
  destruct s1, s2; try discriminate; try reflexivity;
    rewrite (Z.compare_antisym e1 e2);
    destruct (e1 ?= e2); cbn; try discriminate; try reflexivity;
    change (Pos.compare_cont Eq m1 m2) with (m1 ?= m2)%positive;
    change (Pos.compare_cont Eq m2 m1) with (m2 ?= m1)%positive;
    rewrite (Pos.compare_antisym m1 m2); destruct (m1 ?= m2)%positive; cbn;
    discriminate || reflexivity.
Qed.

Lemma ltb_asym (a b : float) : PrimFloat.ltb a b = true -> PrimFloat.ltb b a = false.
Proof.
  rewrite !FloatAxioms.ltb_spec. unfold SpecFloat.SFltb. intros H.
  destruct (SpecFloat.SFcompare (Prim2SF a) (Prim2SF b)) as [[| |]|] eqn:E; try discriminate H.
  rewrite (SFcompare_Lt_Gt _ _ E). reflexivity.
Qed.

Lemma connected_drawn (scaled : list Scaled) (c : nat * nat) :
  connected scaled c = true ->
  (exists k, nth_error (map circle scaled) (fst c) = Some (Some k)) /\
  (exists k, nth_error (map circle scaled) (snd c) = Some (Some k)) /\
  (exists l, line scaled c = Some l).
Proof.
  unfold connected, line. rewrite !nth_error_map.
  destruct (nth_error scaled (fst c)) as [kp1|]; [|discriminate].
  destruct (nth_error scaled (snd c)) as [kp2|]; [|discriminate].
  intros H. apply andb_true_iff in H. destruct H as [H1 H2].
  cbn [option_map]. unfold circle. rewrite (ltb_asym _ _ H1), (ltb_asym _ _ H2).
  repeat split; eexists; reflexivity.
Qed.

(** Every line of the skeleton that is drawn is one of the sixteen
    connections and joins two keypoints that exist and are themselves
    drawn; no entry of the line group is empty. *)
Theorem lines_join_drawn_keypoints (props : PoseOverlayProps) (svg : Svg) :
  PoseOverlay props = Some svg ->
  length (lines svg) = length (visibleConnections props) /\
  (length (lines svg) <= 16)%nat /\
  Forall (fun l => exists drawn, l = Some drawn) (lines svg) /\
  forall i j, In (i, j) (visibleConnections props) ->
    In (i, j) SKELETON_CONNECTIONS /\
    (i < length (given props))%nat /\ (j < length (given props))%nat /\
    (exists k, nth_error (circles svg) i = Some (Some k)) /\
    (exists k, nth_error (circles svg) j = Some (Some k)).
Proof.
  unfold PoseOverlay. destruct (given props) as [|kp kps] eqn:Eg; [discriminate|].
  intros H. injection H as <-. cbn [lines circles]. rewrite length_map.
  split; [reflexivity|]. split; [apply (filter_length_le _ SKELETON_CONNECTIONS)|].
  split.
  - apply Forall_forall. intros l Hl. apply in_map_iff in Hl.
    destruct Hl as (c & <- & Hc). apply filter_In in Hc.
    destruct (connected_drawn _ _ (proj2 Hc)) as (_ & _ & Hline). exact Hline.
  - intros i j Hc. apply filter_In in Hc. destruct Hc as [Hin Hc].
    destruct (connected_drawn _ _ Hc) as ([k1 H1] & [k2 H2] & _). cbn [fst snd] in H1, H2.
    split; [exact Hin|].
    assert (Hlen : length (map circle (scaledKeypoints props)) = length (kp :: kps))
      by (unfold scaledKeypoints; rewrite !length_map, Eg; reflexivity).
    rewrite <- Hlen.
    split; [apply nth_error_Some; congruence|].
    split; [apply nth_error_Some; congruence|].
    split; eexists; eassumption.
Qed.

Definition point (v : option float) : Keypoint :=
  {| x := 0.5; y := 0.5; visibility := v; name := None |}.

(** Two keypoints: the nose in full view, the left eye with score 0. *)
Definition noseAndEye : PoseOverlayProps :=
  {| keypoints := Some [point (Some 0.75%float); point (Some 0%float)];
     videoWidth := 640; videoHeight := 480;
     containerWidth := 800; containerHeight := 600 |}.

Definition noseAndEyeSvg : Svg :=
  match PoseOverlay noseAndEye with
  | Some svg => svg
  | None => {| lines := []; circles := [] |}
  end.

Lemma lines_join_drawn_keypoints_witness :
  visibleConnections noseAndEye = [(0, 1)]%nat /\
  length (lines noseAndEyeSvg) = length (visibleConnections noseAndEye) /\
  (length (lines noseAndEyeSvg) <= 16)%nat.
Proof.
  destruct (lines_join_drawn_keypoints noseAndEye noseAndEyeSvg eq_refl) as (H1 & H2 & _).
  split; [vm_compute; reflexivity | exact (conj H1 H2)].
Defined.

(** A keypoint is left out exactly when its visibility is a number below
    0.5 that is neither zero nor NaN; one without visibility, or with
    visibility 0 or NaN, is drawn, and at full opacity. *)
Theorem hidden_keypoints (props : PoseOverlayProps) (svg : Svg) (i : nat) (kp : Keypoint) :
  PoseOverlay props = Some svg ->
  nth_error (given props) i = Some kp ->
  (nth_error (circles svg) i = Some None <->
   exists v, visibility kp = Some v /\ truthy v = true /\ PrimFloat.ltb v 0.5 = true) /\
  ((forall v, visibility kp = Some v -> truthy v = false) ->
   exists k, nth_error (circles svg) i = Some (Some k) /\ fillOpacity k = 1%float).
Proof.
  unfold PoseOverlay. destruct (given props) as [|kp0 kps] eqn:Eg; [discriminate|].
  intros H Hi. injection H as <-. cbn [circles]. unfold scaledKeypoints.
  rewrite Eg, map_map, nth_error_map, Hi. cbn [option_map].
  unfold circle, scale. cbn [scaled_visibility scaled_x scaled_y]. unfold visibilityOrOne.
  assert (H1 : PrimFloat.ltb 1 0.5 = false) by reflexivity.
  destruct (visibility kp) as [v|] eqn:Ev.
  - destruct (truthy v) eqn:Et.
    + destruct (PrimFloat.ltb v 0.5) eqn:El; split.
      * split; [intros _; exists v; repeat split; assumption | reflexivity].
      * intros Hf. specialize (Hf v eq_refl). congruence.
      * split; [discriminate|]. intros (w & Hw & _ & Hl). injection Hw as <-. congruence.
      * intros Hf. specialize (Hf v eq_refl). congruence.
    + rewrite H1. split.
      * split; [discriminate|]. intros (w & Hw & Ht & _). injection Hw as <-. congruence.
      * intros _. eexists. split; reflexivity.
  - rewrite H1. split.
    + split; [discriminate|]. intros (w & Hw & _). discriminate Hw.
    + intros _. eexists. split; reflexivity.
Qed.

Lemma hidden_keypoints_witness :
  exists k, nth_error (circles noseAndEyeSvg) 1 = Some (Some k) /\ fillOpacity k = 1%float.
Proof.
  refine (proj2 (hidden_keypoints noseAndEye noseAndEyeSvg 1 (point (Some 0%float))
                   eq_refl eq_refl) _).
  intros v Hv. injection Hv as <-. reflexivity.
Defined.

End PoseOverlay.

(** ** CameraFeed.tsx: the capture loop *)

Module CameraFeed.
Import Types.

Definition POSE_DETECTION_INTERVAL : Z := 100.

(** The refs the loop reads and writes. *)
Record Refs : Type := {
  poseDetectionRef : bool;
  lastPoseDetectionTime : Z
}.

(** The props as the loop sees them: the flags, and which callbacks are
    given. *)
Record CameraFeedProps : Type := {
  isActive : bool;
  onFrameCapture : bool;
  onPoseDetected : bool;
  enablePoseDetection : bool
}.

(** What one run of [captureFrame] calls, in order. *)
Inductive Called : Type :=
| OnFrameCapture
| DetectPoseAt (now : Z)
| OnPoseDetected (kps : list Keypoint)
| RequestAnimationFrame.

(** One animation frame: the props, whether [videoRef.current] is set, the
    clock, and what importing and calling [detectPose] gives if the loop
    gets there. *)
Record Frame : Type := {
  props : CameraFeedProps;
  videoMounted : bool;
  now : Z;
  detected : result (option (list Keypoint))
}.

(** The part of [startFrameCapture] before the loop: [resolved] tells how
    [initializePoseDetector()] settled. *)
Definition startFrameCapture (p : CameraFeedProps) (resolved : bool) (r : Refs) : Refs :=
  if enablePoseDetection p then
    {| poseDetectionRef := resolved; lastPoseDetectionTime := lastPoseDetectionTime r |}
  else r.

(** [captureFrame()]. *)
Definition captureFrame (f : Frame) (r : Refs) : Refs * list Called :=
  let p := props f in
  let '(r1, calls) :=
    if videoMounted f && isActive p then
      let framed := if onFrameCapture p then [OnFrameCapture] else [] in
      if enablePoseDetection p && poseDetectionRef r && onPoseDetected p then
        if POSE_DETECTION_INTERVAL <=? now f - lastPoseDetectionTime r then
          ({| poseDetectionRef := poseDetectionRef r; lastPoseDetectionTime := now f |},
           framed ++ [DetectPoseAt (now f)] ++
           match detected f with
           | Return (Some (k :: ks)) => [OnPoseDetected (k :: ks)]
           | _ => []
           end)
        else (r, framed)
      else (r, framed)
    else (r, []) in
  (r1, calls ++ if isActive p then [RequestAnimationFrame] else []).

Fixpoint loop (fs : list Frame) (r : Refs) : Refs * list Called :=
  match fs with
  | [] => (r, [])
  | f :: rest =>
      let '(r1, calls) := captureFrame f r in
      let '(r2, more) := loop rest r1 in
      (r2, calls ++ more)
  end.

Fixpoint detectTimes (cs : list Called) : list Z :=
  match cs with
  | [] => []
  | DetectPoseAt t :: rest => t :: detectTimes rest
  | _ :: rest => detectTimes rest
  end.

(** Each time is at least [POSE_DETECTION_INTERVAL] after the one before
    it, the first after [since]. *)
Fixpoint spacedFrom (since : Z) (ts : list Z) : Prop :=
  match ts with
  | [] => True
  | t :: rest => POSE_DETECTION_INTERVAL <= t - since /\ spacedFrom t rest
  end.

Definition wellFormedCall (c : Called) : Prop :=
  match c with
  | OnPoseDetected kps => kps <> []
  | _ => True
  end.

Lemma detectTimes_app (a b : list Called) :
  detectTimes (a ++ b) = detectTimes a ++ detectTimes b.
Proof.
  induction a as [|c a IH]; [reflexivity|]. destruct c; cbn; rewrite IH; reflexivity.
Qed.

Lemma captureFrame_cases (f : Frame) (r : Refs) :
  Forall wellFormedCall (snd (captureFrame f r)) /\
  poseDetectionRef (fst (captureFrame f r)) = poseDetectionRef r /\
  ((detectTimes (snd (captureFrame f r)) = [] /\
    lastPoseDetectionTime (fst (captureFrame f r)) = lastPoseDetectionTime r) \/
   (detectTimes (snd (captureFrame f r)) = [now f] /\
    lastPoseDetectionTime (fst (captureFrame f r)) = now f /\
    POSE_DETECTION_INTERVAL <= now f - lastPoseDetectionTime r /\
    poseDetectionRef r = true)).
Proof.
  unfold captureFrame.
  destruct (videoMounted f), (isActive (props f)), (onFrameCapture (props f)),
    (enablePoseDetection (props f)), (poseDetectionRef r) eqn:Er, (onPoseDetected (props f));
    cbn [andb];
    try (cbn; split; [repeat constructor | split; [reflexivity | left; split; reflexivity]]);
    destruct (POSE_DETECTION_INTERVAL <=? now f - lastPoseDetectionTime r) eqn:El;
    try (cbn; split; [repeat constructor | split; [try assumption; reflexivity | left; split; reflexivity]]);
    apply Z.leb_le in El;
    destruct (detected f) as [[[|k ks]|]|msg]; cbn;
    (split; [repeat constructor; discriminate
            | split; [reflexivity | right; repeat split; assumption]]).
Qed.

Lemma loop_cases (fs : list Frame) : forall r,
  Forall wellFormedCall (snd (loop fs r)) /\
  spacedFrom (lastPoseDetectionTime r) (detectTimes (snd (loop fs r))) /\
  (poseDetectionRef r = false -> detectTimes (snd (loop fs r)) = []).
Proof.
  induction fs as [|f fs IH]; intros r; [repeat split; constructor|].
  cbn [loop]. destruct (captureFrame_cases f r) as (Hw & Hp & Hc).
  destruct (captureFrame f r) as [r1 calls]. cbn [fst snd] in *.
  destruct (IH r1) as (IHw & IHa & IHn). destruct (loop fs r1) as [r2 more].
  cbn [fst snd] in *. rewrite detectTimes_app.
  split; [apply Forall_app; split; assumption|].
  destruct Hc as [[Hd Hl]|(Hd & Hl & Hge & Hon)]; rewrite Hd.
  - cbn [app]. rewrite <- Hl. split; [exact IHa|]. intros Hoff. apply IHn. congruence.
  - cbn [app spacedFrom]. rewrite <- Hl. split; [split; [rewrite Hl; exact Hge | exact IHa]|].
    intros Hoff. congruence.
Qed.

(** Whatever the frames, the props and the clock: two calls of
    [detectPose] are at least 100 ms apart, the first at least 100 ms after
    the time the ref starts with; [onPoseDetected] is never given an empty
    list; and while [poseDetectionRef] is off (initialization failed, or
    not yet done) [detectPose] is not called at all. *)
Theorem pose_detection_throttled (fs : list Frame) (r : Refs) :
  let calls := snd (loop fs r) in
  spacedFrom (lastPoseDetectionTime r) (detectTimes calls) /\
  Forall wellFormedCall calls /\
  (poseDetectionRef r = false -> detectTimes calls = []) /\
  (forall p, enablePoseDetection p = true ->
     detectTimes (snd (loop fs (startFrameCapture p false r))) = []).
Proof.
  cbv zeta. destruct (loop_cases fs r) as (Hw & Ha & Hn).
  repeat split; try assumption.
  intros p Hp. apply (proj2 (proj2 (loop_cases fs _))).
  unfold startFrameCapture. rewrite Hp. reflexivity.
Qed.

Definition watching : CameraFeedProps :=
  {| isActive := true; onFrameCapture := true; onPoseDetected := true;
     enablePoseDetection := true |}.

Definition frameAt (t : Z) : Frame :=
  {| props := watching; videoMounted := true; now := t; detected := Return None |}.

(** Frames 16 ms apart: the pose is looked for in the first and in the
    eighth. *)
Example detectTimes_of_frames :
  detectTimes (snd (loop (map frameAt [1000; 1016; 1033; 1050; 1066; 1083; 1100; 1116])
                         {| poseDetectionRef := true; lastPoseDetectionTime := 0 |}))
  = [1000; 1100].
Proof. reflexivity. Qed.

End CameraFeed.
